(** * Job-application worker: a shallow embedding and its verified properties

    The development follows the TypeScript sources of the worker and of the
    web helpers:

    - [JsString]   : the string primitives the sources rely on
                     ([toLowerCase], [includes], [endsWith], [trim], ...);
    - [Url]        : the [URL] objects handled by [normalizeUrl]
                     (apps/web/lib/jobs/normalizeUrl.ts);
    - [RateLimiter]: services/worker/src/rateLimiter.ts;
    - [ErrorHandler]: [classifyError] and [withRetry]
                     (services/worker/src/runner/errorHandler.ts);
    - [Adapters]   : the Greenhouse and Lever adapters ([apply],
                     [detectUnfilledRequiredFields], [submitForm],
                     [detectOutcome]);
    - [Orchestrator]: [applyJob] (services/worker/src/runner/applyJob.ts);
    - [Runner]     : [claimRun], [processRun], [failRun] (runner.ts).

    Part I holds the definitions.  Part II holds the properties, one
    [...Facts] module per module of Part I.  The platform's [URL] class is a
    parameter ([Url.UrlApi]); the browser and the storage service appear
    through what they answer to the code ([Adapters.Page],
    [Orchestrator.Env], [Runner.Db]). *)

From Stdlib Require Import ZArith List Ascii String Bool Lia DecimalString.
From stdpp Require Import base option gmap strings.
Import ListNotations.

Local Open Scope string_scope.
Local Open Scope list_scope.

(* ===================================================================== *)
(** * Part I: definitions                                                 *)
(* ===================================================================== *)

(** ** JavaScript string primitives (ASCII fragment) *)

Module JsString.

(** [String.prototype.toLowerCase] on one code unit: A-Z go to a-z. *)
Definition toLowerChar (c : ascii) : ascii :=
  let n := nat_of_ascii c in
  if (65 <=? n)%nat && (n <=? 90)%nat then ascii_of_nat (n + 32) else c.

Fixpoint toLowerCase (s : string) : string :=
  match s with
  | EmptyString => EmptyString
  | String c s' => String (toLowerChar c) (toLowerCase s')
  end.

(** [s.startsWith(p)] *)
Fixpoint startsWith (s p : string) : bool :=
  match p, s with
  | EmptyString, _ => true
  | String _ _, EmptyString => false
  | String a p', String b s' => Ascii.eqb a b && startsWith s' p'
  end.

(** [s.includes(sub)]: [sub] occurs at some position of [s]. *)
Fixpoint includes (s sub : string) : bool :=
  startsWith s sub ||
  match s with
  | EmptyString => false
  | String _ s' => includes s' sub
  end.

(** [s.length] *)
Fixpoint len (s : string) : nat :=
  match s with
  | EmptyString => 0
  | String _ s' => S (len s')
  end.

(** [s.endsWith(String.fromCharCode c)] for a one-character suffix. *)
Fixpoint endsWithChar (s : string) (c : ascii) : bool :=
  match s with
  | EmptyString => false
  | String a EmptyString => Ascii.eqb a c
  | String _ s' => endsWithChar s' c
  end.

(** [s.slice(0, -1)]: everything but the last code unit. *)
Fixpoint dropLast (s : string) : string :=
  match s with
  | EmptyString => EmptyString
  | String _ EmptyString => EmptyString
  | String a s' => String a (dropLast s')
  end.

(** White space removed by [trim] (ASCII part of the ECMAScript set). *)
Definition isSpace (c : ascii) : bool :=
  let n := nat_of_ascii c in
  (n =? 32)%nat || ((9 <=? n)%nat && (n <=? 13)%nat).

Fixpoint trimStart (s : string) : string :=
  match s with
  | EmptyString => EmptyString
  | String c s' => if isSpace c then trimStart s' else s
  end.

(** [trimEnd], right to left: a space is dropped when nothing but spaces
    follows it. *)
Fixpoint trimEnd (s : string) : string :=
  match s with
  | EmptyString => EmptyString
  | String c s' =>
      match trimEnd s' with
      | EmptyString => if isSpace c then EmptyString else String c EmptyString
      | t => String c t
      end
  end.

Definition trim (s : string) : string := trimEnd (trimStart s).

(** JavaScript truthiness of a string: non-empty. *)
Definition truthy (s : string) : bool :=
  match s with EmptyString => false | _ => true end.

(** [parts.join(sep)] *)
Fixpoint join (sep : string) (parts : list string) : string :=
  match parts with
  | [] => EmptyString
  | [p] => p
  | p :: rest => p +:+ sep +:+ join sep rest
  end.

(** [s.split(String.fromCharCode c)]: never empty, [""] splits to [[""]]. *)
Fixpoint splitChar (c : ascii) (s : string) : list string :=
  match s with
  | EmptyString => [EmptyString]
  | String a s' =>
      if Ascii.eqb a c then EmptyString :: splitChar c s'
      else match splitChar c s' with
           | [] => [String a EmptyString]
           | p :: ps => String a p :: ps
           end
  end.

(** [xs.slice(-2)]: the last two elements (all of them when fewer). *)
Fixpoint lastTwo {A} (xs : list A) : list A :=
  match xs with
  | _ :: ((_ :: _ :: _) as tl) => lastTwo tl
  | _ => xs
  end.

(** [xs.slice(0, n)] *)
Definition sliceTo {A} (n : nat) (xs : list A) : list A := firstn n xs.

(** [s.replace(/c/g, "")] for a single literal character [c]. *)
Fixpoint removeChar (c : ascii) (s : string) : string :=
  match s with
  | EmptyString => EmptyString
  | String a s' =>
      if Ascii.eqb a c then removeChar c s' else String a (removeChar c s')
  end.

(** [s.replace(/pat/gi, "")] for a literal pattern [pat], given in lower
    case: [skip] counts the characters of a match still to be dropped. *)
Fixpoint removeAllCI (pat : string) (skip : nat) (s : string) : string :=
  match s with
  | EmptyString => EmptyString
  | String a s' =>
      match skip with
      | S k => removeAllCI pat k s'
      | O =>
          if truthy pat && startsWith (toLowerCase s) pat
          then removeAllCI pat (len pat - 1) s'
          else String a (removeAllCI pat 0 s')
      end
  end.

(** The double quote character, and a quoted word as it appears inside a
    CSS selector. *)
Definition DQ : string := String (ascii_of_nat 34) EmptyString.
Definition quoted (w : string) : string := DQ +:+ w +:+ DQ.

(** The line feed character. *)
Definition LF : ascii := ascii_of_nat 10.

(** [s.split("\n")[0]] *)
Definition firstLine (s : string) : string :=
  match splitChar LF s with
  | l :: _ => l
  | [] => EmptyString
  end.

(** [a || b] on strings that may be [null]/[undefined]. *)
Definition orStr (a : option string) (b : string) : string :=
  match a with
  | Some x => if truthy x then x else b
  | None => b
  end.

(** Decimal rendering of a number in a template literal. *)
Definition natToString (n : nat) : string :=
  NilZero.string_of_uint (Nat.to_uint n).

End JsString.

(** ** URL objects and [normalizeUrl] *)

Module Url.
Import JsString.

(** The properties of a WHATWG [URL] object the sources read or assign.
    [searchParams] is the decoded list of name/value pairs, in order. *)
Record URL := mkURL {
  protocol : string;
  host : string;
  hostname : string;
  pathname : string;
  searchParams : list (string * string);
  hash : string
}.

(** The platform's URL implementation, which is not part of the
    repository: [parseURL s] is [new URL(s)] ([None] when the constructor
    throws) and [href u] is [u.toString()]. *)
Class UrlApi := {
  parseURL : string -> option URL;
  href : URL -> string
}.

(** normalizeUrl.ts, lines 2-15 *)
Definition TRACKING_PARAMS : list string :=
  [ "utm_source"; "utm_medium"; "utm_campaign"; "utm_term"; "utm_content";
    "ref"; "referer"; "source"; "fbclid"; "gclid"; "mc_cid"; "mc_eid" ].

(** [params.delete(name)]: drops every pair called [name]. *)
Fixpoint deleteParam (name : string) (ps : list (string * string))
  : list (string * string) :=
  match ps with
  | [] => []
  | (k, v) :: rest =>
      if String.eqb k name then deleteParam name rest
      else (k, v) :: deleteParam name rest
  end.

(** [params.get(name)]: the value of the first pair called [name]. *)
Fixpoint getParam (name : string) (ps : list (string * string))
  : option string :=
  match ps with
  | [] => None
  | (k, v) :: rest => if String.eqb k name then Some v else getParam name rest
  end.

Definition setProtocol (p : string) (u : URL) : URL :=
  mkURL p (host u) (hostname u) (pathname u) (searchParams u) (hash u).
(** Assigning [host] a lower-cased copy of itself lower-cases the host name
    too (the port, if any, has no letters). *)
Definition lowerHost (u : URL) : URL :=
  mkURL (protocol u) (toLowerCase (host u)) (toLowerCase (hostname u))
        (pathname u) (searchParams u) (hash u).
Definition setSearchParams (ps : list (string * string)) (u : URL) : URL :=
  mkURL (protocol u) (host u) (hostname u) (pathname u) ps (hash u).
Definition setPathname (p : string) (u : URL) : URL :=
  mkURL (protocol u) (host u) (hostname u) p (searchParams u) (hash u).
Definition setHash (h : string) (u : URL) : URL :=
  mkURL (protocol u) (host u) (hostname u) (pathname u) (searchParams u) h.

(** The body of [normalizeUrl] between [new URL(url)] and [toString()]
    (normalizeUrl.ts, lines 21-36). *)
Definition normalizeParsed (parsed : URL) : URL :=
  let parsed := setProtocol (toLowerCase (protocol parsed)) parsed in
  let parsed := lowerHost parsed in
  let parsed :=
    fold_left (fun u param => setSearchParams (deleteParam param (searchParams u)) u)
              TRACKING_PARAMS parsed in
  let parsed :=
    if (1 <? len (pathname parsed))%nat && endsWithChar (pathname parsed) "/"
    then setPathname (dropLast (pathname parsed)) parsed
    else parsed in
  setHash "" parsed.

(** A parameter name is a tracking parameter when [TRACKING_PARAMS] lists
    it. *)
Definition isTracking (name : string) : bool :=
  existsb (String.eqb name) TRACKING_PARAMS.

(** What lines 31-33 do to a path: one trailing slash goes, unless the
    path is just ["/"]. *)
Definition trimTrailingSlash (p : string) : string :=
  if (1 <? len p)%nat && endsWithChar p "/" then dropLast p else p.


Section WithPlatform.
Context `{UrlApi}.

(** normalizeUrl.ts, lines 17-43: an unparseable input is returned as
    it is. *)
Definition normalizeUrl (url : string) : string :=
  match parseURL url with
  | Some parsed => href (normalizeParsed parsed)
  | None => url
  end.
End WithPlatform.

(** *** A small concrete URL implementation

    A reference instance of [UrlApi] for URLs of the shape
    [scheme://host/path?query#fragment] without percent-encoding, on which
    the functions above can be run. *)

(** Cut at the first occurrence of [c]: [(before, Some after)]. *)
Fixpoint cutAt (c : ascii) (s : string) : string * option string :=
  match s with
  | EmptyString => (EmptyString, None)
  | String a s' =>
      if Ascii.eqb a c then (EmptyString, Some s')
      else let '(l, r) := cutAt c s' in (String a l, r)
  end.

(** Cut at the first occurrence of ["://"]. *)
Fixpoint cutScheme (s : string) : option (string * string) :=
  match s with
  | EmptyString => None
  | String a s' =>
      if startsWith s "://" then
        match s with
        | String _ (String _ (String _ rest)) => Some (EmptyString, rest)
        | _ => None
        end
      else match cutScheme s' with
           | Some (l, r) => Some (String a l, r)
           | None => None
           end
  end.

Definition parsePair (kv : string) : string * string :=
  match cutAt "=" kv with
  | (k, Some v) => (k, v)
  | (k, None) => (k, EmptyString)
  end.

Definition parseQuery (q : string) : list (string * string) :=
  map parsePair (List.filter (fun kv => truthy kv) (splitChar "&" q)).

Definition simpleParse (s : string) : option URL :=
  match cutScheme s with
  | None => None
  | Some (scheme, rest) =>
      let '(beforeHash, frag) := cutAt "#" rest in
      let '(beforeQuery, query) := cutAt "?" beforeHash in
      let '(authority, path) := cutAt "/" beforeQuery in
      if truthy scheme && truthy authority then
        Some {| protocol := toLowerCase scheme +:+ ":";
                host := toLowerCase authority;
                hostname := toLowerCase (fst (cutAt ":" authority));
                pathname := match path with
                            | Some p => String "/" p
                            | None => "/"
                            end;
                searchParams := match query with
                                | Some q => parseQuery q
                                | None => []
                                end;
                hash := match frag with
                        | Some f => if truthy f then String "#" f else ""
                        | None => ""
                        end |}
      else None
  end.

Definition simpleHref (u : URL) : string :=
  protocol u +:+ "//" +:+ host u +:+ pathname u +:+
  match searchParams u with
  | [] => ""
  | ps => String "?" (join "&" (map (fun kv => fst kv +:+ "=" +:+ snd kv) ps))
  end +:+ hash u.

Definition simpleUrlApi : UrlApi :=
  {| parseURL := simpleParse; href := simpleHref |}.

End Url.

(** ** The per-domain rate limiter (rateLimiter.ts) *)

Module RateLimiter.
Import JsString Url.

Record RateLimitEntry := mkEntry {
  domain : string;
  lastRequestAt : Z;
  requestCount : Z
}.

(** The fields of a [RateLimiter] instance. *)
Record t := mkLimiter {
  entries : gmap string RateLimitEntry;
  defaultDelayMs : Z;
  domainLimits : gmap string Z
}.

(** rateLimiter.ts, lines 19-25 *)
Definition initialDomainLimits : gmap string Z :=
  <["greenhouse.io" := 5000%Z]>
    (<["lever.co" := 5000%Z]>
      (<["workday.com" := 10000%Z]>
        (<["icims.com" := 8000%Z]>
          (<["smartrecruiters.com" := 6000%Z]> ∅)))).

(** [new RateLimiter()]; [rateLimitDelayMs] comes from the worker
    configuration. *)
Definition create (rateLimitDelayMs : Z) : t :=
  mkLimiter ∅ rateLimitDelayMs initialDomainLimits.

(** [a || b] on numbers: [0] is falsy. *)
Definition orNum (a : option Z) (b : Z) : Z :=
  match a with
  | Some x => if (x =? 0)%Z then b else x
  | None => b
  end.

(** rateLimiter.ts, lines 47-49 *)
Definition getLimitForDomain (rl : t) (d : string) : Z :=
  orNum (domainLimits rl !! d) (defaultDelayMs rl).

(** [setTimeout]-based [sleep(ms)] started at time [clock]: the caller is
    resumed [ms] milliseconds later, plus a scheduling lag [lag >= 0]
    chosen by the event loop. *)
Definition sleep (lag : N) (ms : Z) (clock : Z) : Z :=
  (clock + Z.max 0 ms + Z.of_N lag)%Z.

(** rateLimiter.ts, lines 95-97 *)
Definition setDomainLimit (d : string) (delayMs : Z) (rl : t) : t :=
  mkLimiter (entries rl) (defaultDelayMs rl) (<[d := delayMs]> (domainLimits rl)).

(** rateLimiter.ts, lines 100-102 *)
Definition clear (rl : t) : t :=
  mkLimiter ∅ (defaultDelayMs rl) (domainLimits rl).

Section WithPlatform.
Context `{UrlApi}.

(** rateLimiter.ts, lines 32-44 *)
Definition getDomain (url : string) : string :=
  match parseURL url with
  | Some parsed =>
      let parts := splitChar "." (hostname parsed) in
      if (2 <=? length parts)%nat then join "." (lastTwo parts)
      else hostname parsed
  | None => "unknown"
  end.

(** rateLimiter.ts, lines 52-74.  [clock] is the value of [Date.now()]
    when the call starts; the result carries the limiter after the call
    and the clock when it returns. *)
Definition waitForSlot (lag : N) (url : string) (rl : t) (clock : Z) : t * Z :=
  let d := getDomain url in
  let limit := getLimitForDomain rl d in
  let now := clock in
  let entry := entries rl !! d in
  let clock' :=
    match entry with
    | Some e =>
        let elapsed := (now - lastRequestAt e)%Z in
        if (elapsed <? limit)%Z then
          let waitTime := (limit - elapsed)%Z in
          sleep lag waitTime clock
        else clock
    | None => clock
    end in
  let count := orNum (requestCount <$> entry) 0 in
  (mkLimiter (<[d := mkEntry d clock' (count + 1)]> (entries rl))
             (defaultDelayMs rl) (domainLimits rl),
   clock').

(** rateLimiter.ts, lines 77-92; [clock] is [Date.now()]. *)
Definition getStatus (url : string) (rl : t) (clock : Z) : bool * Z :=
  let d := getDomain url in
  let limit := getLimitForDomain rl d in
  match entries rl !! d with
  | None => (true, 0%Z)
  | Some e =>
      let elapsed := (clock - lastRequestAt e)%Z in
      if (limit <=? elapsed)%Z then (true, 0%Z)
      else (false, (limit - elapsed)%Z)
  end.
End WithPlatform.

End RateLimiter.

(** ** Error classification and retries (runner/errorHandler.ts) *)

Module ErrorHandler.
Import JsString.

(** A thrown JavaScript value: a Playwright [TimeoutError], another
    [Error], or a value that is not an [Error] (given by [String(v)]). *)
Inductive Thrown :=
| TimeoutError (msg : string)
| Error (msg : string)
| NonError (shown : string).

(** The result of a call that may throw. *)
Inductive Outcome (A : Type) :=
| Returned (a : A)
| Threw (e : Thrown).
Arguments Returned {A} a.
Arguments Threw {A} e.

Inductive ErrorCategory :=
| NETWORK | TIMEOUT | ELEMENT_NOT_FOUND | VALIDATION | CAPTCHA
| RATE_LIMITED | ALREADY_APPLIED | SESSION_EXPIRED | UNKNOWN.

Record ClassifiedError := mkClassified {
  category : ErrorCategory;
  code : string;
  message : string;
  retryable : bool;
  maxRetries : nat;
  originalError : option Thrown
}.

(** errorHandler.ts, lines 33-111 *)
Definition classifyError (error : Thrown) : ClassifiedError :=
  match error with
  | TimeoutError _ =>
      mkClassified TIMEOUT "TIMEOUT" "Operation timed out" true 2 (Some error)
  | Error m =>
      let msg := toLowerCase m in
      if includes msg "net::" || includes msg "network" ||
         includes msg "connection refused" || includes msg "econnrefused"
      then mkClassified NETWORK "NETWORK_ERROR" "Network connection failed"
                        true 3 (Some error)
      else if includes msg "waiting for selector" ||
              includes msg "element not found" ||
              includes msg "no element matching"
      then mkClassified ELEMENT_NOT_FOUND "ELEMENT_NOT_FOUND"
                        "Required page element not found" true 1 (Some error)
      else if includes msg "session" || includes msg "login" ||
              includes msg "unauthorized"
      then mkClassified SESSION_EXPIRED "SESSION_EXPIRED"
                        "Session expired or authentication required"
                        false 0 (Some error)
      else mkClassified UNKNOWN "UNKNOWN_ERROR" m false 0 (Some error)
  | NonError _ =>
      mkClassified UNKNOWN "UNKNOWN_ERROR" "An unknown error occurred"
                   false 0 None
  end.

(** errorHandler.ts, lines 201-213 *)
Record RetryConfig := mkRetryConfig {
  maxAttempts : nat;
  baseDelayMs : Z;
  maxDelayMs : Z;
  backoffMultiplier : Z
}.

Definition DEFAULT_RETRY_CONFIG : RetryConfig :=
  mkRetryConfig 3 1000 10000 2.

(** [Partial<RetryConfig>] *)
Record PartialRetryConfig := mkPartial {
  maxAttempts' : option nat;
  baseDelayMs' : option Z;
  maxDelayMs' : option Z;
  backoffMultiplier' : option Z
}.

(** [{ ...DEFAULT_RETRY_CONFIG, ...config }] *)
Definition mergeConfig (config : PartialRetryConfig) : RetryConfig :=
  mkRetryConfig
    (default (maxAttempts DEFAULT_RETRY_CONFIG) (maxAttempts' config))
    (default (baseDelayMs DEFAULT_RETRY_CONFIG) (baseDelayMs' config))
    (default (maxDelayMs DEFAULT_RETRY_CONFIG) (maxDelayMs' config))
    (default (backoffMultiplier DEFAULT_RETRY_CONFIG) (backoffMultiplier' config)).

(** [error instanceof Error ? error : new Error(String(error))] *)
Definition toError (e : Thrown) : Thrown :=
  match e with
  | NonError shown => Error shown
  | _ => e
  end.

(** The delay slept after failed attempt [attempt] (lines 246-249). *)
Definition backoffDelay (cfg : RetryConfig) (attempt : nat) : Z :=
  Z.min (baseDelayMs cfg * backoffMultiplier cfg ^ Z.of_nat (attempt - 1))%Z
        (maxDelayMs cfg).

Section WithRetry.
(** [W] is the state of the world the operation acts on, [T] its result
    type. *)
Context {W T : Type}.
Variable operation : W -> Outcome T * W.

(** What a call of [withRetry] did: its outcome, the world it leaves,
    the delays it slept (oldest first) and how often it called the
    operation. *)
Record RetryRun := mkRun {
  outcome : Outcome T;
  world : W;
  sleeps : list Z;
  invocations : nat
}.

(** The [for] loop of lines 227-257 with [remaining] iterations left,
    about to run attempt number [attempt], followed by line 259. *)
Fixpoint retryLoop (cfg : RetryConfig) (remaining attempt : nat)
         (lastError : option Thrown) (w : W) (slept : list Z) (calls : nat)
  : RetryRun :=
  match remaining with
  | O =>
      mkRun (Threw (default (Error "All retry attempts failed") lastError))
            w slept calls
  | S remaining' =>
      match operation w with
      | (Returned v, w') => mkRun (Returned v) w' slept (S calls)
      | (Threw error, w') =>
          let lastError := toError error in
          let classified := classifyError error in
          if negb (retryable classified) then
            mkRun (Threw lastError) w' slept (S calls)
          else if (maxRetries classified <? attempt)%nat then
            mkRun (Threw lastError) w' slept (S calls)
          else
            let delay := backoffDelay cfg attempt in
            retryLoop cfg remaining' (S attempt) (Some lastError) w'
                      (slept ++ [delay]) (S calls)
      end
  end.

(** errorHandler.ts, lines 216-260 *)
Definition withRetry (config : PartialRetryConfig) (w : W) : RetryRun :=
  let cfg := mergeConfig config in
  retryLoop cfg (maxAttempts cfg) 1 None w [] 0.
End WithRetry.

(** An operation scripted by the list of its successive outcomes; the
    world is the script still to play (a spent script keeps failing). *)
Definition scripted {T} (w : list (Outcome T)) : Outcome T * list (Outcome T) :=
  match w with
  | [] => (Threw (Error "script exhausted"), [])
  | o :: rest => (o, rest)
  end.

End ErrorHandler.

(** ** The site adapters (runner/adapters/greenhouse.ts, lever.ts) *)

Module Adapters.
Import JsString Url ErrorHandler.

(** adapters/base.ts *)
Inductive Status :=
| succeeded | failed | blocked | dry_run_complete | needs_input.

Inductive FieldType :=
| select | text | textarea | radio | checkbox.

Record RequiredInput := mkRequiredInput {
  fieldName : string;
  fieldType : FieldType;
  options : option (list string);
  required : bool
}.

Record ProfileData := mkProfile {
  full_name : option string;
  email : option string;
  phone : option string;
  location_city : option string;
  location_state : option string;
  linkedin_url : option string;
  github_url : option string;
  work_authorization : option string
}.

Record ApplyResult := mkResult {
  status : Status;
  fieldsFilledCount : nat;
  fieldsFailed : list string;
  screenshots : list string;
  errorCode : option string;
  errorMessage : option string;
  confirmationMessage : option string;
  requiredInputs : option (list RequiredInput)
}.

(** *** The page as the adapter observes it

    An element handle is [Some] record of what its accessors return, or
    [None] when the handle is stale and every call on it throws.  A
    [page.$$] query is [Some] list of handles, or [None] when it throws. *)

Record OptionEl := mkOption {
  optionText : option string;      (* textContent() *)
  optionValue : option string      (* getAttribute('value') *)
}.

Record SelectEl := mkSelect {
  selectValue : string;            (* el.value *)
  selectedText : string;           (* el.options[el.selectedIndex]?.text || '' *)
  selectRequired : bool;           (* el.required *)
  selectContainerText : option string;  (* container?.textContent() *)
  selectOptions : list OptionEl    (* select.$$('option') *)
}.

Record DropdownEl := mkDropdown {
  dropdownText : option string;
  dropdownContainerText : option string;
  dropdownOptionTexts : list (option string)  (* options listed once opened *)
}.

Record InputEl := mkInputEl {
  inputValue : string;
  inputRequired : bool;
  inputContainerText : option string;
  inputTagName : string            (* el.tagName.toLowerCase() *)
}.

(** A handle on which the adapter only calls [click()]. *)
Record ElementHandle := mkHandle {
  click : Outcome unit
}.

Record Page := mkPage {
  (* the form-filling steps, by what they return to [apply] *)
  navigateToForm : Outcome bool;
  fillFormFields : Outcome nat;
  fillFailed : list string;        (* labels pushed onto fieldsFailed *)
  uploadResume : bool;
  handleCustomQuestions : Outcome nat;   (* Lever only *)
  takeScreenshot : string -> option string;
  (* the form once the filling steps are over *)
  selects : option (list (option SelectEl));
  customDropdowns : option (list (option DropdownEl));
  textInputs : option (list (option InputEl));
  querySelector : string -> Outcome (option ElementHandle);   (* page.$(selector) *)
  (* the page after the submit click *)
  bodyText : option string;
  errorElements : list (option string);
  currentUrl : string
}.

(** What [apply] did to the page, in order. *)
Inductive Step :=
| Navigate | Fill | Upload | CoverLetter | CustomQuestions
| ScanRequired | ClickSubmit | ReadOutcome.

(** [if (shot) screenshots.push(shot)] *)
Definition pushShot (screenshots : list string) (shot : option string) : list string :=
  match shot with
  | Some p => if truthy p then screenshots ++ [p] else screenshots
  | None => screenshots
  end.

(** [error instanceof Error ? error.message : 'Unknown error'] *)
Definition errorText (e : Thrown) : string :=
  match e with
  | TimeoutError m | Error m => m
  | NonError _ => "Unknown error"
  end.

(** The [catch] block of [apply]. *)
Definition adapterError (page : Page) (fieldsFilledCount : nat)
           (fieldsFailed screenshots : list string) (e : Thrown) : ApplyResult :=
  let screenshots := pushShot screenshots (takeScreenshot page "error") in
  mkResult failed fieldsFilledCount fieldsFailed screenshots
           (Some "ADAPTER_ERROR") (Some (errorText e)) None None.

Definition formNotFound (screenshots : list string) : ApplyResult :=
  mkResult failed 0 [] screenshots (Some "FORM_NOT_FOUND")
           (Some "Could not find or navigate to application form") None None.

Definition dryRunComplete (n : nat) (fieldsFailed screenshots : list string) : ApplyResult :=
  mkResult dry_run_complete n fieldsFailed screenshots None None
           (Some "Dry run completed - form filled but not submitted") None.

Definition submitFailed (n : nat) (fieldsFailed screenshots : list string) : ApplyResult :=
  mkResult failed n fieldsFailed screenshots (Some "SUBMIT_FAILED")
           (Some "Could not find or click submit button") None None.

(** [findElement]: the first selector that matches; a selector on which
    [page.$] throws is skipped. *)
Fixpoint findElement (page : Page) (selectors : list string) : option ElementHandle :=
  match selectors with
  | [] => None
  | selector :: rest =>
      match querySelector page selector with
      | Returned (Some element) => Some element
      | Returned None => findElement page rest
      | Threw _ => findElement page rest
      end
  end.

(** The body of [submitForm], the same in both adapters up to the selector
    list: the first matching submit control is clicked; a throwing click is
    caught and reported as [false]. *)
Definition submitWith (selectors : list string) (page : Page) : bool * list Step :=
  match findElement page selectors with
  | Some submitButton =>
      match click submitButton with
      | Returned _ => (true, [ClickSubmit])
      | Threw _ => (false, [ClickSubmit])
      end
  | None => (false, [])
  end.

(** [for (const indicator of indicators) if (pageText.includes(indicator)) return ...] *)
Fixpoint anyIndicator (pageText : string) (indicators : list string) : bool :=
  match indicators with
  | [] => false
  | indicator :: rest =>
      if includes pageText indicator then true else anyIndicator pageText rest
  end.

(** The loop over [errorElements.slice(0, 3)]. *)
Fixpoint collectErrorTexts (els : list (option string)) : list string :=
  match els with
  | [] => []
  | el :: rest =>
      match el with
      | Some t => if truthy (trim t) then trim t :: collectErrorTexts rest
                  else collectErrorTexts rest
      | None => collectErrorTexts rest
      end
  end.

Definition succeededWith (n : nat) (ff ss : list string) (msg : string) : ApplyResult :=
  mkResult succeeded n ff ss None None (Some msg) None.
Definition alreadyApplied (n : nat) (ff ss : list string) : ApplyResult :=
  mkResult blocked n ff ss (Some "ALREADY_APPLIED")
           (Some "You have already applied to this position") None None.
Definition validationError (n : nat) (ff ss errorTexts : list string) : ApplyResult :=
  mkResult failed n ff ss (Some "VALIDATION_ERROR")
           (Some ("Form validation failed: " +:+ join "; " errorTexts)) None None.
Definition captchaDetected (n : nat) (ff ss : list string) : ApplyResult :=
  mkResult blocked n ff ss (Some "CAPTCHA_DETECTED")
           (Some "CAPTCHA or human verification required") None None.

(** **** GreenhouseAdapter *)
Module Greenhouse.

Definition name : string := "Greenhouse".

(** greenhouse.ts, lines 22-27: [SELECTORS.submit] *)
Definition SELECTORS_submit : list string :=
  [ "#submit_app";
    "button[type=" +:+ quoted "submit" +:+ "]:has-text(" +:+ quoted "Submit" +:+ ")";
    "input[type=" +:+ quoted "submit" +:+ "][value*=" +:+ quoted "Submit" +:+ "]";
    "button:has-text(" +:+ quoted "Submit Application" +:+ ")" ].

(** greenhouse.ts, lines 839-853 *)
Definition submitForm (page : Page) : bool * list Step :=
  submitWith SELECTORS_submit page.

Definition successIndicators : list string :=
  [ "thank you for applying"; "application received";
    "successfully submitted"; "application submitted";
    "thanks for applying"; "we received your application";
    "you have applied"; "your application has been submitted" ].

Definition alreadyAppliedIndicators : list string :=
  [ "already applied"; "duplicate application"; "previously applied" ].

(** greenhouse.ts, lines 856-945 *)
Definition detectOutcome (page : Page) (fieldsFilledCount : nat)
           (fieldsFailed screenshots : list string) : ApplyResult :=
  let pageText := toLowerCase (orStr (bodyText page) "") in
  if anyIndicator pageText successIndicators then
    succeededWith fieldsFilledCount fieldsFailed screenshots
                  "Application submitted successfully"
  else if anyIndicator pageText alreadyAppliedIndicators then
    alreadyApplied fieldsFilledCount fieldsFailed screenshots
  else
    let errorTexts :=
      if (0 <? length (errorElements page))%nat
      then collectErrorTexts (sliceTo 3 (errorElements page)) else [] in
    if (0 <? length errorTexts)%nat then
      validationError fieldsFilledCount fieldsFailed screenshots errorTexts
    else if includes pageText "captcha" || includes pageText "verify you are human" then
      captchaDetected fieldsFilledCount fieldsFailed screenshots
    else
      succeededWith fieldsFilledCount fieldsFailed screenshots "Application submitted".

(** The label of a field, from the text of its container
    ([labelText.replace(/\*/g, '').trim().split('\n')[0].trim()]). *)
Definition fieldNameOf (labelText : string) : string :=
  trim (firstLine (trim (removeChar "*" labelText))).

(** Lines 736-746: the option texts offered to the user. *)
Fixpoint selectOptionTexts (opts : list OptionEl) : list string :=
  match opts with
  | [] => []
  | o :: rest =>
      let optText := trim (orStr (optionText o) "") in
      if truthy (orStr (optionValue o) "") && truthy optText &&
         negb (includes (toLowerCase optText) "select") &&
         negb (String.eqb optText "--")
      then optText :: selectOptionTexts rest
      else selectOptionTexts rest
  end.

(** Lines 717-759: one iteration per [select] element. *)
Definition scanSelect (el : option SelectEl) : list RequiredInput :=
  match el with
  | None => []
  | Some sel =>
      if String.eqb (selectValue sel) "" ||
         includes (toLowerCase (selectedText sel)) "select"
      then
        let isRequired := selectRequired sel in
        let labelText := orStr (selectContainerText sel) "" in
        let hasAsterisk := includes labelText "*" in
        if isRequired || hasAsterisk then
          [ mkRequiredInput (fieldNameOf labelText) select
                            (Some (selectOptionTexts (selectOptions sel))) true ]
        else []
      else []
  end.

(** Lines 779-786 *)
Fixpoint dropdownOptions (opts : list (option string)) : list string :=
  match opts with
  | [] => []
  | o :: rest =>
      let optText := trim (orStr o "") in
      if truthy optText then optText :: dropdownOptions rest
      else dropdownOptions rest
  end.

(** Lines 763-803: one iteration per custom dropdown. *)
Definition scanDropdown (el : option DropdownEl) : list RequiredInput :=
  match el with
  | None => []
  | Some dd =>
      match dropdownText dd with
      | Some t =>
          if truthy t && includes (toLowerCase t) "select" then
            let labelText := orStr (dropdownContainerText dd) "" in
            let isRequired := includes labelText "*" in
            if isRequired then
              let fieldName :=
                trim (firstLine (trim (removeAllCI "select..." 0
                                         (removeChar "*" labelText)))) in
              [ mkRequiredInput fieldName select
                                (Some (dropdownOptions (dropdownOptionTexts dd))) true ]
            else []
          else []
      | None => []
      end
  end.

(** Lines 807-830: one iteration per text input or textarea. *)
Definition scanInput (el : option InputEl) : list RequiredInput :=
  match el with
  | None => []
  | Some inp =>
      if negb (truthy (inputValue inp)) then
        let isRequired := inputRequired inp in
        let labelText := orStr (inputContainerText inp) "" in
        let hasAsterisk := includes labelText "*" in
        if isRequired || hasAsterisk then
          [ mkRequiredInput (fieldNameOf labelText)
                            (if String.eqb (inputTagName inp) "textarea"
                             then textarea else text)
                            None true ]
        else []
      else []
  end.

(** greenhouse.ts, lines 711-836.  A throwing query ends the scan with
    what was found so far (the outer [catch]). *)
Definition detectUnfilledRequiredFields (page : Page) : list RequiredInput :=
  match selects page with
  | None => []
  | Some sels =>
      let unfilled := flat_map scanSelect sels in
      match customDropdowns page with
      | None => unfilled
      | Some dds =>
          let unfilled := unfilled ++ flat_map scanDropdown dds in
          match textInputs page with
          | None => unfilled
          | Some inps => unfilled ++ flat_map scanInput inps
          end
      end
  end.

Definition needsInput (n : nat) (ff ss : list string)
           (unfilledFields : list RequiredInput) : ApplyResult :=
  mkResult needs_input n ff ss None
           (Some ("Application requires answers to " +:+
                  natToString (length unfilledFields) +:+ " custom question(s)"))
           None (Some unfilledFields).

(** greenhouse.ts, lines 93-200 *)
Definition apply (dryRun : bool) (page : Page) : ApplyResult * list Step :=
  match navigateToForm page with
  | Threw e => (adapterError page 0 [] [] e, [Navigate])
  | Returned false => (formNotFound [], [Navigate])
  | Returned true =>
      let screenshots := pushShot [] (takeScreenshot page "form-loaded") in
      let fieldsFailed := fillFailed page in
      match fillFormFields page with
      | Threw e =>
          (adapterError page 0 fieldsFailed screenshots e, [Navigate; Fill])
      | Returned filled =>
          let fieldsFilledCount :=
            if uploadResume page then S filled else filled in
          let screenshots :=
            pushShot screenshots (takeScreenshot page "pre-submit") in
          let done := [Navigate; Fill; Upload; CoverLetter] in
          if dryRun then
            (dryRunComplete fieldsFilledCount fieldsFailed screenshots, done)
          else
            let unfilledFields := detectUnfilledRequiredFields page in
            if (0 <? length unfilledFields)%nat then
              (needsInput fieldsFilledCount fieldsFailed screenshots unfilledFields,
               done ++ [ScanRequired])
            else
              let '(submitted, clicks) := submitForm page in
              if negb submitted then
                (submitFailed fieldsFilledCount fieldsFailed screenshots,
                 done ++ [ScanRequired] ++ clicks)
              else
                let screenshots :=
                  pushShot screenshots (takeScreenshot page "post-submit") in
                (detectOutcome page fieldsFilledCount fieldsFailed screenshots,
                 done ++ [ScanRequired] ++ clicks ++ [ReadOutcome])
      end
  end.

Section WithPlatform.
Context `{UrlApi}.
(** greenhouse.ts, lines 80-91 *)
Definition supports (url : string) : bool :=
  match parseURL url with
  | Some parsed =>
      includes (host parsed) "greenhouse.io" ||
      includes (host parsed) "boards.eu.greenhouse.io"
  | None => false
  end.
End WithPlatform.
End Greenhouse.

(** **** LeverAdapter *)
Module Lever.

Definition name : string := "Lever".

(** lever.ts: [SELECTORS.submit] *)
Definition SELECTORS_submit : list string :=
  [ "button[type=" +:+ quoted "submit" +:+ "]";
    "button.postings-btn";
    "button:has-text(" +:+ quoted "Submit application" +:+ ")";
    "button:has-text(" +:+ quoted "Submit" +:+ ")";
    "input[type=" +:+ quoted "submit" +:+ "]" ].

(** lever.ts, [submitForm] *)
Definition submitForm (page : Page) : bool * list Step :=
  submitWith SELECTORS_submit page.

Definition successIndicators : list string :=
  [ "thank you for applying"; "application received";
    "successfully submitted"; "application submitted";
    "thanks for applying"; "your application has been received";
    "we got your application" ].

Definition alreadyAppliedIndicators : list string :=
  [ "already applied"; "duplicate application"; "you have applied" ].

(** lever.ts, [detectOutcome] *)
Definition detectOutcome (page : Page) (fieldsFilledCount : nat)
           (fieldsFailed screenshots : list string) : ApplyResult :=
  let pageText := toLowerCase (orStr (bodyText page) "") in
  if anyIndicator pageText successIndicators then
    succeededWith fieldsFilledCount fieldsFailed screenshots
                  "Application submitted successfully"
  else if anyIndicator pageText alreadyAppliedIndicators then
    alreadyApplied fieldsFilledCount fieldsFailed screenshots
  else
    let errorTexts :=
      if (0 <? length (errorElements page))%nat
      then collectErrorTexts (sliceTo 3 (errorElements page)) else [] in
    if (0 <? length errorTexts)%nat then
      validationError fieldsFilledCount fieldsFailed screenshots errorTexts
    else if includes pageText "captcha" || includes pageText "verify you are human" ||
            includes pageText "recaptcha" then
      captchaDetected fieldsFilledCount fieldsFailed screenshots
    else
      let currentUrl := currentUrl page in
      if includes currentUrl "/thanks" || includes currentUrl "/confirmation" ||
         includes currentUrl "/applied" then
        succeededWith fieldsFilledCount fieldsFailed screenshots
                      "Application submitted (redirected to confirmation)"
      else
        succeededWith fieldsFilledCount fieldsFailed screenshots "Application submitted".

(** lever.ts, [apply] *)
Definition apply (dryRun : bool) (page : Page) : ApplyResult * list Step :=
  match navigateToForm page with
  | Threw e => (adapterError page 0 [] [] e, [Navigate])
  | Returned false => (formNotFound [], [Navigate])
  | Returned true =>
      let screenshots := pushShot [] (takeScreenshot page "form-loaded") in
      let fieldsFailed := fillFailed page in
      match fillFormFields page with
      | Threw e =>
          (adapterError page 0 fieldsFailed screenshots e, [Navigate; Fill])
      | Returned filled =>
          let fieldsFilledCount :=
            if uploadResume page then S filled else filled in
          match handleCustomQuestions page with
          | Threw e =>
              (adapterError page fieldsFilledCount fieldsFailed screenshots e,
               [Navigate; Fill; Upload; CoverLetter; CustomQuestions])
          | Returned answered =>
              let fieldsFilledCount := fieldsFilledCount + answered in
              let screenshots :=
                pushShot screenshots (takeScreenshot page "pre-submit") in
              let done := [Navigate; Fill; Upload; CoverLetter; CustomQuestions] in
              if dryRun then
                (dryRunComplete fieldsFilledCount fieldsFailed screenshots, done)
              else
                let '(submitted, clicks) := submitForm page in
                if negb submitted then
                  (submitFailed fieldsFilledCount fieldsFailed screenshots,
                   done ++ clicks)
                else
                  let screenshots :=
                    pushShot screenshots (takeScreenshot page "post-submit") in
                  (detectOutcome page fieldsFilledCount fieldsFailed screenshots,
                   done ++ clicks ++ [ReadOutcome])
          end
      end
  end.

Section WithPlatform.
Context `{UrlApi}.
(** lever.ts, [supports] *)
Definition supports (url : string) : bool :=
  match parseURL url with
  | Some parsed =>
      includes (host parsed) "lever.co" ||
      includes (host parsed) "jobs.lever.co"
  | None => false
  end.
End WithPlatform.
End Lever.

(** The [ATSAdapter] interface and its two implementations. *)
Inductive ATSAdapter := GreenhouseAdapter | LeverAdapter.

Definition adapterName (a : ATSAdapter) : string :=
  match a with
  | GreenhouseAdapter => Greenhouse.name
  | LeverAdapter => Lever.name
  end.

Definition adapterApply (a : ATSAdapter) (dryRun : bool) (page : Page)
  : ApplyResult * list Step :=
  match a with
  | GreenhouseAdapter => Greenhouse.apply dryRun page
  | LeverAdapter => Lever.apply dryRun page
  end.


Section WithPlatform.
Context `{UrlApi}.
Definition adapterSupports (a : ATSAdapter) (url : string) : bool :=
  match a with
  | GreenhouseAdapter => Greenhouse.supports url
  | LeverAdapter => Lever.supports url
  end.
End WithPlatform.

(** *** Vocabulary for the outcome rules *)




Definition alreadyAppliedPhrases (a : ATSAdapter) : list string :=
  match a with
  | GreenhouseAdapter => Greenhouse.alreadyAppliedIndicators
  | LeverAdapter => Lever.alreadyAppliedIndicators
  end.




(** A select still on its placeholder that the form requires. *)
Definition unresolvedRequiredSelect (sel : SelectEl) : bool :=
  (String.eqb (selectValue sel) "" || includes (toLowerCase (selectedText sel)) "select")
  && (selectRequired sel || includes (orStr (selectContainerText sel) "") "*").

(** *** Example pages *)

(** A form whose only unresolved field is the required select
    "Years of experience", still on its placeholder option. *)
Definition experienceSelect : SelectEl :=
  mkSelect "" "Select..." true (Some "Years of experience *")
           [ mkOption (Some "Select...") (Some "");
             mkOption (Some "0-2 years") (Some "junior");
             mkOption (Some "3-5 years") (Some "mid");
             mkOption (Some "6+ years") (Some "senior") ].

(** A page whose only element reachable by selector is a working submit
    button, [<button id="submit_app" type="submit">]. *)
Definition submitButtonOnly (selector : string) : Outcome (option ElementHandle) :=
  if String.eqb selector "#submit_app" ||
     String.eqb selector ("button[type=" +:+ quoted "submit" +:+ "]")
  then Returned (Some (mkHandle (Returned tt)))
  else Returned None.

Definition pageWithRequiredSelect : Page :=
  mkPage (Returned true) (Returned 5) [] true (Returned 0)
         (fun name => Some ("/tmp/shot-" +:+ name +:+ ".png"))
         (Some [Some experienceSelect]) (Some []) (Some [])
         submitButtonOnly
         (Some "Thank you for applying") [] "https://jobs.lever.co/acme/1/thanks".


End Adapters.

(** ** The orchestrator (runner/applyJob.ts) *)

Module Orchestrator.
Import JsString Url ErrorHandler Adapters.

(** applyJob.ts, lines 26-29: the registry of adapters. *)
Definition adapters : list ATSAdapter := [GreenhouseAdapter; LeverAdapter].

Record ApplyJobInput := mkInput {
  runId : string;
  userId : string;
  jobUrl : string;
  atsType : string;
  resumeStoragePath : string;
  profile : ProfileData;
  dryRun : bool
}.

(** runner/artifacts.ts *)
Inductive ArtifactType := screenshot | html_snapshot | console_log.

Record Artifact := mkArtifact {
  artifactType : ArtifactType;
  localPath : string;
  storagePath : option string
}.

(** Everything outside [applyJob] that it calls or reads. *)
Record Env := mkEnv {
  (* WORKER_CONFIG and the browser set-up *)
  enableArtifacts : bool;
  uploadArtifactsEnabled : bool;
  globalDryRun : bool;
  isUsingBrowserbase : bool;
  (* the collaborators, by what they answer *)
  downloadResume : Outcome string;
  createContext : Outcome unit;
  createPage : Outcome unit;
  goto : Outcome unit;
  detectBlockingCondition : option ClassifiedError;
  captureScreenshot : string -> option string;     (* local path, if taken *)
  fileExists : string -> bool;
  uploadSucceeds : string -> bool;
  debugArtifacts : list Artifact;                  (* createDebugPackage *)
  page : Page;
  closeContext : Outcome unit
}.

(** The calls [applyJob] makes on its collaborators, in order. *)
Inductive Event :=
| RecordRunStart
| RecordRunComplete (s : Status)
| WaitForSlot (url : string)
| CreateArtifactCollector
| MakeTempDir
| DownloadResume
| CreateContext
| CreatePage
| Goto (url : string)
| DetectBlockingCondition
| CaptureScreenshot (name : string)
| UploadArtifacts
| AdapterApply (a : ATSAdapter) (steps : list Step)
| CreateDebugPackage
| CloseContext
| RemoveTempDir
| CleanupArtifacts.

(** The events that create or drive a browser. *)
Definition isBrowserWork (e : Event) : bool :=
  match e with
  | CreateContext | CreatePage | Goto _ | DetectBlockingCondition
  | CaptureScreenshot _ | AdapterApply _ _ | CloseContext => true
  | _ => false
  end.

(** The local variables of [applyJob] that its [catch] and [finally]
    blocks read, and the events so far. *)
Record Locals := mkLocals {
  context : bool;                          (* context !== null *)
  tempResumeDir : bool;                    (* tempResumeDir !== null *)
  artifactCollector : option (list Artifact);
  events : list Event
}.

Definition emit (e : Event) (l : Locals) : Locals :=
  mkLocals (context l) (tempResumeDir l) (artifactCollector l) (events l ++ [e]).
Definition setContext (l : Locals) : Locals :=
  mkLocals true (tempResumeDir l) (artifactCollector l) (events l).
Definition setTempDir (l : Locals) : Locals :=
  mkLocals (context l) true (artifactCollector l) (events l).
Definition setCollector (c : option (list Artifact)) (l : Locals) : Locals :=
  mkLocals (context l) (tempResumeDir l) c (events l).

(** [path.basename] *)
Definition basename (path : string) : string :=
  List.last (splitChar "/" path) path.

(** artifacts.ts, [uploadArtifacts] *)
Definition uploadArtifacts (env : Env) (runId : string) (arts : list Artifact)
  : list Artifact :=
  map (fun a =>
         if fileExists env (localPath a) && uploadSucceeds env (localPath a)
         then mkArtifact (artifactType a) (localPath a)
                         (Some ("runs/" +:+ runId +:+ "/" +:+ basename (localPath a)))
         else a) arts.

(** [a.storagePath || a.localPath] *)
Definition storageOrLocal (a : Artifact) : string :=
  orStr (storagePath a) (localPath a).

Definition hasStoragePath (a : Artifact) : bool :=
  truthy (orStr (storagePath a) "").

Definition isScreenshot (a : Artifact) : bool :=
  match artifactType a with screenshot => true | _ => false end.

Definition unsupportedAts (url : string) : ApplyResult :=
  mkResult failed 0 [] [] (Some "UNSUPPORTED_ATS")
           (Some ("No adapter found for URL: " +:+ url)) None None.

Section WithPlatform.
Context `{UrlApi}.

(** applyJob.ts, lines 51-185: the [try] block. *)
Definition tryBlock (env : Env) (input : ApplyJobInput) (l : Locals)
  : Outcome ApplyResult * Locals :=
  match find (fun a => adapterSupports a (jobUrl input)) adapters with
  | None =>
      (Returned (unsupportedAts (jobUrl input)), emit (RecordRunComplete failed) l)
  | Some adapter =>
      let l := emit (WaitForSlot (jobUrl input)) l in
      let l := if enableArtifacts env
               then emit CreateArtifactCollector (setCollector (Some []) l)
               else l in
      let l := emit DownloadResume (emit MakeTempDir (setTempDir l)) in
      match downloadResume env with
      | Threw e => (Threw e, l)
      | Returned resumePath =>
      let l := emit CreateContext l in
      match createContext env with
      | Threw e => (Threw e, l)
      | Returned _ =>
      let l := emit CreatePage (setContext l) in
      match createPage env with
      | Threw e => (Threw e, l)
      | Returned _ =>
      let l := emit (Goto (jobUrl input)) l in
      match goto env with
      | Threw e => (Threw e, l)
      | Returned _ =>
      let l := emit DetectBlockingCondition l in
      let blockedNow :=
        match detectBlockingCondition env with
        | Some bc =>
            if isUsingBrowserbase env && String.eqb (code bc) "CAPTCHA_DETECTED"
            then None else Some bc
        | None => None
        end in
      let l := match detectBlockingCondition env with
               | Some bc =>
                   if isUsingBrowserbase env && String.eqb (code bc) "CAPTCHA_DETECTED"
                   then emit DetectBlockingCondition l else l
               | None => l
               end in
      match blockedNow with
      | Some bc =>
          let l :=
            match artifactCollector l with
            | Some arts =>
                let l := emit (CaptureScreenshot "blocked") l in
                let arts :=
                  match captureScreenshot env "blocked" with
                  | Some p => arts ++ [mkArtifact screenshot p None]
                  | None => arts
                  end in
                if uploadArtifactsEnabled env
                then emit UploadArtifacts
                          (setCollector (Some (uploadArtifacts env (runId input) arts)) l)
                else setCollector (Some arts) l
            | None => l
            end in
          (Returned (mkResult blocked 0 []
                       (match artifactCollector l with
                        | Some arts => map storageOrLocal arts
                        | None => []
                        end)
                       (Some (code bc)) (Some (message bc)) None None),
           emit (RecordRunComplete blocked) l)
      | None =>
          let effectiveDryRun := dryRun input || globalDryRun env in
          let '(result, steps) := adapterApply adapter effectiveDryRun (page env) in
          let l := emit (AdapterApply adapter steps) l in
          let '(result, l) :=
            match artifactCollector l with
            | Some arts =>
                if uploadArtifactsEnabled env then
                  let arts :=
                    arts ++ map (fun p => mkArtifact screenshot p None)
                                (List.filter (fun p => fileExists env p) (screenshots result)) in
                  let arts := uploadArtifacts env (runId input) arts in
                  (mkResult (status result) (fieldsFilledCount result)
                            (fieldsFailed result)
                            (map storageOrLocal
                                 (List.filter (fun a => isScreenshot a && hasStoragePath a) arts))
                            (errorCode result) (errorMessage result)
                            (confirmationMessage result) (requiredInputs result),
                   emit UploadArtifacts (setCollector (Some arts) l))
                else (result, l)
            | None => (result, l)
            end in
          (Returned result, emit (RecordRunComplete (status result)) l)
      end end end end end
  end.

(** applyJob.ts, lines 186-215: the [catch] block. *)
Definition catchBlock (env : Env) (input : ApplyJobInput) (error : Thrown)
           (l : Locals) : ApplyResult * Locals :=
  let classified := classifyError error in
  let l :=
    match artifactCollector l with
    | Some arts =>
        if context l then
          emit CreateDebugPackage
               (setCollector
                  (Some (uploadArtifacts env (runId input) (arts ++ debugArtifacts env))) l)
        else l
    | None => l
    end in
  (mkResult failed 0 []
            (match artifactCollector l with
             | Some arts => map storageOrLocal (filter hasStoragePath arts)
             | None => []
             end)
            (Some (code classified)) (Some (message classified)) None None,
   emit (RecordRunComplete failed) l).

(** applyJob.ts, lines 216-227: the [finally] block; a throwing
    [context.close()] makes the whole call throw. *)
Definition finallyBlock (env : Env) (l : Locals) : Outcome unit * Locals :=
  let closed :=
    if context l then
      match closeContext env with
      | Threw e => (Threw e, emit CloseContext l)
      | Returned _ => (Returned tt, emit CloseContext l)
      end
    else (Returned tt, l) in
  match closed with
  | (Threw e, l) => (Threw e, l)
  | (Returned _, l) =>
      let l := if tempResumeDir l then emit RemoveTempDir l else l in
      let l := match artifactCollector l with
               | Some _ => emit CleanupArtifacts l
               | None => l
               end in
      (Returned tt, l)
  end.

(** applyJob.ts, lines 41-228: the result (or the exception that
    escapes) and the calls made. *)
Definition applyJob (env : Env) (input : ApplyJobInput)
  : Outcome ApplyResult * list Event :=
  let l := mkLocals false false None [RecordRunStart] in
  let '(res, l) :=
    match tryBlock env input l with
    | (Returned r, l) => (r, l)
    | (Threw e, l) => catchBlock env input e l
    end in
  match finallyBlock env l with
  | (Threw e, l) => (Threw e, events l)
  | (Returned _, l) => (Returned res, events l)
  end.
End WithPlatform.

(** *** Example environment *)
Definition demoEnv : Env :=
  mkEnv true true false false
        (Returned "/tmp/resume-1/cv.pdf") (Returned tt) (Returned tt) (Returned tt)
        None (fun name => Some ("/tmp/artifacts/" +:+ name +:+ ".png"))
        (fun _ => true) (fun _ => true) [] pageWithRequiredSelect (Returned tt).

Definition demoProfile : ProfileData :=
  mkProfile (Some "Ada Lovelace") (Some "ada@example.org") None
            (Some "London") None None None (Some "us_citizen").

Definition demoInput (url : string) : ApplyJobInput :=
  mkInput "run-1" "user-1" url "unknown" "user-1/cv.pdf" demoProfile false.

End Orchestrator.

(** ** The task runner (runner.ts) *)

Module Runner.
Import JsString Url ErrorHandler.

(** The [run_status] and [job_status] enumerations of the schema
    (migrations 001 and 003). *)
Inductive RunStatus :=
| run_queued | run_running | run_succeeded | run_failed | run_retryable
| run_needs_input.

Inductive JobStatus :=
| job_new | job_queued | job_applying | job_applied | job_failed
| job_blocked | job_needs_input.

Inductive EventLevel := info | warn | error.

(** The [result_json] column. *)
Record ResultJson := mkResultJson {
  rjFieldsFilledCount : nat;
  rjFieldsFailed : list string;
  rjConfirmationMessage : option string;
  rjScreenshots : list string;
  rjDryRun : option bool
}.

(** A row of [application_runs]. *)
Record Run := mkRunRow {
  id : string;
  user_id : string;
  job_target_id : string;
  resume_id : string;
  status : RunStatus;
  attempt : Z;
  dry_run : option bool;
  started_at : option Z;
  finished_at : option Z;
  error_code : option string;
  error_message : option string;
  required_inputs : option (list Adapters.RequiredInput);
  result_json : option ResultJson
}.

(** A row of [job_targets]. *)
Record JobTarget := mkJob {
  url : string;
  ats_type : string;
  job_status : JobStatus;
  updated_at : Z
}.

(** A row of [resumes]. *)
Record Resume := mkResume {
  storage_path : string
}.

(** A row of [run_events]. *)
Record RunEvent := mkEvent {
  run_id : string;
  level : EventLevel;
  eventMessage : string;
  data : option (nat * list string)
}.

(** The database, its tables keyed by their primary key ([profiles] by its
    unique [user_id]), and the wall clock read by [new Date()]. *)
Record Db := mkDb {
  application_runs : gmap string Run;
  job_targets : gmap string JobTarget;
  resumes : gmap string Resume;
  profiles : gmap string Adapters.ProfileData;
  run_events : list RunEvent;
  now : Z
}.

Definition setRuns (runs : gmap string Run) (db : Db) : Db :=
  mkDb runs (job_targets db) (resumes db) (profiles db) (run_events db) (now db).
Definition setJobs (jobs : gmap string JobTarget) (db : Db) : Db :=
  mkDb (application_runs db) jobs (resumes db) (profiles db) (run_events db) (now db).

(** [.update(patch).eq('id', runId)]: the row, if there, is patched. *)
Definition updateRun (runId : string) (patch : Run -> Run) (db : Db) : Db :=
  setRuns (alter patch runId (application_runs db)) db.

(** The patches written by the runner; the columns not listed keep their
    value. *)
Definition patchClaimed (ts : Z) (r : Run) : Run :=
  mkRunRow (id r) (user_id r) (job_target_id r) (resume_id r) run_running
           (attempt r) (dry_run r) (Some ts) (finished_at r) (error_code r)
           (error_message r) (required_inputs r) (result_json r).

Definition patchFailed (ts : Z) (errorCode errorMessage : string) (r : Run) : Run :=
  mkRunRow (id r) (user_id r) (job_target_id r) (resume_id r) run_failed
           (attempt r) (dry_run r) (started_at r) (Some ts) (Some errorCode)
           (Some errorMessage) (required_inputs r) (result_json r).

Definition patchSucceeded (ts : Z) (rj : ResultJson) (r : Run) : Run :=
  mkRunRow (id r) (user_id r) (job_target_id r) (resume_id r) run_succeeded
           (attempt r) (dry_run r) (started_at r) (Some ts) (error_code r)
           (error_message r) (required_inputs r) (Some rj).

Definition patchNeedsInput (errorMessage : string)
           (inputs : list Adapters.RequiredInput) (rj : ResultJson) (r : Run) : Run :=
  mkRunRow (id r) (user_id r) (job_target_id r) (resume_id r) run_needs_input
           (attempt r) (dry_run r) (started_at r) None (Some "NEEDS_INPUT")
           (Some errorMessage) (Some inputs) (Some rj).

Definition patchBlocked (ts : Z) (errorCode errorMessage : string)
           (rj : ResultJson) (r : Run) : Run :=
  mkRunRow (id r) (user_id r) (job_target_id r) (resume_id r) run_failed
           (attempt r) (dry_run r) (started_at r) (Some ts) (Some errorCode)
           (Some errorMessage) (required_inputs r) (Some rj).

(** runner.ts, [logEvent] *)
Definition logEvent (runId : string) (lvl : EventLevel) (msg : string)
           (d : option (nat * list string)) (db : Db) : Db :=
  mkDb (application_runs db) (job_targets db) (resumes db) (profiles db)
       (run_events db ++ [mkEvent runId lvl msg d]) (now db).

(** runner.ts, [failRun] *)
Definition failRun (runId errorCode errorMessage : string) (db : Db) : Db :=
  let db := logEvent runId error errorMessage None db in
  updateRun runId (patchFailed (now db) errorCode errorMessage) db.

(** runner.ts, [updateJobStatus] *)
Definition updateJobStatus (jobTargetId : string) (st : JobStatus) (db : Db) : Db :=
  setJobs (alter (fun j => mkJob (url j) (ats_type j) st (now db)) jobTargetId
                 (job_targets db)) db.

(** *** Claiming *)

Definition isQueued (r : Run) : bool :=
  match status r with run_queued => true | _ => false end.

(** [select('*').eq('status', 'queued').limit(1)]: the first queued row in
    key order, if any. *)
Definition selectQueued (db : Db) : option Run :=
  List.find isQueued (map snd (map_to_list (application_runs db))).

(** The conditional update of [claimRun]
    ([.update({status: 'running', ...}).eq('id', id).eq('status', 'queued')
    .select().single()]), one atomic statement of the database: the row is
    patched and returned only if it is still queued. *)
Definition claimUpdate (runId : string) (db : Db) : Db * option Run :=
  match application_runs db !! runId with
  | Some r =>
      if isQueued r then
        let claimed := patchClaimed (now db) r in
        (setRuns (<[runId := claimed]> (application_runs db)) db, Some claimed)
      else (db, None)
  | None => (db, None)
  end.

(** What [claimRun] does once the conditional update has answered. *)
Definition afterClaim (answer : Db * option Run) : Db * option Run :=
  match answer with
  | (db, Some claimed) =>
      (logEvent (id claimed) info "Run claimed by worker" None db, Some claimed)
  | (db, None) => (db, None)
  end.

(** runner.ts, [claimRun], run without interference. *)
Definition claimRun (db : Db) : Db * option Run :=
  match selectQueued db with
  | None => (db, None)
  | Some run => afterClaim (claimUpdate (id run) db)
  end.

(** **** Several workers claiming concurrently

    Each worker runs [claimRun]; the two database statements of a call are
    atomic, and statements of different workers interleave freely. *)
Inductive Worker :=
| Idle
| Fetched (run : Run)
| Finished (result : option Run).

Record System := mkSystem {
  db : Db;
  workers : list Worker
}.

Inductive step : System -> System -> Prop :=
| step_fetch (s : System) (i : nat) (r : Run) :
    workers s !! i = Some Idle ->
    application_runs (db s) !! id r = Some r ->
    isQueued r = true ->
    step s (mkSystem (db s) (<[i := Fetched r]> (workers s)))
| step_fetch_nothing (s : System) (i : nat) :
    workers s !! i = Some Idle ->
    step s (mkSystem (db s) (<[i := Finished None]> (workers s)))
| step_claim (s : System) (i : nat) (r : Run) :
    workers s !! i = Some (Fetched r) ->
    step s (mkSystem (fst (afterClaim (claimUpdate (id r) (db s))))
                     (<[i := Finished (snd (afterClaim (claimUpdate (id r) (db s))))]>
                        (workers s)))
| step_claim_error (s : System) (i : nat) (r : Run) :
    workers s !! i = Some (Fetched r) ->
    step s (mkSystem (db s) (<[i := Finished None]> (workers s))).

Inductive steps : System -> System -> Prop :=
| steps_refl (s : System) : steps s s
| steps_step (s1 s2 s3 : System) : steps s1 s2 -> step s2 s3 -> steps s1 s3.

(** Rows are stored under their own [id]. *)
Definition keyedById (db : Db) : Prop :=
  forall k r, application_runs db !! k = Some r -> id r = k.

(** The invariant of the interleaved system: rows keep their key, a run
    that some worker has won is no longer queued, and no two workers have
    won the same run. *)
Definition claimInvariant (s : System) : Prop :=
  keyedById (db s)
  /\ (forall i a, workers s !! i = Some (Finished (Some a)) ->
        exists q, application_runs (db s) !! id a = Some q /\ isQueued q = false)
  /\ (forall i j a b, i <> j ->
        workers s !! i = Some (Finished (Some a)) ->
        workers s !! j = Some (Finished (Some b)) ->
        id a <> id b).


(** *** Processing *)

Definition resultJson (result : Adapters.ApplyResult)
           (confirmation : option string) (dry : option bool) : ResultJson :=
  mkResultJson (Adapters.fieldsFilledCount result) (Adapters.fieldsFailed result)
               confirmation (Adapters.screenshots result) dry.

(** [run.dry_run || false] *)
Definition isDryRun (run : Run) : bool := default false (dry_run run).

(** runner.ts: the [if]/[else] chain that persists the result of
    [applyJob]. *)
Definition persistResult (run : Run) (result : Adapters.ApplyResult) (db : Db) : Db :=
  match Adapters.status result with
  | Adapters.succeeded | Adapters.dry_run_complete =>
      let db :=
        updateRun (id run)
          (patchSucceeded (now db)
             (resultJson result (Adapters.confirmationMessage result)
                         (Some (isDryRun run)))) db in
      if negb (isDryRun run) then updateJobStatus (job_target_id run) job_applied db
      else db
  | Adapters.needs_input =>
      let db :=
        updateRun (id run)
          (patchNeedsInput
             (orStr (Adapters.errorMessage result)
                    "Waiting for user to answer custom questions")
             (default [] (Adapters.requiredInputs result))
             (resultJson result None None)) db in
      updateJobStatus (job_target_id run) job_needs_input db
  | Adapters.blocked =>
      let db :=
        updateRun (id run)
          (patchBlocked (now db)
             (orStr (Adapters.errorCode result) "BLOCKED")
             (orStr (Adapters.errorMessage result) "Application blocked")
             (resultJson result None None)) db in
      updateJobStatus (job_target_id run) job_blocked db
  | Adapters.failed =>
      let db :=
        failRun (id run) (orStr (Adapters.errorCode result) "UNKNOWN")
                (orStr (Adapters.errorMessage result) "Application failed") db in
      updateJobStatus (job_target_id run) job_failed db
  end.

Section WithPlatform.
Context `{UrlApi}.

(** runner.ts, [processRun]: the [try] block.  [env] stands for everything
    [applyJob] talks to. *)
Definition tryBlock (env : Orchestrator.Env) (run : Run) (db : Db)
  : Outcome unit * Db :=
  match job_targets db !! job_target_id run with
  | None => (Returned tt, failRun (id run) "JOB_NOT_FOUND" "Job target not found" db)
  | Some job =>
  match resumes db !! resume_id run with
  | None => (Returned tt, failRun (id run) "RESUME_NOT_FOUND" "Resume not found" db)
  | Some resume =>
  match profiles db !! user_id run with
  | None => (Returned tt, failRun (id run) "PROFILE_NOT_FOUND" "Profile not found" db)
  | Some profile =>
      let db := logEvent (id run) info ("Starting application to " +:+ url job) None db in
      match parseURL (url job) with
      | None => (Threw (Error "Invalid URL"), db)
      | Some parsed =>
          if match getParam "fail" (searchParams parsed) with
             | Some v => String.eqb v "true"
             | None => false
             end
          then
            (Returned tt,
             updateJobStatus (job_target_id run) job_failed
               (failRun (id run) "TEST_FAILURE" "Intentional failure for testing" db))
          else
            let input :=
              Orchestrator.mkInput (id run) (user_id run) (url job) (ats_type job)
                                   (storage_path resume) profile (isDryRun run) in
            match fst (Orchestrator.applyJob env input) with
            | Threw e => (Threw e, db)
            | Returned result =>
                let db :=
                  logEvent (id run) info
                           ("Application result: " +:+
                            match Adapters.status result with
                            | Adapters.succeeded => "succeeded"
                            | Adapters.failed => "failed"
                            | Adapters.blocked => "blocked"
                            | Adapters.dry_run_complete => "dry_run_complete"
                            | Adapters.needs_input => "needs_input"
                            end)
                           (Some (Adapters.fieldsFilledCount result,
                                  Adapters.fieldsFailed result)) db in
                (Returned tt, persistResult run result db)
            end
      end
  end end end.

(** runner.ts, [processRun]: the [catch] block. *)
Definition catchBlock (run : Run) (e : Thrown) (db : Db) : Db :=
  updateJobStatus (job_target_id run) job_failed
    (failRun (id run) "UNEXPECTED_ERROR" (Adapters.errorText e) db).

(** runner.ts, [processRun] *)
Definition processRun (env : Orchestrator.Env) (run : Run) (db : Db) : Db :=
  match tryBlock env run db with
  | (Returned _, db) => db
  | (Threw e, db) => catchBlock run e db
  end.

End WithPlatform.

(** *** Example database *)
Definition demoRun (runId jobId : string) (st : RunStatus) : Run :=
  mkRunRow runId "user-1" jobId "resume-1" st 1 None None None None None None None.

Definition demoDb (jobUrl : string) : Db :=
  mkDb (<["run-1" := demoRun "run-1" "job-1" run_running]> ∅)
       (<["job-1" := mkJob jobUrl "unknown" job_applying 0]> ∅)
       (<["resume-1" := mkResume "user-1/cv.pdf"]> ∅)
       (<["user-1" := Orchestrator.demoProfile]> ∅)
       [] 1700000000000.

Definition demoQueue : Db :=
  mkDb (<["run-1" := demoRun "run-1" "job-1" run_queued]> ∅)
       (<["job-1" := mkJob "https://boards.greenhouse.io/acme/jobs/1" "greenhouse" job_queued 0]> ∅)
       (<["resume-1" := mkResume "user-1/cv.pdf"]> ∅)
       (<["user-1" := Orchestrator.demoProfile]> ∅)
       [] 1700000000000.

(** The state reached when two workers race for the one queued run of [demoQueue]: both
    fetch it, the first to update wins, the second gets [None]. *)
Definition raceEnd : System :=
  mkSystem (fst (afterClaim (claimUpdate "run-1" demoQueue)))
           [Finished (snd (afterClaim (claimUpdate "run-1" demoQueue))); Finished None].

End Runner.

(** ** ATS detection in the web application (apps/web/lib/jobs/atsDetect.ts) *)

Module AtsDetect.
Import JsString Url.

Inductive AtsType := greenhouse | lever | workday | unknown.

(** The host tests of [detectAtsType] (atsDetect.ts, lines 10-22), on the
    lower-cased host. *)
Definition detectedByHost (parsed : URL) : bool :=
  includes (toLowerCase (host parsed)) "greenhouse.io"
  || includes (toLowerCase (host parsed)) "lever.co"
  || includes (toLowerCase (host parsed)) "myworkdayjobs.com"
  || includes (toLowerCase (host parsed)) "workday.com".

Section WithPlatform.
Context `{UrlApi}.

(** atsDetect.ts, lines 3-41 *)
Definition detectAtsType (url : string) : AtsType :=
  match parseURL url with
  | Some parsed =>
      let host := toLowerCase (host parsed) in
      let path := toLowerCase (pathname parsed) in
      if includes host "greenhouse.io" then greenhouse
      else if includes host "lever.co" then lever
      else if includes host "myworkdayjobs.com" || includes host "workday.com" then workday
      else if includes path "/greenhouse/" || includes path "/gh/" then greenhouse
      else if includes path "/lever/" then lever
      else if includes path "/workday/" || includes path "/wd/" then workday
      else unknown
  | None => unknown
  end.

End WithPlatform.

(** The ATS type served by each adapter of the worker's registry. *)
Definition atsOfAdapter (a : Adapters.ATSAdapter) : AtsType :=
  match a with
  | Adapters.GreenhouseAdapter => greenhouse
  | Adapters.LeverAdapter => lever
  end.

End AtsDetect.

(** ** Reading the trace of [applyJob] *)

Module OrchestratorTrace.
Import Adapters Orchestrator.

Definition isRunStart (e : Event) : bool :=
  match e with RecordRunStart => true | _ => false end.

Definition isRunComplete (e : Event) : bool :=
  match e with RecordRunComplete _ => true | _ => false end.


Definition isAdapterApply (e : Event) : bool :=
  match e with AdapterApply _ _ => true | _ => false end.

End OrchestratorTrace.

(** ** Page checks and waiting (runner/errorHandler.ts, second half) *)

Module PageChecks.
Import JsString ErrorHandler.

(** What [detectBlockingCondition] asks of the page: the text of [body],
    the URL, and three element queries ([true] when an element matched);
    each asynchronous call may reject. *)
Record Probe := mkProbe {
  textContentBody : Outcome (option string);
  pageUrl : string;
  captchaChallenge : Outcome bool;
  visibleRecaptcha : Outcome bool;
  captchaOverlay : Outcome bool
}.

Definition challengePhrases : list string :=
  ["verify you are human"; "prove you are not a robot"; "complete the captcha";
   "solve this captcha"; "security check"; "please verify"].

Definition rateLimitPhrases : list string :=
  ["rate limit"; "too many requests"; "slow down"; "please try again later"].

Definition alreadyAppliedPhrases : list string :=
  ["already applied"; "duplicate application"; "previously applied";
   "you have applied"].

Definition accessDeniedPhrases : list string :=
  ["access denied"; "blocked"; "forbidden"].

(** [text.includes(p1) || text.includes(p2) || ...] *)
Definition includesAny (text : string) (phrases : list string) : bool :=
  existsb (includes text) phrases.

Definition captchaCondition : ClassifiedError :=
  mkClassified CAPTCHA "CAPTCHA_DETECTED" "CAPTCHA or human verification required"
               false 0 None.

Definition rateLimitedCondition : ClassifiedError :=
  mkClassified RATE_LIMITED "RATE_LIMITED" "Rate limited by the website" true 1 None.

Definition alreadyAppliedCondition : ClassifiedError :=
  mkClassified ALREADY_APPLIED "ALREADY_APPLIED" "Already applied to this position"
               false 0 None.

Definition accessBlockedCondition : ClassifiedError :=
  mkClassified RATE_LIMITED "ACCESS_BLOCKED" "Access to the page was blocked"
               false 0 None.

(** errorHandler.ts, lines 114-198; the [catch] turns any rejection into
    [null]. *)
Definition detectBlockingCondition (page : Probe) : option ClassifiedError :=
  match textContentBody page with
  | Threw _ => None
  | Returned body =>
  let pageText := toLowerCase (orStr body "") in
  let url := toLowerCase (pageUrl page) in
  match captchaChallenge page with
  | Threw _ => None
  | Returned hasCaptchaChallenge =>
  match visibleRecaptcha page with
  | Threw _ => None
  | Returned hasVisibleRecaptcha =>
  match captchaOverlay page with
  | Threw _ => None
  | Returned hasCaptchaOverlay =>
      let hasChallengeText := includesAny pageText challengePhrases in
      if hasCaptchaChallenge || hasVisibleRecaptcha || hasCaptchaOverlay
         || hasChallengeText
      then Some captchaCondition
      else if includesAny pageText rateLimitPhrases
      then Some rateLimitedCondition
      else if includesAny pageText alreadyAppliedPhrases
      then Some alreadyAppliedCondition
      else if includesAny pageText accessDeniedPhrases || includes url "blocked"
      then Some accessBlockedCondition
      else None
  end end end end.

(** The same page with another body text. *)
Definition withBody (body : option string) (page : Probe) : Probe :=
  mkProbe (Returned body) (pageUrl page) (captchaChallenge page)
          (visibleRecaptcha page) (captchaOverlay page).

Definition noResponse : ClassifiedError :=
  mkClassified NETWORK "NO_RESPONSE" "No response from server" true 2 None.

(** The template literals [HTTP_${status}] and [HTTP error: ${status}]. *)
Definition httpError (status : nat) : ClassifiedError :=
  mkClassified NETWORK ("HTTP_" +:+ natToString status)
               ("HTTP error: " +:+ natToString status)
               (500 <=? status)%nat (if (500 <=? status)%nat then 2 else 0) None.

(** errorHandler.ts, lines 287-323.  [response] is what [page.goto]
    answered: a rejection, [null], or a response with its status. *)
Definition safeNavigate (response : Outcome (option nat)) (page : Probe)
  : option ClassifiedError :=
  match response with
  | Threw error => Some (classifyError error)
  | Returned None => Some noResponse
  | Returned (Some status) =>
      if (400 <=? status)%nat then Some (httpError status)
      else detectBlockingCondition page
  end.

(** *** [waitForElementWithRetry] *)

Inductive WaitEvent :=
| WaitForSelector (attempt : nat)
| ScrollBy (attempt : nat)
| Sleep (ms : Z).

(** The [for] loop of lines 271-283 with [remaining] iterations left, at
    attempt number [attempt].  [found attempt] tells whether
    [page.waitForSelector] resolves at that attempt; [scroll attempt] is
    the outcome of [page.evaluate] in the [catch] block, whose rejection
    escapes the function. *)
Fixpoint waitLoop (found : nat -> bool) (scroll : nat -> Outcome unit)
         (retries : Z) (remaining attempt : nat) (trace : list WaitEvent)
  : Outcome bool * list WaitEvent :=
  match remaining with
  | O => (Returned false, trace)
  | S remaining' =>
      let trace := trace ++ [WaitForSelector attempt] in
      if found attempt then (Returned true, trace)
      else if (Z.of_nat attempt <? retries)%Z then
        match scroll attempt with
        | Threw e => (Threw e, trace ++ [ScrollBy attempt])
        | Returned _ =>
            waitLoop found scroll retries remaining' (S attempt)
                     (trace ++ [ScrollBy attempt; Sleep 500])
        end
      else waitLoop found scroll retries remaining' (S attempt) trace
  end.

(** errorHandler.ts, lines 263-284; [retries] is [options.retries],
    2 when left out.  The loop runs for [attempt = 0 .. retries]. *)
Definition waitForElementWithRetry (found : nat -> bool)
           (scroll : nat -> Outcome unit) (retries : option Z)
  : Outcome bool * list WaitEvent :=
  let retries := default 2%Z retries in
  waitLoop found scroll retries (Z.to_nat (retries + 1)) 0 [].

Definition isWait (e : WaitEvent) : bool :=
  match e with WaitForSelector _ => true | _ => false end.

Definition isSleep (e : WaitEvent) : bool :=
  match e with Sleep _ => true | _ => false end.

(** The milliseconds slept in a trace. *)
Definition sleptMs (trace : list WaitEvent) : Z :=
  fold_right (fun e acc => match e with Sleep ms => (ms + acc)%Z | _ => acc end)
             0%Z trace.

(** [classified.retryable] and [classified.maxRetries] agree. *)
Definition consistent (c : ClassifiedError) : bool :=
  Bool.eqb (retryable c) (0 <? maxRetries c)%nat.

(** The sum of the delays slept by a call of [withRetry]. *)
Definition totalSleep (delays : list Z) : Z := fold_right Z.add 0%Z delays.

End PageChecks.

(** ** Example environments for the orchestrator *)

Module OrchestratorExamples.
Import ErrorHandler Adapters Orchestrator.

Definition withBlocking (bc : option ClassifiedError) (browserbase : bool)
           (globalDry : bool) (env : Env) : Env :=
  mkEnv (enableArtifacts env) (uploadArtifactsEnabled env) globalDry browserbase
        (downloadResume env) (createContext env) (createPage env) (goto env)
        bc (captureScreenshot env) (fileExists env) (uploadSucceeds env)
        (debugArtifacts env) (page env) (closeContext env).

(** A page that says the applicant has applied before, and one that shows
    a CAPTCHA overlay. *)
Definition appliedBeforePage : PageChecks.Probe :=
  PageChecks.mkProbe (Returned (Some "You have ALREADY APPLIED to this job."))
                     "https://boards.greenhouse.io/acme/jobs/1"
                     (Returned false) (Returned false) (Returned false).


Definition blockedEnv : Env :=
  withBlocking (PageChecks.detectBlockingCondition appliedBeforePage) false false demoEnv.

End OrchestratorExamples.

(** ** The rate limiter's statistics (rateLimiter.ts, [getStats]) *)

Module RateLimiterStats.
Import JsString Url RateLimiter.

(** rateLimiter.ts, lines 105-112: [totalRequests], the sum of the
    request counts of all entries. *)
Definition totalRequests (rl : t) : Z :=
  map_fold (fun _ e sum => (sum + requestCount e)%Z) 0%Z (entries rl).

(** rateLimiter.ts, lines 105-112: [domains], as a set (the order of the
    array is the insertion order of the [Map], which the model does not
    keep). *)
Definition domains (rl : t) : gset string := dom (entries rl).

Section WithPlatform.
Context `{UrlApi}.

(** Calls of [waitForSlot] one after the other, each with its scheduling
    lag and starting when the one before returns. *)
Fixpoint waitForSlots (calls : list (N * string)) (rl : t) (clock : Z) : t * Z :=
  match calls with
  | [] => (rl, clock)
  | (lag, url) :: rest =>
      let '(rl', clock') := waitForSlot lag url rl clock in
      waitForSlots rest rl' clock'
  end.

End WithPlatform.

End RateLimiterStats.

(** ** The polling loop of the worker (index.ts) *)

Module WorkerLoop.
Import Runner.

(** The statuses [processRun] leaves a run in. *)
Definition isSettled (s : RunStatus) : bool :=
  match s with
  | run_succeeded | run_failed | run_needs_input => true
  | _ => false
  end.

(** What every patch written by [processRun] does to a row: it settles the
    status, stamps [finished_at] (except for [needs_input]) and keeps the
    columns that identify the run. *)
Definition settles (now : Z) (patch : Run -> Run) : Prop :=
  forall r,
    isSettled (status (patch r)) = true
    /\ id (patch r) = id r /\ user_id (patch r) = user_id r
    /\ job_target_id (patch r) = job_target_id r
    /\ resume_id (patch r) = resume_id r
    /\ attempt (patch r) = attempt r /\ dry_run (patch r) = dry_run r
    /\ started_at (patch r) = started_at r
    /\ finished_at (patch r)
       = (if match status (patch r) with run_needs_input => true | _ => false end
          then None else Some now).

Definition isRunning (r : Run) : bool :=
  match status r with run_running => true | _ => false end.

(** The rows of [application_runs] that are still queued. *)
Definition queuedRuns (db : Db) : gmap string Run :=
  filter (fun kr => isQueued kr.2 = true) (application_runs db).

Definition queuedCount (db : Db) : nat := size (queuedRuns db).

Definition noneRunning (db : Db) : Prop :=
  forall k r, application_runs db !! k = Some r -> isRunning r = false.

Section WithPlatform.
Context `{Url.UrlApi}.

(** index.ts, lines 29-43: one iteration of the [while (true)] loop of
    [main], the pause left out.  Neither call throws in the model, so the
    [catch] of the loop is not reached. *)
Definition pollOnce (env : Orchestrator.Env) (db : Db) : Db :=
  match claimRun db with
  | (db, Some run) => processRun env run db
  | (db, None) => db
  end.

(** Iterations one after the other; [envs] gives, for each, what the
    browser and the storage do during it. *)
Fixpoint workerLoop (envs : list Orchestrator.Env) (db : Db) : Db :=
  match envs with
  | [] => db
  | env :: rest => workerLoop rest (pollOnce env db)
  end.

End WithPlatform.

(** A database with three runs, two of them queued. *)
Definition threeRuns : Db :=
  mkDb (<["run-1" := demoRun "run-1" "job-1" run_queued]>
         (<["run-2" := demoRun "run-2" "job-1" run_succeeded]>
           (<["run-3" := demoRun "run-3" "job-9" run_queued]> ∅)))
       (<["job-1" := mkJob "https://boards.greenhouse.io/acme/jobs/1" "greenhouse" job_queued 0]> ∅)
       (<["resume-1" := mkResume "user-1/cv.pdf"]> ∅)
       (<["user-1" := Orchestrator.demoProfile]> ∅)
       [] 1700000000000.

End WorkerLoop.

(** ** Matching labels and options (greenhouse.ts, lever.ts) *)

Module FieldMatching.
Import JsString ErrorHandler Adapters.

(** The loop the select helpers share: the [value] attribute of the first
    option, in document order, that passes [test] and whose value is
    truthy; [selectOption] is then called with it. *)
Fixpoint firstSelectable (test : OptionEl -> bool) (options : list OptionEl)
  : option string :=
  match options with
  | [] => None
  | option :: rest =>
      if test option then
        match optionValue option with
        | Some value => if truthy value then Some value
                        else firstSelectable test rest
        | None => firstSelectable test rest
        end
      else firstSelectable test rest
  end.

(** [((await option.textContent()) || '').toLowerCase()] *)
Definition textLower (o : OptionEl) : string :=
  toLowerCase (orStr (optionText o) "").

Definition usNames : list string :=
  ["united states"; "united states of america"; "usa"; "us"].

(** greenhouse.ts, lines 460-489: the value selected, if any (the method
    answers [true] exactly then). *)
Definition selectCountryOption (options : list OptionEl) (country : string)
  : option string :=
  let countryLower := toLowerCase country in
  match firstSelectable
          (fun o => String.eqb (trim (textLower o)) countryLower
                    || existsb (String.eqb (trim (textLower o))) usNames)
          options with
  | Some value => Some value
  | None =>
      firstSelectable
        (fun o => includes (textLower o) "united states"
                  || includes (textLower o) "usa")
        options
  end.

(** [s.replace(/_/g, ' ')] *)
Fixpoint underscoresToSpaces (s : string) : string :=
  match s with
  | EmptyString => EmptyString
  | String c s' =>
      String (if Ascii.eqb c "_" then " "%char else c) (underscoresToSpaces s')
  end.

Definition genericKeywords : list string :=
  ["authorized"; "citizen"; "permanent resident"; "green card"; "yes"].

Definition workAuthKeywords (workAuth : string) : list string :=
  underscoresToSpaces (toLowerCase workAuth) :: genericKeywords.

(** The two nested loops of [selectWorkAuthOption]: keywords outside,
    options inside. *)
Fixpoint firstByKeyword (keywords : list string) (options : list OptionEl)
  : option string :=
  match keywords with
  | [] => None
  | keyword :: rest =>
      match firstSelectable (fun o => includes (textLower o) keyword) options with
      | Some value => Some value
      | None => firstByKeyword rest options
      end
  end.

(** greenhouse.ts, lines 492-519 *)
Definition selectWorkAuthOption (options : list OptionEl) (workAuth : string)
  : option string :=
  firstByKeyword (workAuthKeywords workAuth) options.

(** lever.ts, lines 659-691 *)
Definition selectMatchingOption (options : list OptionEl) (value : string)
  : option string :=
  let valueLower := toLowerCase value in
  match firstSelectable
          (fun o => includes (textLower o) valueLower
                    || includes (toLowerCase (orStr (optionValue o) "")) valueLower)
          options with
  | Some actualValue => Some actualValue
  | None =>
      if String.eqb valueLower "yes" || String.eqb valueLower "true"
      then firstSelectable (fun o => includes (textLower o) "yes") options
      else None
  end.

(** [s || null] *)
Definition nullIfEmpty (s : string) : option string :=
  if truthy s then Some s else None.

(** [profile.full_name?.split(' ')[0] || null] *)
Definition firstNameOf (profile : ProfileData) : option string :=
  match full_name profile with
  | Some n => nullIfEmpty (hd "" (splitChar " " n))
  | None => None
  end.

(** [profile.full_name?.split(' ').slice(1).join(' ') || null] *)
Definition lastNameOf (profile : ProfileData) : option string :=
  match full_name profile with
  | Some n => nullIfEmpty (join " " (tl (splitChar " " n)))
  | None => None
  end.

(** [[a, b].filter(Boolean)] *)
Definition truthyOnes (xs : list (option string)) : list string :=
  List.filter truthy (omap (fun x => x) xs).

(** [[city, state].filter(Boolean).join(', ') || null] *)
Definition cityAndState (profile : ProfileData) : option string :=
  nullIfEmpty (join ", " (truthyOnes [location_city profile; location_state profile])).

(** greenhouse.ts, lines 639-671 *)
Definition matchLabelToProfileValue (label : string) (profile : ProfileData)
  : option string :=
  let labelLower := toLowerCase label in
  if includes labelLower "first name" then firstNameOf profile
  else if includes labelLower "last name" then lastNameOf profile
  else if includes labelLower "email" then email profile
  else if includes labelLower "phone" || includes labelLower "mobile" then phone profile
  else if includes labelLower "linkedin" then linkedin_url profile
  else if includes labelLower "github" then github_url profile
  else if includes labelLower "city" then location_city profile
  else if includes labelLower "state" || includes labelLower "province"
  then location_state profile
  else if includes labelLower "location" || includes labelLower "address"
  then cityAndState profile
  else None.

(** *** The field loop of [fillFormFields]

    One entry of the [fields] array with what the page does for it:
    [found] is [None] when [findElement] answers [null], else the outcome
    of [element.fill]. *)
Record FieldAttempt := mkAttempt {
  fieldLabel : string;
  fieldValue : option string;
  found : option (Outcome unit)
}.

(** greenhouse.ts, lines 262-275: [filled] and [fieldsFailed] after the
    loop. *)
Fixpoint fillFields (fields : list FieldAttempt) (filled : nat)
         (fieldsFailed : list string) : nat * list string :=
  match fields with
  | [] => (filled, fieldsFailed)
  | field :: rest =>
      if negb (truthy (orStr (fieldValue field) "")) then
        fillFields rest filled fieldsFailed
      else
        match found field with
        | Some (Returned _) => fillFields rest (S filled) fieldsFailed
        | Some (Threw _) => fillFields rest filled (fieldsFailed ++ [fieldLabel field])
        | None => fillFields rest filled fieldsFailed
        end
  end.

(** The fields of the loop that have a value to fill in. *)
Definition withValue (fields : list FieldAttempt) : list FieldAttempt :=
  List.filter (fun f => truthy (orStr (fieldValue f) "")) fields.

(** *** Examples *)

(** A sponsorship question, which the work-authorization selectors also
    match ([select[name*="sponsorship"]]). *)
Definition sponsorshipOptions : list OptionEl :=
  [ mkOption (Some "Select...") (Some "");
    mkOption (Some "Yes") (Some "1");
    mkOption (Some "No") (Some "0") ].

End FieldMatching.

(** ** Metrics of the worker (health.ts) *)

Module Health.
Import Adapters Orchestrator.








End Health.

(** ** Browser contexts (browser/playwright.ts) *)

Module Playwright.
Import JsString ErrorHandler.

(** The module-level variables, and the number of calls of
    [recordBrowserLaunch]. *)
Record BrowserState := mkBrowser {
  localBrowser : bool;                  (* localBrowser !== null *)
  contextCount : Z;
  lastBrowserbaseSessionTime : Z;
  launches : Z
}.

Definition initialBrowser : BrowserState := mkBrowser false 0 0 0.

Definition BROWSERBASE_MIN_INTERVAL_MS : Z := 15000.

(** What the platform does during one call of [createContext]. *)
Record Attempt := mkAttempt {
  useBrowserbase : bool;                (* shouldUseBrowserbase() *)
  lag : N;                              (* of the rate-limit timer *)
  sessionCreate : Outcome unit;         (* bb.sessions.create *)
  connect : Outcome unit;               (* chromium.connectOverCDP *)
  existingContexts : nat;               (* b.contexts().length *)
  launch : Outcome unit;                (* chromium.launch *)
  newContext : Outcome unit;            (* b.newContext *)
  addInitScript : Outcome unit          (* context.addInitScript *)
}.

Definition setCount (n : Z) (s : BrowserState) : BrowserState :=
  mkBrowser (localBrowser s) n (lastBrowserbaseSessionTime s) (launches s).

Definition launched (s : BrowserState) : BrowserState :=
  mkBrowser (localBrowser s) (contextCount s) (lastBrowserbaseSessionTime s)
            (launches s + 1).

(** playwright.ts, lines 21-30; the clock when the call returns. *)
Definition waitForBrowserbaseRateLimit (lag : N) (clock : Z) (s : BrowserState)
  : BrowserState * Z :=
  let elapsed := (clock - lastBrowserbaseSessionTime s)%Z in
  let clock' :=
    if (elapsed <? BROWSERBASE_MIN_INTERVAL_MS)%Z
    then (clock + (BROWSERBASE_MIN_INTERVAL_MS - elapsed) + Z.of_N lag)%Z
    else clock in
  (mkBrowser (localBrowser s) (contextCount s) clock' (launches s), clock').

(** playwright.ts, lines 46-90 *)
Definition launchBrowser (a : Attempt) (clock : Z) (s : BrowserState)
  : Outcome unit * BrowserState * Z :=
  if useBrowserbase a then
    let '(s, clock) := waitForBrowserbaseRateLimit (lag a) clock s in
    match sessionCreate a with
    | Threw e => (Threw e, s, clock)
    | Returned _ =>
        match connect a with
        | Threw e => (Threw e, s, clock)
        | Returned _ => (Returned tt, launched s, clock)
        end
    end
  else if localBrowser s then (Returned tt, s, clock)
  else
    match launch a with
    | Threw e => (Threw e, s, clock)
    | Returned _ =>
        (Returned tt,
         launched (mkBrowser true (contextCount s) (lastBrowserbaseSessionTime s)
                             (launches s)),
         clock)
    end.

(** playwright.ts, lines 103-105 *)
Definition canCreateContext (maxConcurrentContexts : Z) (s : BrowserState) : bool :=
  (contextCount s <? maxConcurrentContexts)%Z.

Definition showZ (n : Z) : string :=
  if (n <? 0)%Z then "-" +:+ natToString (Z.to_nat (- n))
  else natToString (Z.to_nat n).

(** playwright.ts, lines 108-167 *)
Definition createContext (maxConcurrentContexts : Z) (a : Attempt) (clock : Z)
           (s : BrowserState) : Outcome unit * BrowserState * Z :=
  if negb (canCreateContext maxConcurrentContexts s) then
    (Threw (Error ("Max concurrent contexts (" +:+ showZ maxConcurrentContexts
                   +:+ ") reached")), s, clock)
  else
    match launchBrowser a clock s with
    | (Threw e, s, clock) => (Threw e, s, clock)
    | (Returned _, s, clock) =>
        if useBrowserbase a && (0 <? existingContexts a)%nat then
          (Returned tt, setCount (contextCount s + 1) s, clock)
        else
          match newContext a with
          | Threw e => (Threw e, s, clock)
          | Returned _ =>
              let s := setCount (contextCount s + 1) s in
              if negb (useBrowserbase a) then
                match addInitScript a with
                | Threw e => (Threw e, s, clock)
                | Returned _ => (Returned tt, s, clock)
                end
              else (Returned tt, s, clock)
          end
    end.

(** The [close] handler of a context (lines 125-127 and 147-149). *)
Definition contextClosed (s : BrowserState) : BrowserState :=
  setCount (Z.max 0 (contextCount s - 1)) s.

(** playwright.ts, lines 93-100; [closes] is the outcome of
    [localBrowser.close()]. *)
Definition closeBrowser (closes : Outcome unit) (s : BrowserState)
  : Outcome unit * BrowserState :=
  if localBrowser s then
    match closes with
    | Threw e => (Threw e, s)
    | Returned _ =>
        (Returned tt, mkBrowser false 0 (lastBrowserbaseSessionTime s) (launches s))
    end
  else (Returned tt, s).

(** What happens to the module over time, in any order. *)
Inductive Op :=
| Create (a : Attempt)
| ContextClosed
| CloseBrowser (closes : Outcome unit).

Definition runOp (maxConcurrentContexts : Z) (op : Op) (st : BrowserState * Z)
  : BrowserState * Z :=
  match op with
  | Create a =>
      let '(_, s, clock) := createContext maxConcurrentContexts a (snd st) (fst st) in
      (s, clock)
  | ContextClosed => (contextClosed (fst st), snd st)
  | CloseBrowser closes => (snd (closeBrowser closes (fst st)), snd st)
  end.

Definition runOps (maxConcurrentContexts : Z) (ops : list Op) (st : BrowserState * Z)
  : BrowserState * Z :=
  fold_left (fun st op => runOp maxConcurrentContexts op st) ops st.

Definition isCreate (op : Op) : bool :=
  match op with Create _ => true | _ => false end.

(** A local launch in which only the stealth script fails. *)
Definition initScriptFails : Attempt :=
  mkAttempt false 0 (Returned tt) (Returned tt) 0 (Returned tt) (Returned tt)
            (Threw (Error "Target closed")).

End Playwright.

(** ** Routes of the web application (resumes/primary, runs/start) *)

Module WebRoutes.
Import JsString Runner.

(** The columns of [resumes] and [job_targets] the two routes read or
    write. *)
Record ResumeRow := mkResumeRow {
  resumeUser : string;
  is_primary : bool
}.

Record JobRow := mkJobRow {
  jobUser : string;
  jobStatus : JobStatus;
  jobUpdatedAt : Z
}.

Record WebDb := mkWebDb {
  resumeRows : gmap string ResumeRow;
  jobRows : gmap string JobRow;
  runRows : gmap string Run
}.

Inductive Response :=
| Success                                   (* { success: true } *)
| RunCreated (run : Run)                    (* { run } *)
| Failure (status : nat) (error : string).  (* { error }, { status } *)

(** A request field that is missing or falsy. *)
Definition given (field : option string) : option string :=
  match field with
  | Some v => if truthy v then Some v else None
  | None => None
  end.

(** [.update({ is_primary: false }).eq('user_id', user.id)] *)
Definition unsetPrimary (user : string) (rows : gmap string ResumeRow)
  : gmap string ResumeRow :=
  (fun r => if String.eqb (resumeUser r) user
            then mkResumeRow (resumeUser r) false else r) <$> rows.

(** [.update({ is_primary: true }).eq('id', resumeId).eq('user_id', user.id)] *)
Definition markPrimary (user resumeId : string) (rows : gmap string ResumeRow)
  : gmap string ResumeRow :=
  match rows !! resumeId with
  | Some r =>
      if String.eqb (resumeUser r) user
      then <[resumeId := mkResumeRow (resumeUser r) true]> rows
      else rows
  | None => rows
  end.

(** The route [POST /api/resumes/primary], once the body of the request
    has been parsed (a body that does not parse is answered 500 by the
    [catch]).  [user] is the signed-in user, if any; [firstOk] and
    [secondOk] tell whether the database applies the first and the second
    update (the route looks at the answer of the second only). *)
Definition setPrimary (user resumeId : option string) (firstOk secondOk : bool)
           (db : WebDb) : Response * WebDb :=
  match user with
  | None => (Failure 401 "Unauthorized", db)
  | Some u =>
      match given resumeId with
      | None => (Failure 400 "Resume ID required", db)
      | Some rid =>
          let rows := if firstOk then unsetPrimary u (resumeRows db)
                      else resumeRows db in
          if secondOk then
            (Success, mkWebDb (markPrimary u rid rows) (jobRows db) (runRows db))
          else
            (Failure 500 "Failed to set primary",
             mkWebDb rows (jobRows db) (runRows db))
      end
  end.

(** [.select('id').eq('user_id', user.id).eq('is_primary', true).single()]:
    the row, when there is exactly one. *)
Definition primaryResume (user : string) (db : WebDb) : option string :=
  match map_to_list
          (filter (fun kr : string * ResumeRow =>
                     resumeUser kr.2 = user /\ is_primary kr.2 = true)
                  (resumeRows db)) with
  | [(k, _)] => Some k
  | _ => None
  end.

(** The row inserted by the route; the other columns take their
    defaults. *)
Definition newRun (runId user jobTargetId resumeId : string) : Run :=
  mkRunRow runId user jobTargetId resumeId run_queued 1
           None None None None None None None.

(** The route [POST /api/runs/start], once the body of the request has
    been parsed.  [inserted] is the id the database gives the new run, or
    [None] when the insert fails; [jobUpdateOk] tells whether the database
    applies the update of the job, whose answer the route does not look
    at; [clock] is [new Date()]. *)
Definition startRun (user jobTargetId : option string) (inserted : option string)
           (jobUpdateOk : bool) (clock : Z) (db : WebDb) : Response * WebDb :=
  match user with
  | None => (Failure 401 "Unauthorized", db)
  | Some u =>
      match given jobTargetId with
      | None => (Failure 400 "Job target ID required", db)
      | Some jid =>
          match jobRows db !! jid with
          | Some job =>
              if String.eqb (jobUser job) u then
                match primaryResume u db with
                | None =>
                    (Failure 400
                       "No primary resume set. Please upload and set a primary resume first.",
                     db)
                | Some rid =>
                    match inserted with
                    | None => (Failure 500 "Failed to create run", db)
                    | Some runId =>
                        let run := newRun runId u jid rid in
                        (RunCreated run,
                         mkWebDb (resumeRows db)
                                 (if jobUpdateOk
                                  then <[jid := mkJobRow (jobUser job) job_queued clock]>
                                         (jobRows db)
                                  else jobRows db)
                                 (<[runId := run]> (runRows db)))
                    end
                end
              else (Failure 404 "Job not found", db)
          | None => (Failure 404 "Job not found", db)
          end
      end
  end.

(** Two users, each with two resumes and one job. *)
Definition twoUsers : WebDb :=
  mkWebDb (<["cv-a1" := mkResumeRow "ann" true]>
            (<["cv-a2" := mkResumeRow "ann" false]>
              (<["cv-b1" := mkResumeRow "bob" true]>
                (<["cv-b2" := mkResumeRow "bob" true]> ∅))))
          (<["job-a" := mkJobRow "ann" job_new 0]>
            (<["job-b" := mkJobRow "bob" job_new 0]> ∅))
          ∅.

End WebRoutes.

(* ===================================================================== *)
(** * Part II: properties                                                 *)
(* ===================================================================== *)

(** ** Facts about the string primitives *)

Module JsStringFacts.
Import JsString.

Lemma toLowerChar_idem (c : ascii) : toLowerChar (toLowerChar c) = toLowerChar c.
Proof.
  destruct c as [[] [] [] [] [] [] [] []]; reflexivity.
Qed.

Lemma toLowerCase_idem (s : string) : toLowerCase (toLowerCase s) = toLowerCase s.
Proof.
  induction s as [|c s IH]; simpl; [reflexivity|].
  now rewrite toLowerChar_idem, IH.
Qed.

End JsStringFacts.

(** ** [normalizeUrl] *)

Module UrlFacts.
Import JsString JsStringFacts Url.

Lemma deleteParam_filter (name : string) (ps : list (string * string)) :
  deleteParam name ps = List.filter (fun kv => negb (String.eqb (fst kv) name)) ps.
Proof.
  induction ps as [|[k v] ps IH]; simpl; [reflexivity|].
  destruct (String.eqb k name); simpl; now rewrite IH.
Qed.

Lemma filter_filter {A} (f g : A -> bool) (l : list A) :
  List.filter f (List.filter g l) = List.filter (fun x => g x && f x) l.
Proof.
  induction l as [|x l IH]; simpl; [reflexivity|].
  destruct (g x); simpl; [destruct (f x)|]; now rewrite IH.
Qed.

Lemma filter_ext_bool {A} (f g : A -> bool) (l : list A) :
  (forall x, f x = g x) -> List.filter f l = List.filter g l.
Proof.
  intros E. induction l as [|x l IH]; simpl; [reflexivity|].
  now rewrite E, IH.
Qed.

(** Deleting the names of a list one after the other keeps exactly the
    pairs whose name is not in the list, in their order. *)
Lemma fold_delete (names : list string) (u : URL) :
  fold_left (fun u param => setSearchParams (deleteParam param (searchParams u)) u)
            names u
  = setSearchParams
      (List.filter (fun kv => negb (existsb (String.eqb (fst kv)) names))
                   (searchParams u)) u.
Proof.
  revert u. induction names as [|n names IH]; intros u; simpl.
  - destruct u as [a b c d ps h]; unfold setSearchParams; simpl. f_equal.
    induction ps as [|x ps IHps]; simpl; [reflexivity|]. now rewrite <- IHps.
  - rewrite IH. destruct u as [a b c d ps h]; unfold setSearchParams; simpl.
    f_equal. rewrite deleteParam_filter, filter_filter.
    apply filter_ext_bool. intros [k v]; simpl.
    destruct (String.eqb k n); simpl; reflexivity.
Qed.

Lemma normalizeParsed_fields (u : URL) :
  normalizeParsed u =
  mkURL (toLowerCase (protocol u)) (toLowerCase (host u)) (toLowerCase (hostname u))
        (trimTrailingSlash (pathname u))
        (List.filter (fun kv => negb (isTracking (fst kv))) (searchParams u))
        "".
Proof.
  unfold normalizeParsed. rewrite fold_delete.
  destruct u as [a b c d ps h]; unfold trimTrailingSlash; simpl.
  destruct ((1 <? len d)%nat && endsWithChar d "/"); reflexivity.
Qed.






Section WithPlatform.
Context `{UrlApi}.


End WithPlatform.


End UrlFacts.

(** ** The rate limiter *)

Module RateLimiterFacts.
Import JsString Url RateLimiter.

Section WithPlatform.
Context `{UrlApi}.




(** A call never returns before the clock it started at. *)
Lemma waitForSlot_monotone (lag : N) (url : string) (rl : t) (clock : Z) :
  (clock <= snd (waitForSlot lag url rl clock))%Z.
Proof.
  unfold waitForSlot, sleep. simpl.
  destruct (entries rl !! getDomain url) as [e|]; [|lia].
  destruct (clock - lastRequestAt e <? getLimitForDomain rl (getDomain url))%Z; lia.
Qed.



End WithPlatform.

(** Two Greenhouse boards share the domain [greenhouse.io]: a second call
    10 ms after the first is held until 5000 ms have passed; a Lever URL in
    between is not held at all. *)
Example waitForSlot_demo :
  @getDomain simpleUrlApi "https://boards.greenhouse.io/acme/jobs/1" = "greenhouse.io"
  /\ @getDomain simpleUrlApi "https://job-boards.greenhouse.io/other/jobs/2" = "greenhouse.io"
  /\ snd (@waitForSlot simpleUrlApi 0 "https://job-boards.greenhouse.io/other/jobs/2"
            (fst (@waitForSlot simpleUrlApi 0 "https://boards.greenhouse.io/acme/jobs/1"
                    (create 2000) 1000)) 1010) = 6000%Z
  /\ snd (@waitForSlot simpleUrlApi 0 "https://jobs.lever.co/acme/3"
            (fst (@waitForSlot simpleUrlApi 0 "https://boards.greenhouse.io/acme/jobs/1"
                    (create 2000) 1000)) 1010) = 1010%Z.
Proof. repeat split; vm_compute; reflexivity. Qed.

End RateLimiterFacts.

(** ** [classifyError] and [withRetry] *)

Module ErrorHandlerFacts.
Import JsString ErrorHandler.

(** Only three classifications are retryable, each with its own ceiling. *)
Lemma classifyError_retryable (e : Thrown) :
  retryable (classifyError e) = true ->
  (category (classifyError e) = TIMEOUT /\ maxRetries (classifyError e) = 2)
  \/ (category (classifyError e) = NETWORK /\ maxRetries (classifyError e) = 3)
  \/ (category (classifyError e) = ELEMENT_NOT_FOUND /\ maxRetries (classifyError e) = 1).
Proof.
  destruct e as [m|m|v]; simpl.
  - intros _. left. split; reflexivity.
  - repeat match goal with
           | |- context [if ?b then _ else _] => destruct b; simpl
           end;
      intros Hr; try discriminate Hr; auto.
  - discriminate.
Qed.

Section WithRetry.
Context {W T : Type}.
Variable operation : W -> Outcome T * W.

Lemma retryLoop_invocations (cfg : RetryConfig) (remaining attempt : nat)
      (lastError : option Thrown) (w : W) (slept : list Z) (calls : nat) :
  calls <= invocations (retryLoop operation cfg remaining attempt lastError w slept calls)
  /\ invocations (retryLoop operation cfg remaining attempt lastError w slept calls)
     <= calls + remaining.
Proof.
  revert attempt lastError w slept calls.
  induction remaining as [|n IH]; intros attempt lastError w slept calls; simpl.
  - lia.
  - destruct (operation w) as [[v|e] w']; simpl; [lia|].
    destruct (retryable (classifyError e)); simpl; [|lia].
    destruct (maxRetries (classifyError e) <? attempt)%nat; simpl; [lia|].
    specialize (IH (S attempt) (Some (toError e)) w' (slept ++ [backoffDelay cfg attempt])
                   (S calls)).
    lia.
Qed.

(** The delays slept are those of attempts [attempt], [attempt + 1], ...,
    one per failed call that was followed by a sleep. *)
Lemma retryLoop_sleeps (cfg : RetryConfig) (remaining attempt : nat)
      (lastError : option Thrown) (w : W) (slept : list Z) (calls : nat) :
  exists k,
    sleeps (retryLoop operation cfg remaining attempt lastError w slept calls)
    = slept ++ map (backoffDelay cfg) (seq attempt k)
    /\ calls + k
       <= invocations (retryLoop operation cfg remaining attempt lastError w slept calls).
Proof.
  revert attempt lastError w slept calls.
  induction remaining as [|n IH]; intros attempt lastError w slept calls; simpl.
  - exists 0. simpl. rewrite app_nil_r. split; [reflexivity | lia].
  - destruct (operation w) as [[v|e] w']; simpl.
    + exists 0. simpl. rewrite app_nil_r. split; [reflexivity | lia].
    + destruct (retryable (classifyError e)); simpl;
        [|exists 0; simpl; rewrite app_nil_r; split; [reflexivity | lia]].
      destruct (maxRetries (classifyError e) <? attempt)%nat; simpl;
        [exists 0; simpl; rewrite app_nil_r; split; [reflexivity | lia]|].
      destruct (IH (S attempt) (Some (toError e)) w' (slept ++ [backoffDelay cfg attempt])
                   (S calls)) as [k [Hs Hc]].
      exists (S k). rewrite Hs. simpl. rewrite <- app_assoc. simpl.
      split; [reflexivity | lia].
Qed.

(** What is thrown in the end is the last error the operation threw (made
    an [Error]); with no call at all it is [lastError] or the fallback. *)
Lemma retryLoop_rethrows (cfg : RetryConfig) (remaining attempt : nat)
      (lastError : option Thrown) (w : W) (slept : list Z) (calls : nat) (e : Thrown) :
  outcome (retryLoop operation cfg remaining attempt lastError w slept calls) = Threw e ->
  (e = default (Error "All retry attempts failed") lastError
   /\ world (retryLoop operation cfg remaining attempt lastError w slept calls) = w
   /\ invocations (retryLoop operation cfg remaining attempt lastError w slept calls) = calls)
  \/ (exists w0 e0,
        operation w0
        = (Threw e0, world (retryLoop operation cfg remaining attempt lastError w slept calls))
        /\ e = toError e0).
Proof.
  revert attempt lastError w slept calls.
  induction remaining as [|n IH]; intros attempt lastError w slept calls; simpl.
  - intros [= <-]. left. auto.
  - destruct (operation w) as [[v|e0] w'] eqn:Eop; simpl; [discriminate|].
    destruct (retryable (classifyError e0)); simpl;
      [|intros [= <-]; right; exists w, e0; auto].
    destruct (maxRetries (classifyError e0) <? attempt)%nat; simpl;
      [intros [= <-]; right; exists w, e0; auto|].
    intros Hout. apply IH in Hout as [[He [Hw _]] | Hlast].
    + right. exists w, e0. rewrite Hw. simpl in He. auto.
    + right. exact Hlast.
Qed.

(** C4, amended: [withRetry] calls the operation at most [maxAttempts]
    times; the k-th delay it sleeps is
    [min(maxDelayMs, baseDelayMs * backoffMultiplier^(k-1))]; a failed
    attempt re-throws at once when its classification is not retryable or
    when the attempt number exceeds the classification's [maxRetries], and
    otherwise sleeps that delay and goes to the next attempt; when the
    attempts are used up the last error is thrown.  For an operation that
    fails twice with retryable errors allowing two retries and then
    succeeds, with [maxAttempts >= 3], the call returns the success value
    after exactly three calls and two sleeps of [min(maxDelayMs, baseDelayMs)]
    and [min(maxDelayMs, baseDelayMs * backoffMultiplier)]; these are
    non-decreasing provided [baseDelayMs >= 0] and [backoffMultiplier >= 1]. *)
Theorem withRetry_contract (config : PartialRetryConfig) (w : W) :
  (* at most maxAttempts calls *)
  invocations (withRetry operation config w) <= maxAttempts (mergeConfig config)
  (* the delays follow the backoff formula, attempt by attempt *)
  /\ sleeps (withRetry operation config w)
     = map (fun attempt =>
              Z.min (baseDelayMs (mergeConfig config)
                     * backoffMultiplier (mergeConfig config) ^ (Z.of_nat attempt - 1))
                    (maxDelayMs (mergeConfig config)))
           (seq 1 (length (sleeps (withRetry operation config w))))
  /\ length (sleeps (withRetry operation config w))
     <= invocations (withRetry operation config w)
  (* one failed attempt *)
  /\ (forall remaining attempt lastError w0 slept calls e w1,
        operation w0 = (Threw e, w1) ->
        retryLoop operation (mergeConfig config) (S remaining) attempt lastError w0 slept calls
        = if negb (retryable (classifyError e))
             || (maxRetries (classifyError e) <? attempt)%nat
          then mkRun (Threw (toError e)) w1 slept (S calls)
          else retryLoop operation (mergeConfig config) remaining (S attempt)
                         (Some (toError e)) w1
                         (slept ++ [backoffDelay (mergeConfig config) attempt]) (S calls))
  (* what is thrown *)
  /\ (forall e, outcome (withRetry operation config w) = Threw e ->
        (maxAttempts (mergeConfig config) = 0 /\ e = Error "All retry attempts failed")
        \/ (exists w0 e0,
              operation w0 = (Threw e0, world (withRetry operation config w))
              /\ e = toError e0))
  (* two failures, then success *)
  /\ (forall e1 e2 v w1 w2 w3,
        operation w = (Threw e1, w1) ->
        operation w1 = (Threw e2, w2) ->
        operation w2 = (Returned v, w3) ->
        retryable (classifyError e1) = true -> 2 <= maxRetries (classifyError e1) ->
        retryable (classifyError e2) = true -> 2 <= maxRetries (classifyError e2) ->
        3 <= maxAttempts (mergeConfig config) ->
        outcome (withRetry operation config w) = Returned v
        /\ invocations (withRetry operation config w) = 3
        /\ sleeps (withRetry operation config w)
           = [ Z.min (baseDelayMs (mergeConfig config)) (maxDelayMs (mergeConfig config));
               Z.min (baseDelayMs (mergeConfig config) * backoffMultiplier (mergeConfig config))
                     (maxDelayMs (mergeConfig config)) ]
        /\ ((0 <= baseDelayMs (mergeConfig config))%Z ->
            (1 <= backoffMultiplier (mergeConfig config))%Z ->
            (Z.min (baseDelayMs (mergeConfig config)) (maxDelayMs (mergeConfig config))
             <= Z.min (baseDelayMs (mergeConfig config)
                       * backoffMultiplier (mergeConfig config))
                      (maxDelayMs (mergeConfig config)))%Z)).
Proof.
  set (cfg := mergeConfig config).
  repeat apply conj.
  - unfold withRetry. fold cfg.
    pose proof (retryLoop_invocations cfg (maxAttempts cfg) 1 None w [] 0). lia.
  - unfold withRetry. fold cfg.
    destruct (retryLoop_sleeps cfg (maxAttempts cfg) 1 None w [] 0) as [k [Hs _]].
    rewrite Hs. simpl. rewrite length_map, length_seq.
    apply map_ext_in. intros a Ha. apply in_seq in Ha.
    unfold backoffDelay. do 3 f_equal. lia.
  - unfold withRetry. fold cfg.
    destruct (retryLoop_sleeps cfg (maxAttempts cfg) 1 None w [] 0) as [k [Hs Hc]].
    rewrite Hs, app_nil_l, length_map, length_seq. exact Hc.
  - intros remaining attempt lastError w0 slept calls e w1 Hop.
    simpl. rewrite Hop.
    destruct (retryable (classifyError e)); simpl; [|reflexivity].
    destruct (maxRetries (classifyError e) <? attempt)%nat; reflexivity.
  - intros e Hout. unfold withRetry in *. fold cfg in Hout |- *.
    apply retryLoop_rethrows in Hout as [[He [_ Hn]] | Hlast].
    + left. simpl in He. split; [|exact He].
      destruct (maxAttempts cfg) as [|n] eqn:Em; [reflexivity|].
      exfalso. simpl in Hn.
      destruct (operation w) as [[v|e0] w'] eqn:Eop; simpl in Hn; [discriminate|].
      destruct (retryable (classifyError e0)); simpl in Hn; [|discriminate].
      destruct (maxRetries (classifyError e0) <? 1)%nat; simpl in Hn; [discriminate|].
      pose proof (retryLoop_invocations cfg n 2 (Some (toError e0)) w'
                    [backoffDelay cfg 1] 1) as Hle.
      rewrite Hn in Hle. lia.
    + right. exact Hlast.
  - intros e1 e2 v w1 w2 w3 H1 H2 H3 Hr1 Hm1 Hr2 Hm2 Hmax.
    unfold withRetry. fold cfg.
    destruct (maxAttempts cfg) as [|[|[|n]]] eqn:Em; try lia.
    simpl. rewrite H1, Hr1. simpl.
    assert (E1 : (maxRetries (classifyError e1) <? 1)%nat = false)
      by (apply Nat.ltb_ge; lia).
    rewrite E1, H2, Hr2. simpl.
    assert (E2 : (maxRetries (classifyError e2) <? 2)%nat = false)
      by (apply Nat.ltb_ge; lia).
    rewrite E2, H3. simpl.
    unfold backoffDelay. simpl. rewrite Z.mul_1_r, Z.pow_1_r.
    repeat split. intros Hb Hk. nia.
Qed.

End WithRetry.

(** C4, refuted as stated: with [backoffMultiplier = 0] (every other
    setting at its default) an operation that times out twice and then
    returns 7 makes [withRetry] sleep 1000 ms and then 0 ms: the delays
    decrease. *)
Lemma withRetry_delays_can_decrease :
  outcome (withRetry scripted (mkPartial None None None (Some 0%Z))
             [Threw (TimeoutError "t1"); Threw (TimeoutError "t2"); Returned 7])
  = Returned 7
  /\ sleeps (withRetry scripted (mkPartial None None None (Some 0%Z))
               [Threw (TimeoutError "t1"); Threw (TimeoutError "t2"); Returned 7])
     = [1000%Z; 0%Z]
  /\ (0 < 1000)%Z.
Proof. repeat split; vm_compute; reflexivity. Qed.

(** The default configuration on the same operation: 1000 ms, then
    2000 ms. *)
Example withRetry_default_backoff :
  withRetry scripted (mkPartial None None None None)
            [Threw (TimeoutError "t1"); Threw (Error "net::ERR_CONNECTION_RESET"); Returned 7]
  = mkRun (Returned 7) [] [1000%Z; 2000%Z] 3.
Proof. vm_compute. reflexivity. Qed.

End ErrorHandlerFacts.

(** ** The adapters *)

Module AdaptersFacts.
Import JsString Url ErrorHandler Adapters.

(** Case analysis on every test of an [if] chain in the goal. *)
Ltac case_ifs :=
  repeat match goal with
         | |- context [if ?b then _ else _] => destruct b
         end.










(** *** The pre-submit gate *)

(** No option text offered to the user is a placeholder. *)
Lemma selectOptionTexts_no_placeholder (opts : list OptionEl) (t : string) :
  In t (Greenhouse.selectOptionTexts opts) ->
  includes (toLowerCase t) "select" = false /\ t <> "--" /\ t <> ""
  /\ exists o, In o opts /\ t = trim (orStr (optionText o) "")
               /\ truthy (orStr (optionValue o) "") = true.
Proof.
  induction opts as [|o opts IH]; simpl; [intros []|].
  destruct (truthy (orStr (optionValue o) "")) eqn:Ev; simpl.
  2:{ intros Hin. destruct (IH Hin) as (A & B & C & o' & Ho & D).
      repeat split; auto. exists o'. auto. }
  destruct (truthy (trim (orStr (optionText o) ""))) eqn:Et; simpl.
  2:{ intros Hin. destruct (IH Hin) as (A & B & C & o' & Ho & D).
      repeat split; auto. exists o'. auto. }
  destruct (includes (toLowerCase (trim (orStr (optionText o) ""))) "select") eqn:Es; simpl.
  1:{ intros Hin. destruct (IH Hin) as (A & B & C & o' & Ho & D).
      repeat split; auto. exists o'. auto. }
  destruct (String.eqb (trim (orStr (optionText o) "")) "--") eqn:Ed; simpl.
  1:{ intros Hin. destruct (IH Hin) as (A & B & C & o' & Ho & D).
      repeat split; auto. exists o'. auto. }
  intros [<- | Hin].
  - repeat split; auto.
    + intros E. rewrite E in Ed. discriminate.
    + intros E. rewrite E in Et. discriminate.
    + exists o. auto.
  - destruct (IH Hin) as (A & B & C & o' & Ho & D).
    repeat split; auto. exists o'. auto.
Qed.

(** One entry, of type [select], per select that is still on its
    placeholder and required; none for the others. *)
Lemma scanSelect_spec (sel : SelectEl) :
  Greenhouse.scanSelect (Some sel)
  = if unresolvedRequiredSelect sel
    then [ mkRequiredInput
             (Greenhouse.fieldNameOf (orStr (selectContainerText sel) ""))
             select (Some (Greenhouse.selectOptionTexts (selectOptions sel))) true ]
    else [].
Proof.
  unfold Greenhouse.scanSelect, unresolvedRequiredSelect.
  destruct (String.eqb (selectValue sel) "" ||
            includes (toLowerCase (selectedText sel)) "select"); simpl; [|reflexivity].
  destruct (selectRequired sel || includes (orStr (selectContainerText sel) "") "*");
    reflexivity.
Qed.

(** Greenhouse: when the filling steps have run, a real run that finds
    unresolved required fields returns [needs_input] with exactly those
    fields and never clicks the submit control. *)
Lemma Greenhouse_gate (page : Page) (filled : nat) :
  navigateToForm page = Returned true ->
  fillFormFields page = Returned filled ->
  Greenhouse.detectUnfilledRequiredFields page <> [] ->
  status (fst (Greenhouse.apply false page)) = needs_input
  /\ requiredInputs (fst (Greenhouse.apply false page))
     = Some (Greenhouse.detectUnfilledRequiredFields page)
  /\ ~ In ClickSubmit (snd (Greenhouse.apply false page)).
Proof.
  intros Hn Hf Hu. unfold Greenhouse.apply. rewrite Hn, Hf.
  destruct (Greenhouse.detectUnfilledRequiredFields page) as [|x xs] eqn:E;
    [congruence|].
  simpl. repeat split.
  intros [H|[H|[H|[H|[H|[]]]]]]; discriminate H.
Qed.

(** Lever has no such gate: whatever the page, its [apply] never answers
    [needs_input]. *)
Lemma Lever_never_needs_input (dryRun : bool) (page : Page) :
  status (fst (Lever.apply dryRun page)) <> needs_input.
Proof.
  unfold Lever.apply.
  destruct (navigateToForm page) as [[|]|e]; simpl; try discriminate.
  destruct (fillFormFields page) as [n|e]; simpl; try discriminate.
  destruct (handleCustomQuestions page) as [m|e]; simpl; try discriminate.
  destruct dryRun; simpl; try discriminate.
  destruct (Lever.submitForm page) as [[|] clicks]; simpl; try discriminate.
  unfold Lever.detectOutcome. case_ifs; discriminate.
Qed.

(** C1, the code against the claim: on a form whose required select
    "Years of experience" is still on its placeholder, the Greenhouse
    adapter stops with [needs_input] and one entry whose options leave the
    placeholder out, without clicking submit; the Lever adapter, run on the
    same form with [dryRun = false], clicks the submit control and reports
    [succeeded] with no required inputs. *)
Theorem Lever_apply_submits_unresolved_required_select :
  Greenhouse.detectUnfilledRequiredFields pageWithRequiredSelect
  = [ mkRequiredInput "Years of experience" select
                      (Some ["0-2 years"; "3-5 years"; "6+ years"]) true ]
  /\ status (fst (Greenhouse.apply false pageWithRequiredSelect)) = needs_input
  /\ snd (Greenhouse.apply false pageWithRequiredSelect)
     = [Navigate; Fill; Upload; CoverLetter; ScanRequired]
  /\ status (fst (Lever.apply false pageWithRequiredSelect)) = succeeded
  /\ requiredInputs (fst (Lever.apply false pageWithRequiredSelect)) = None
  /\ snd (Lever.apply false pageWithRequiredSelect)
     = [Navigate; Fill; Upload; CoverLetter; CustomQuestions; ClickSubmit; ReadOutcome].
Proof. repeat split; vm_compute; reflexivity. Qed.

(** *** Dry runs *)



(** A dry run over the form with the unresolved required select. *)
Example Greenhouse_dry_run_demo :
  status (fst (Greenhouse.apply true pageWithRequiredSelect)) = dry_run_complete
  /\ snd (Greenhouse.apply true pageWithRequiredSelect)
     = [Navigate; Fill; Upload; CoverLetter].
Proof. split; reflexivity. Qed.

End AdaptersFacts.

(** ** The orchestrator *)

Module OrchestratorFacts.
Import JsString Url ErrorHandler Adapters Orchestrator.

Section WithPlatform.
Context `{UrlApi}.

Lemma find_none_unsupported (url : string) :
  (forall a, In a adapters -> adapterSupports a url = false) ->
  find (fun a => adapterSupports a url) adapters = None.
Proof.
  intros Hu. unfold adapters in *. cbn [find].
  rewrite (Hu GreenhouseAdapter), (Hu LeverAdapter); simpl; auto.
Qed.

(** C9: when no registered adapter supports the job URL, [applyJob] returns
    [failed] with [UNSUPPORTED_ATS], no field filled and none failed, and
    the only calls it makes are the two metric updates: no rate-limit wait,
    no download, no browser context, no page. *)
Theorem applyJob_unsupported_ats (env : Env) (input : ApplyJobInput)
  (Hnone : forall a, In a adapters -> adapterSupports a (jobUrl input) = false) :
  applyJob env input
  = (Returned (unsupportedAts (jobUrl input)), [RecordRunStart; RecordRunComplete failed])
  /\ status (unsupportedAts (jobUrl input)) = failed
  /\ errorCode (unsupportedAts (jobUrl input)) = Some "UNSUPPORTED_ATS"
  /\ fieldsFilledCount (unsupportedAts (jobUrl input)) = 0
  /\ fieldsFailed (unsupportedAts (jobUrl input)) = []
  /\ existsb isBrowserWork (snd (applyJob env input)) = false.
Proof.
  assert (E : applyJob env input
              = (Returned (unsupportedAts (jobUrl input)),
                 [RecordRunStart; RecordRunComplete failed])).
  { unfold applyJob, tryBlock. rewrite (find_none_unsupported _ Hnone). reflexivity. }
  rewrite E. repeat split.
Qed.

(** With a supporting adapter the call does reach the browser, unless the
    resume download throws first. *)
Lemma applyJob_supported_creates_context (env : Env) (input : ApplyJobInput)
      (a : ATSAdapter) (resumePath : string) :
  find (fun a => adapterSupports a (jobUrl input)) adapters = Some a ->
  downloadResume env = Returned resumePath ->
  In CreateContext (snd (applyJob env input)).
Proof.
  intros Hf Hd. unfold applyJob.
  assert (Hin : In CreateContext (events (snd (tryBlock env input
                   (mkLocals false false None [RecordRunStart]))))).
  { unfold tryBlock. rewrite Hf, Hd.
    destruct (enableArtifacts env);
      (destruct (createContext env) as [[]|e]; [|simpl; auto 10]);
      (destruct (createPage env) as [[]|e]; [|simpl; auto 10]);
      (destruct (goto env) as [[]|e]; [|simpl; auto 10]);
      repeat match goal with
             | |- context [match ?x with _ => _ end] =>
                 lazymatch x with
                 | context [match _ with _ => _ end] => fail
                 | _ => destruct x
                 end
             end; simpl; auto 20. }
  destruct (tryBlock env input (mkLocals false false None [RecordRunStart]))
    as [[r|e] l]; simpl in Hin.
  - assert (Hfin : forall l0, In CreateContext (events l0) ->
                     In CreateContext (events (snd (finallyBlock env l0)))).
    { intros l0 H0. unfold finallyBlock.
      destruct (context l0); [destruct (closeContext env) as [[]|e']|];
        simpl; repeat (match goal with
                       | |- context [if ?b then _ else _] => destruct b
                       | |- context [match artifactCollector ?l with _ => _ end] =>
                           destruct (artifactCollector l)
                       end; simpl);
        rewrite ?in_app_iff; auto 10. }
    specialize (Hfin l Hin).
    destruct (finallyBlock env l) as [[[]|e] l']; simpl in *; exact Hfin.
  - assert (Hc : In CreateContext (events (snd (catchBlock env input e l)))).
    { unfold catchBlock. simpl.
      destruct (artifactCollector l); [destruct (context l)|]; simpl;
        rewrite ?in_app_iff; auto 10. }
    assert (Hfin : forall l0, In CreateContext (events l0) ->
                     In CreateContext (events (snd (finallyBlock env l0)))).
    { intros l0 H0. unfold finallyBlock.
      destruct (context l0); [destruct (closeContext env) as [[]|e']|];
        simpl; repeat (match goal with
                       | |- context [if ?b then _ else _] => destruct b
                       | |- context [match artifactCollector ?l with _ => _ end] =>
                           destruct (artifactCollector l)
                       end; simpl);
        rewrite ?in_app_iff; auto 10. }
    destruct (catchBlock env input e l) as [r l1]. simpl in Hc.
    specialize (Hfin l1 Hc).
    destruct (finallyBlock env l1) as [[[]|e'] l']; simpl in *; exact Hfin.
Qed.

End WithPlatform.

(** The theorem on the reference platform, for a careers page that is
    neither Greenhouse nor Lever. *)
Lemma applyJob_unsupported_ats_witness :
  @applyJob simpleUrlApi demoEnv (demoInput "https://careers.example.com/jobs/1")
  = (Returned (unsupportedAts "https://careers.example.com/jobs/1"),
     [RecordRunStart; RecordRunComplete failed]).
Proof.
  refine (proj1 (@applyJob_unsupported_ats simpleUrlApi demoEnv
                   (demoInput "https://careers.example.com/jobs/1") _)).
  intros a Ha. destruct a; vm_compute; reflexivity.
Defined.

End OrchestratorFacts.

(** ** The task runner *)

Module RunnerFacts.
Import JsString Url ErrorHandler Runner.

(** *** Row updates *)

Lemma updateRun_lookup (k : string) (patch : Run -> Run) (db : Db) (r : Run) :
  application_runs db !! k = Some r ->
  application_runs (updateRun k patch db) !! k = Some (patch r).
Proof.
  intros Hr. unfold updateRun, setRuns. simpl.
  rewrite lookup_alter_eq, Hr. reflexivity.
Qed.

Lemma updateRun_other (k k' : string) (patch : Run -> Run) (db : Db) :
  k <> k' ->
  application_runs (updateRun k patch db) !! k' = application_runs db !! k'.
Proof.
  intros Hk. unfold updateRun, setRuns. simpl. now rewrite lookup_alter_ne.
Qed.

Lemma failRun_lookup (k code msg : string) (db : Db) (r : Run) :
  application_runs db !! k = Some r ->
  application_runs (failRun k code msg db) !! k = Some (patchFailed (now db) code msg r).
Proof.
  intros Hr. unfold failRun. now apply updateRun_lookup.
Qed.

Lemma failRun_other (k k' code msg : string) (db : Db) :
  k <> k' ->
  application_runs (failRun k code msg db) !! k' = application_runs db !! k'.
Proof.
  intros Hk. unfold failRun. now rewrite updateRun_other.
Qed.



(** *** C2: exceptions inside [processRun] *)

(** Whatever state the [try] block left behind, the [catch] block marks
    the run [failed] with [UNEXPECTED_ERROR] and a finish time. *)
Lemma catchBlock_forces_failed (run : Run) (e : Thrown) (db : Db) (r : Run) :
  application_runs db !! id run = Some r ->
  exists r',
    application_runs (catchBlock run e db) !! id run = Some r'
    /\ status r' = run_failed
    /\ error_code r' = Some "UNEXPECTED_ERROR"
    /\ error_message r' = Some (Adapters.errorText e)
    /\ finished_at r' = Some (now db).
Proof.
  intros Hr. unfold catchBlock.
  exists (patchFailed (now db) "UNEXPECTED_ERROR" (Adapters.errorText e) r).
  split; [|repeat split].
  unfold updateJobStatus, setJobs. simpl.
  apply (failRun_lookup _ _ _ _ _ Hr).
Qed.

Section WithPlatform.
Context `{UrlApi}.

(** When the [try] block throws it has only logged events so far. *)
Lemma tryBlock_throw_state (env : Orchestrator.Env) (run : Run) (db db' : Db) (e : Thrown) :
  tryBlock env run db = (Threw e, db') ->
  application_runs db' = application_runs db /\ now db' = now db.
Proof.
  unfold tryBlock.
  destruct (job_targets db !! job_target_id run) as [job|]; [|discriminate].
  destruct (resumes db !! resume_id run) as [resume|]; [|discriminate].
  destruct (profiles db !! user_id run) as [profile|]; [|discriminate].
  destruct (parseURL (url job)) as [parsed|]; [|intros [= _ <-]; split; reflexivity].
  destruct (match getParam "fail" (searchParams parsed) with
            | Some v => String.eqb v "true" | None => false end); [discriminate|].
  destruct (fst (Orchestrator.applyJob env _)) as [result|e']; [discriminate|].
  intros [= _ <-]. split; reflexivity.
Qed.

(** C2: if an exception is thrown inside the [try] block of [processRun]
    (an unparseable job URL, [applyJob] throwing), the run's row ends with
    status [failed], error code [UNEXPECTED_ERROR] and a [finished_at]
    time, and is not left [running]; the same holds of the [catch] block
    from any state in which the row exists. *)
Theorem processRun_exception_ends_failed (env : Orchestrator.Env) (run : Run)
        (db : Db) (r : Run)
  (Hrow : application_runs db !! id run = Some r) :
  (forall e db',
     tryBlock env run db = (Threw e, db') ->
     exists r',
       application_runs (processRun env run db) !! id run = Some r'
       /\ status r' = run_failed
       /\ status r' <> run_running
       /\ error_code r' = Some "UNEXPECTED_ERROR"
       /\ finished_at r' = Some (now db))
  /\ (forall e db0 r0,
        application_runs db0 !! id run = Some r0 ->
        exists r',
          application_runs (catchBlock run e db0) !! id run = Some r'
          /\ status r' = run_failed
          /\ status r' <> run_running
          /\ error_code r' = Some "UNEXPECTED_ERROR"
          /\ finished_at r' = Some (now db0)).
Proof.
  split.
  - intros e db' Htry. unfold processRun. rewrite Htry.
    destruct (tryBlock_throw_state _ _ _ _ _ Htry) as [Hruns Hnow].
    assert (Hrow' : application_runs db' !! id run = Some r) by now rewrite Hruns.
    destruct (catchBlock_forces_failed run e db' r Hrow') as (r' & A & B & C & _ & D).
    exists r'. rewrite B, <- Hnow. repeat split; auto; discriminate.
  - intros e db0 r0 Hrow0.
    destruct (catchBlock_forces_failed run e db0 r0 Hrow0) as (r' & A & B & C & _ & D).
    exists r'. rewrite B. repeat split; auto; discriminate.
Qed.

End WithPlatform.

(** The theorem on a run whose job URL does not parse: [new URL] throws
    inside [processRun]. *)
Lemma processRun_exception_witness :
  exists r',
    application_runs
      (@processRun simpleUrlApi Orchestrator.demoEnv
         (demoRun "run-1" "job-1" run_running) (demoDb "not a url")) !! "run-1" = Some r'
    /\ status r' = run_failed
    /\ status r' <> run_running
    /\ error_code r' = Some "UNEXPECTED_ERROR"
    /\ finished_at r' = Some 1700000000000%Z.
Proof.
  refine (proj1 (@processRun_exception_ends_failed simpleUrlApi Orchestrator.demoEnv
                   (demoRun "run-1" "job-1" run_running) (demoDb "not a url")
                   (demoRun "run-1" "job-1" run_running) _)
                (Error "Invalid URL")
                (logEvent "run-1" info "Starting application to not a url" None
                          (demoDb "not a url")) _).
  - vm_compute. reflexivity.
  - vm_compute. reflexivity.
Defined.

(** *** C3: persisting the result *)


Section Persisting.
Context `{UrlApi}.

(** [processRun] reaches that chain whenever the three records are found,
    the job URL parses without the test trigger, and [applyJob] returns. *)
Lemma processRun_persists (env : Orchestrator.Env) (run : Run) (db : Db)
      (job : JobTarget) (resume : Resume) (profile : Adapters.ProfileData)
      (parsed : URL) (result : Adapters.ApplyResult) :
  job_targets db !! job_target_id run = Some job ->
  resumes db !! resume_id run = Some resume ->
  profiles db !! user_id run = Some profile ->
  parseURL (url job) = Some parsed ->
  getParam "fail" (searchParams parsed) <> Some "true" ->
  fst (Orchestrator.applyJob env
         (Orchestrator.mkInput (id run) (user_id run) (url job) (ats_type job)
                               (storage_path resume) profile (isDryRun run)))
  = Returned result ->
  exists db', processRun env run db = persistResult run result db'
              /\ application_runs db' = application_runs db
              /\ job_targets db' = job_targets db
              /\ now db' = now db.
Proof.
  intros Hj Hr Hp Hu Hf Ha. unfold processRun, tryBlock.
  rewrite Hj, Hr, Hp, Hu.
  assert (E : match getParam "fail" (searchParams parsed) with
              | Some v => String.eqb v "true" | None => false end = false).
  { destruct (getParam "fail" (searchParams parsed)) as [v|]; [|reflexivity].
    destruct (String.eqb v "true") eqn:Ev; [|reflexivity].
    apply String.eqb_eq in Ev. subst. congruence. }
  rewrite E, Ha. eexists. split; [reflexivity|]. repeat split.
Qed.

End Persisting.


(** *** C5: claiming *)

(** The conditional update succeeds exactly on a row that is still queued,
    which it turns to [running]; otherwise it changes nothing and answers
    [None]. *)
Lemma claimUpdate_cases (k : string) (d : Db) :
  (exists q, application_runs d !! k = Some q /\ isQueued q = true
             /\ claimUpdate k d
                = (setRuns (<[k := patchClaimed (now d) q]> (application_runs d)) d,
                   Some (patchClaimed (now d) q)))
  \/ ((forall q, application_runs d !! k = Some q -> isQueued q = false)
      /\ claimUpdate k d = (d, None)).
Proof.
  unfold claimUpdate. destruct (application_runs d !! k) as [q|] eqn:E.
  - destruct (isQueued q) eqn:Eq.
    + left. exists q. auto.
    + right. split; [|reflexivity]. intros q' [= <-]. exact Eq.
  - right. split; [|reflexivity]. intros q' [=].
Qed.

Lemma isQueued_status (q : Run) : isQueued q = true <-> status q = run_queued.
Proof. unfold isQueued. destruct (status q); split; intros; congruence. Qed.

(** Replacing a worker's state by one that holds no claimed run, the
    database being left alone, keeps the invariant. *)
Lemma claimInvariant_no_win (s : System) (i : nat) (w : Worker) :
  claimInvariant s ->
  (forall a, w <> Finished (Some a)) ->
  claimInvariant (mkSystem (db s) (<[i := w]> (workers s))).
Proof.
  intros (Hkey & Hdone & Hdist) Hw.
  split; [exact Hkey|]. split; simpl.
  - intros j a Hj.
    apply list_lookup_insert_Some in Hj as [(_ & Hx & _) | (_ & Hj)];
      [now apply Hw in Hx | eauto].
  - intros j k a b Hjk Hj Hk.
    apply list_lookup_insert_Some in Hj as [(_ & Hx & _) | (_ & Hj)];
      [now apply Hw in Hx|].
    apply list_lookup_insert_Some in Hk as [(_ & Hx & _) | (_ & Hk)];
      [now apply Hw in Hx|].
    eauto.
Qed.

(** A successful conditional update by worker [i] keeps the invariant: the
    row it claims was queued, so no other worker had won it. *)
Lemma claimInvariant_win (s : System) (i : nat) (r q : Run) :
  claimInvariant s ->
  application_runs (db s) !! id r = Some q ->
  isQueued q = true ->
  claimInvariant
    (mkSystem (logEvent (id (patchClaimed (now (db s)) q)) info
                        "Run claimed by worker" None
                        (setRuns (<[id r := patchClaimed (now (db s)) q]>
                                    (application_runs (db s))) (db s)))
              (<[i := Finished (Some (patchClaimed (now (db s)) q))]> (workers s))).
Proof.
  intros (Hkey & Hdone & Hdist) Hq Hqueued.
  assert (Hidq : id q = id r) by (apply Hkey; exact Hq).
  assert (Hfresh : forall j a, workers s !! j = Some (Finished (Some a)) -> id r <> id a).
  { intros j a Hj E. destruct (Hdone j a Hj) as (q' & Hq' & Hnq).
    rewrite <- E, Hq in Hq'. injection Hq' as <-. congruence. }
  split; [|split]; simpl.
  - intros k x Hk. simpl in Hk. destruct (decide (id r = k)) as [<- | Hne].
    + rewrite lookup_insert_eq in Hk. injection Hk as <-. exact Hidq.
    + rewrite lookup_insert_ne in Hk by exact Hne. now apply Hkey.
  - intros j a Hj.
    apply list_lookup_insert_Some in Hj as [(_ & Hx & _) | (_ & Hj)].
    + injection Hx as <-. simpl. rewrite Hidq, lookup_insert_eq.
      eexists. split; reflexivity.
    + rewrite lookup_insert_ne by exact (Hfresh j a Hj). eauto.
  - intros j k a b Hjk Hj Hk.
    apply list_lookup_insert_Some in Hj as [(Eij & Hx & _) | (_ & Hj)];
      apply list_lookup_insert_Some in Hk as [(Eik & Hy & _) | (_ & Hk)].
    + congruence.
    + injection Hx as <-. simpl. rewrite Hidq. exact (Hfresh k b Hk).
    + injection Hy as <-. simpl. rewrite Hidq. intros E.
      exact (Hfresh j a Hj (eq_sym E)).
    + eauto.
Qed.

Lemma claimInvariant_step (s s' : System) :
  claimInvariant s -> step s s' -> claimInvariant s'.
Proof.
  intros Hinv Hstep.
  destruct Hstep as [s i r Hi Hr Hq | s i Hi | s i r Hi | s i r Hi];
    try (apply claimInvariant_no_win; [exact Hinv | discriminate]).
  destruct (claimUpdate_cases (id r) (db s)) as [(q & Hq & Hqueued & Hc) | (_ & Hc)];
    rewrite Hc.
  - now apply claimInvariant_win.
  - apply claimInvariant_no_win; [exact Hinv | discriminate].
Qed.

Lemma claimInvariant_initial (db0 : Db) (n : nat) :
  keyedById db0 -> claimInvariant (mkSystem db0 (replicate n Idle)).
Proof.
  intros Hkey. split; [exact Hkey|]. split.
  - intros i a Hi. simpl in Hi. apply lookup_replicate in Hi as [Hx _]. discriminate.
  - intros i j a b _ Hi. simpl in Hi. apply lookup_replicate in Hi as [Hx _]. discriminate.
Qed.

Lemma claimInvariant_steps (s s' : System) :
  claimInvariant s -> steps s s' -> claimInvariant s'.
Proof.
  intros Hinv Hsteps. induction Hsteps as [s | s1 s2 s3 _ IH Hstep]; [exact Hinv|].
  eapply claimInvariant_step; [apply IH; exact Hinv | exact Hstep].
Qed.

(** C5: [claimRun] moves a run from [queued] to [running] only through
    the conditional update, which succeeds only on a row still [queued] at
    that moment; so, however the statements of [n] workers interleave, no
    two of them obtain the same run; and a worker whose fetched run is no
    longer queued when its update runs gets [None] (no error), the database
    being left as it was. *)
Theorem claimRun_exclusive (db0 : Db) (n : nat) (s : System)
  (Hkeys : keyedById db0)
  (Hreach : steps (mkSystem db0 (replicate n Idle)) s) :
  (* the guard *)
  (forall k d d' claimed,
     claimUpdate k d = (d', Some claimed) ->
     exists q, application_runs d !! k = Some q /\ status q = run_queued
               /\ status claimed = run_running
               /\ application_runs d' !! k = Some claimed)
  (* at most one winner per run *)
  /\ (forall i j a b, i <> j ->
        workers s !! i = Some (Finished (Some a)) ->
        workers s !! j = Some (Finished (Some b)) ->
        id a <> id b)
  (* a run that was won is no longer queued *)
  /\ (forall i a, workers s !! i = Some (Finished (Some a)) ->
        exists q, application_runs (db s) !! id a = Some q /\ status q <> run_queued)
  (* losing the race *)
  /\ (forall r q,
        application_runs (db s) !! id r = Some q -> status q <> run_queued ->
        afterClaim (claimUpdate (id r) (db s)) = (db s, None)).
Proof.
  pose proof (claimInvariant_steps _ _ (claimInvariant_initial db0 n Hkeys) Hreach)
    as (Hkey & Hdone & Hdist).
  split; [|split; [|split]].
  - intros k d d' claimed Hc.
    destruct (claimUpdate_cases k d) as [(q & Hq & Hqueued & Hc') | (_ & Hc')];
      rewrite Hc' in Hc; [|discriminate].
    injection Hc as <- <-. exists q. simpl. rewrite lookup_insert_eq.
    apply isQueued_status in Hqueued. auto.
  - exact Hdist.
  - intros i a Hi. destruct (Hdone i a Hi) as (q & Hq & Hnq).
    exists q. split; [exact Hq|]. intros E. apply isQueued_status in E. congruence.
  - intros r q Hq Hnq.
    destruct (claimUpdate_cases (id r) (db s)) as [(q' & Hq' & Hqueued & _) | (_ & Hc)].
    + rewrite Hq in Hq'. injection Hq' as <-. apply isQueued_status in Hqueued.
      contradiction.
    + rewrite Hc. reflexivity.
Qed.

(** Both workers fetch the run, then worker 0 updates, then worker 1. *)
Lemma race_reachable : steps (mkSystem demoQueue (replicate 2 Idle)) raceEnd.
Proof.
  pose (r0 := demoRun "run-1" "job-1" run_queued).
  pose (s0 := mkSystem demoQueue [Idle; Idle]).
  pose (s1 := mkSystem demoQueue [Fetched r0; Idle]).
  pose (s2 := mkSystem demoQueue [Fetched r0; Fetched r0]).
  pose (s3 := mkSystem (fst (afterClaim (claimUpdate "run-1" demoQueue)))
                       [Finished (snd (afterClaim (claimUpdate "run-1" demoQueue)));
                        Fetched r0]).
  assert (H01 : step s0 s1) by (apply (step_fetch s0 0 r0); reflexivity).
  assert (H12 : step s1 s2) by (apply (step_fetch s1 1 r0); reflexivity).
  assert (H23 : step s2 s3) by (apply (step_claim s2 0 r0); reflexivity).
  assert (H34 : step s3 raceEnd).
  { pose proof (step_claim s3 1 r0 eq_refl) as Hs.
    assert (E : mkSystem (fst (afterClaim (claimUpdate (id r0) (db s3))))
                         (<[1 := Finished (snd (afterClaim (claimUpdate (id r0) (db s3))))]>
                            (workers s3)) = raceEnd)
      by (vm_compute; reflexivity).
    rewrite E in Hs. exact Hs. }
  exact (steps_step _ _ _ (steps_step _ _ _ (steps_step _ _ _
           (steps_step _ _ _ (steps_refl s0) H01) H12) H23) H34).
Qed.

Lemma demoQueue_keyed : keyedById demoQueue.
Proof.
  intros k r Hk. unfold demoQueue in Hk. simpl in Hk.
  apply lookup_insert_Some in Hk as [[<- <-] | [_ Hk]]; [reflexivity|].
  rewrite lookup_empty in Hk. discriminate.
Qed.

Lemma claimRun_exclusive_witness :
  (exists a, workers raceEnd !! 0 = Some (Finished (Some a)) /\ id a = "run-1"
             /\ status a = run_running)
  /\ workers raceEnd !! 1 = Some (Finished None)
  /\ exists q, application_runs (db raceEnd) !! "run-1" = Some q
               /\ status q <> run_queued.
Proof.
  split; [eexists; repeat split|]. split; [vm_compute; reflexivity|].
  exact (proj1 (proj2 (proj2 (claimRun_exclusive demoQueue 2 raceEnd
                                 demoQueue_keyed race_reachable)))
               0 (patchClaimed (now demoQueue) (demoRun "run-1" "job-1" run_queued))
               eq_refl).
Defined.

End RunnerFacts.

(** ** More facts about the string primitives *)

Module JsStringMore.
Import JsString.

Lemma append_cons (c : ascii) (s t : string) :
  String c s +:+ t = String c (s +:+ t).
Proof. reflexivity. Qed.

Lemma append_nil_l (t : string) : "" +:+ t = t.
Proof. reflexivity. Qed.

Lemma append_nil_r (s : string) : s +:+ "" = s.
Proof.
  induction s as [|c s IH]; [reflexivity|]. now rewrite append_cons, IH.
Qed.

Lemma append_assoc (a b c : string) : (a +:+ b) +:+ c = a +:+ (b +:+ c).
Proof.
  induction a as [|x a IH]; [reflexivity|]. now rewrite !append_cons, IH.
Qed.

Lemma toLowerCase_app (a b : string) :
  toLowerCase (a +:+ b) = toLowerCase a +:+ toLowerCase b.
Proof.
  induction a as [|x a IH]; [reflexivity|].
  rewrite append_cons. simpl. now rewrite IH, append_cons.
Qed.

(** [startsWith] is "has this prefix". *)
Lemma startsWith_iff (s p : string) :
  startsWith s p = true <-> exists t, s = p +:+ t.
Proof.
  revert s. induction p as [|a p IH]; intros s.
  - split; [intros _; exists s; reflexivity | intros _; destruct s; reflexivity].
  - destruct s as [|b s]; simpl.
    + split; [discriminate | intros [t Ht]; discriminate].
    + rewrite andb_true_iff, Ascii.eqb_eq, IH. split.
      * intros [-> [t ->]]. exists t. reflexivity.
      * intros [t Ht]. rewrite append_cons in Ht. injection Ht as -> ->.
        split; [reflexivity | exists t; reflexivity].
Qed.

(** [includes] is "occurs somewhere". *)
Lemma includes_iff (s p : string) :
  includes s p = true <-> exists a b, s = a +:+ p +:+ b.
Proof.
  induction s as [|c s IH].
  - destruct p as [|x p]; simpl.
    + split; [intros _; exists "", ""; reflexivity | reflexivity].
    + split; [discriminate|]. intros [a [b Hab]]. destruct a; discriminate.
  - change (includes (String c s) p)
      with (startsWith (String c s) p || includes s p).
    rewrite orb_true_iff, startsWith_iff, IH. split.
    + intros [[t Ht] | [a [b Hab]]].
      * exists "", t. exact Ht.
      * exists (String c a), b. rewrite append_cons. now rewrite Hab.
    + intros [a [b Hab]]. destruct a as [|x a].
      * left. exists b. exact Hab.
      * right. rewrite append_cons in Hab. injection Hab as -> ->.
        exists a, b. reflexivity.
Qed.

Lemma includes_trans (s p q : string) :
  includes s p = true -> includes p q = true -> includes s q = true.
Proof.
  rewrite !includes_iff. intros [a [b ->]] [c [d ->]].
  exists (a +:+ c), (d +:+ b). now rewrite !append_assoc.
Qed.

Lemma includes_toLowerCase (s p : string) :
  includes s p = true -> includes (toLowerCase s) (toLowerCase p) = true.
Proof.
  rewrite !includes_iff. intros [a [b ->]].
  exists (toLowerCase a), (toLowerCase b). now rewrite !toLowerCase_app.
Qed.

Lemma includes_false_sub (s p q : string) :
  includes s q = false -> includes p q = true -> includes s p = false.
Proof.
  intros Hq Hpq. destruct (includes s p) eqn:E; [|reflexivity].
  rewrite (includes_trans _ _ _ E Hpq) in Hq. discriminate.
Qed.

End JsStringMore.

(** ** ATS detection *)

Module AtsDetectFacts.
Import JsString JsStringFacts JsStringMore Url AtsDetect.

Section WithPlatform.
Context `{UrlApi}.

(** Without a supporting adapter [applyJob] stops at once. *)
Lemma applyJob_no_adapter (env : Orchestrator.Env) (input : Orchestrator.ApplyJobInput) :
  find (fun a => Adapters.adapterSupports a (Orchestrator.jobUrl input))
       Orchestrator.adapters = None ->
  Orchestrator.applyJob env input
  = (ErrorHandler.Returned (Orchestrator.unsupportedAts (Orchestrator.jobUrl input)),
     [Orchestrator.RecordRunStart; Orchestrator.RecordRunComplete Adapters.failed]).
Proof.
  intros Hf. unfold Orchestrator.applyJob, Orchestrator.tryBlock. rewrite Hf. reflexivity.
Qed.

(** X1: The web application's detection and the worker's registry agree on
    every URL whose host is in lower case (as the URL parser leaves it): the
    adapter the worker picks serves the detected type, and a URL detected as
    [workday] or [unknown] finds no adapter, so that [applyJob] answers
    [UNSUPPORTED_ATS] for it without any browser work. *)
Theorem detectAtsType_matches_registry (url : string) (p : URL)
  (Hparse : parseURL url = Some p)
  (Hlower : toLowerCase (host p) = host p) :
  (forall a,
     find (fun a => Adapters.adapterSupports a url) Orchestrator.adapters = Some a ->
     detectAtsType url = atsOfAdapter a)
  /\ (detectAtsType url = workday \/ detectAtsType url = unknown ->
      find (fun a => Adapters.adapterSupports a url) Orchestrator.adapters = None)
  /\ (forall env input,
        Orchestrator.jobUrl input = url ->
        detectAtsType url = workday \/ detectAtsType url = unknown ->
        Orchestrator.applyJob env input
        = (ErrorHandler.Returned (Orchestrator.unsupportedAts url),
           [Orchestrator.RecordRunStart; Orchestrator.RecordRunComplete Adapters.failed])).
Proof.
  assert (Hg : Adapters.Greenhouse.supports url = includes (host p) "greenhouse.io").
  { unfold Adapters.Greenhouse.supports. rewrite Hparse.
    destruct (includes (host p) "greenhouse.io") eqn:E; [reflexivity|].
    simpl. apply (includes_false_sub _ _ _ E). reflexivity. }
  assert (Hl : Adapters.Lever.supports url = includes (host p) "lever.co").
  { unfold Adapters.Lever.supports. rewrite Hparse.
    destruct (includes (host p) "lever.co") eqn:E; [reflexivity|].
    simpl. apply (includes_false_sub _ _ _ E). reflexivity. }
  assert (Hfind : find (fun a => Adapters.adapterSupports a url) Orchestrator.adapters
                  = if includes (host p) "greenhouse.io" then Some Adapters.GreenhouseAdapter
                    else if includes (host p) "lever.co" then Some Adapters.LeverAdapter
                    else None).
  { unfold Orchestrator.adapters. cbn [find Adapters.adapterSupports].
    rewrite Hg, Hl. reflexivity. }
  assert (Hdet : forall t, detectAtsType url = t ->
            (t = workday \/ t = unknown) ->
            includes (host p) "greenhouse.io" = false
            /\ includes (host p) "lever.co" = false).
  { intros t Ht Hwu. unfold detectAtsType in Ht. rewrite Hparse, Hlower in Ht.
    cbv zeta in Ht.
    destruct (includes (host p) "greenhouse.io");
      [destruct Hwu; subst; discriminate|].
    destruct (includes (host p) "lever.co");
      [destruct Hwu; subst; discriminate|]. split; reflexivity. }
  split; [|split].
  - intros a Ha. rewrite Hfind in Ha. unfold detectAtsType.
    rewrite Hparse, Hlower. cbv zeta.
    destruct (includes (host p) "greenhouse.io"); [now injection Ha as <-|].
    destruct (includes (host p) "lever.co"); [now injection Ha as <-|discriminate].
  - intros Hwu. rewrite Hfind.
    assert (Hn : includes (host p) "greenhouse.io" = false
                 /\ includes (host p) "lever.co" = false).
    { destruct Hwu as [E|E]; eapply Hdet; eauto. }
    destruct Hn as [-> ->]. reflexivity.
  - intros env input Hurl Hwu. rewrite <- Hurl. apply applyJob_no_adapter.
    rewrite Hurl, Hfind.
    assert (Hn : includes (host p) "greenhouse.io" = false
                 /\ includes (host p) "lever.co" = false).
    { destruct Hwu as [E|E]; eapply Hdet; eauto. }
    destruct Hn as [-> ->]. reflexivity.
Qed.

(** X2: [normalizeUrl] keeps the detected type whenever the type is read off
    the host, or the path has no trailing slash to lose (and the platform
    reads the normalized URL back as it printed it). *)
Theorem detectAtsType_after_normalizeUrl (url : string) (p : URL)
  (Hparse : parseURL url = Some p)
  (Hreread : parseURL (href (normalizeParsed p)) = Some (normalizeParsed p))
  (Hstable : detectedByHost p = true \/ trimTrailingSlash (pathname p) = pathname p) :
  detectAtsType (normalizeUrl url) = detectAtsType url.
Proof.
  unfold normalizeUrl. rewrite Hparse. unfold detectAtsType.
  rewrite Hreread, Hparse, UrlFacts.normalizeParsed_fields. cbn [host pathname].
  rewrite toLowerCase_idem.
  destruct Hstable as [Hh | Hp].
  - unfold detectedByHost in Hh.
    destruct (includes (toLowerCase (host p)) "greenhouse.io"); [reflexivity|].
    destruct (includes (toLowerCase (host p)) "lever.co"); [reflexivity|].
    simpl in Hh. rewrite Hh. reflexivity.
  - rewrite Hp. reflexivity.
Qed.

End WithPlatform.

(** The two theorems on the reference platform. *)
Lemma detectAtsType_matches_registry_witness :
  @detectAtsType simpleUrlApi "https://jobs.lever.co/acme/42" = lever
  /\ find (fun a => @Adapters.adapterSupports simpleUrlApi a "https://acme.wd5.myworkdayjobs.com/careers/job/42")
          Orchestrator.adapters = None.
Proof.
  split.
  - exact (proj1 (@detectAtsType_matches_registry simpleUrlApi
                    "https://jobs.lever.co/acme/42"
                    (mkURL "https:" "jobs.lever.co" "jobs.lever.co" "/acme/42" [] "")
                    eq_refl eq_refl)
                 Adapters.LeverAdapter eq_refl).
  - apply (proj1 (proj2 (@detectAtsType_matches_registry simpleUrlApi
                    "https://acme.wd5.myworkdayjobs.com/careers/job/42"
                    (mkURL "https:" "acme.wd5.myworkdayjobs.com" "acme.wd5.myworkdayjobs.com"
                           "/careers/job/42" [] "")
                    eq_refl eq_refl))).
    left. vm_compute. reflexivity.
Defined.

Lemma detectAtsType_after_normalizeUrl_witness :
  @detectAtsType simpleUrlApi
     (@normalizeUrl simpleUrlApi "https://Boards.Greenhouse.io/acme/jobs/7/?utm_source=x")
  = @detectAtsType simpleUrlApi "https://Boards.Greenhouse.io/acme/jobs/7/?utm_source=x".
Proof.
  apply (@detectAtsType_after_normalizeUrl simpleUrlApi
           "https://Boards.Greenhouse.io/acme/jobs/7/?utm_source=x"
           (mkURL "https:" "boards.greenhouse.io" "boards.greenhouse.io"
                  "/acme/jobs/7/" [("utm_source", "x")] "")
           eq_refl eq_refl).
  left. vm_compute. reflexivity.
Defined.

(** A type read off the path can be lost: the trailing slash of
    ["/greenhouse/"] is what the path test looks for. *)
Example detectAtsType_lost_by_normalizeUrl :
  @detectAtsType simpleUrlApi "https://careers.acme.com/greenhouse/" = greenhouse
  /\ @normalizeUrl simpleUrlApi "https://careers.acme.com/greenhouse/"
     = "https://careers.acme.com/greenhouse"
  /\ @detectAtsType simpleUrlApi "https://careers.acme.com/greenhouse" = unknown.
Proof. repeat split; vm_compute; reflexivity. Qed.

End AtsDetectFacts.

(** ** More on the orchestrator *)

Module OrchestratorMore.
Import JsString Url ErrorHandler Adapters Orchestrator OrchestratorTrace.

(** Case analysis on the innermost scrutinee of the goal. *)
Ltac break_inner :=
  match goal with
  | |- context [match ?x with _ => _ end] =>
      lazymatch x with
      | context [match _ with _ => _ end] => fail
      | _ => destruct x eqn:?
      end
  end.


Section WithPlatform.
Context `{UrlApi}.

(** X3: [applyJob] throws only what [context.close()] throws in its [finally]
    block (the removal of the temporary directory, in the same block, is
    taken not to fail); and whatever happens it records the start of the
    run once and its completion once. *)
Theorem applyJob_throws_only_from_close (env : Env) (input : ApplyJobInput) :
  (forall e, fst (applyJob env input) = Threw e ->
     closeContext env = Threw e /\ In CloseContext (snd (applyJob env input)))
  /\ (forall u, closeContext env = Returned u ->
        exists r, fst (applyJob env input) = Returned r)
  /\ length (List.filter isRunStart (snd (applyJob env input))) = 1
  /\ length (List.filter isRunComplete (snd (applyJob env input))) = 1.
Proof.
  unfold applyJob, tryBlock, catchBlock, finallyBlock.
  destruct (find (fun a => adapterSupports a (jobUrl input)) adapters) as [a|].
  2:{ simpl. repeat split; try discriminate. intros u _. eexists. reflexivity. }
  destruct (adapterApply a (dryRun input || globalDryRun env) (page env)) as [res steps].
  repeat break_inner; simpl;
    repeat split; try discriminate; try congruence; eauto;
    try (intros e0 [= <-]; split; [congruence | simpl; tauto]); try tauto.
Qed.

End WithPlatform.

End OrchestratorMore.

(** ** Cleanup, blocking conditions and dry runs in [applyJob] *)

Module OrchestratorCleanup.
Import JsString Url ErrorHandler Adapters Orchestrator OrchestratorTrace.
Import OrchestratorMore OrchestratorExamples.

Section WithPlatform.
Context `{UrlApi}.


(** X5: A blocking condition found before the adapter runs ends the call:
    the adapter is never invoked, and a result that is returned is
    [blocked] with the condition's code and message and no field filled
    (unless the worker uses Browserbase and the condition is a CAPTCHA). *)
Theorem applyJob_blocked_before_adapter (env : Env) (input : ApplyJobInput)
        (bc : ClassifiedError)
  (Hbc : detectBlockingCondition env = Some bc)
  (Hnot : isUsingBrowserbase env && String.eqb (code bc) "CAPTCHA_DETECTED" = false) :
  existsb isAdapterApply (snd (applyJob env input)) = false
  /\ (forall r, fst (applyJob env input) = Returned r ->
        In DetectBlockingCondition (snd (applyJob env input)) ->
        status r = blocked /\ errorCode r = Some (code bc)
        /\ errorMessage r = Some (message bc)
        /\ fieldsFilledCount r = 0 /\ fieldsFailed r = []
        /\ In (RecordRunComplete blocked) (snd (applyJob env input))).
Proof.
  unfold applyJob, tryBlock, catchBlock, finallyBlock.
  rewrite Hbc, Hnot.
  destruct (find (fun a => adapterSupports a (jobUrl input)) adapters) as [a|].
  2:{ simpl. split; [reflexivity|]. intros r _ Hin. simpl in Hin.
      intuition discriminate. }
  repeat break_inner; simpl;
    (split; [reflexivity|]); intros r Hr Hin; simpl in Hin;
    try discriminate; try (exfalso; intuition discriminate);
    injection Hr as <-; simpl; repeat split; tauto.
Qed.



(** X8: When artifacts are collected and uploaded, the screenshots of the
    returned result are storage paths: each one is [runs/<runId>/<file>]
    for a screenshot of the adapter whose file exists and whose upload
    succeeded; screenshots that were not uploaded are dropped. *)
Theorem applyJob_screenshots_are_storage_paths
        (env : Env) (input : ApplyJobInput) (a : ATSAdapter) (resumePath : string)
  (Hfind : find (fun a => adapterSupports a (jobUrl input)) adapters = Some a)
  (Hdl : downloadResume env = Returned resumePath)
  (Hctx : createContext env = Returned tt)
  (Hpage : createPage env = Returned tt)
  (Hgoto : goto env = Returned tt)
  (Hbc : detectBlockingCondition env = None)
  (Hart : enableArtifacts env = true)
  (Hup : uploadArtifactsEnabled env = true) :
  forall r, fst (applyJob env input) = Returned r ->
    forall s, In s (screenshots r) ->
      exists p,
        In p (screenshots (fst (adapterApply a (dryRun input || globalDryRun env)
                                             (page env))))
        /\ fileExists env p = true /\ uploadSucceeds env p = true
        /\ s = "runs/" +:+ runId input +:+ "/" +:+ basename p.
Proof.
  unfold applyJob, tryBlock, catchBlock, finallyBlock.
  rewrite Hfind, Hdl, Hctx, Hpage, Hgoto, Hbc, Hart.
  destruct (adapterApply a (dryRun input || globalDryRun env) (page env)) as [res steps].
  cbn [artifactCollector emit setCollector setContext setTempDir].
  rewrite Hup. cbn [app fst snd].
  assert (Hshots : forall s,
    In s (map storageOrLocal
            (List.filter (fun a0 => isScreenshot a0 && hasStoragePath a0)
               (uploadArtifacts env (runId input)
                  (map (fun p => mkArtifact screenshot p None)
                       (List.filter (fun p => fileExists env p) (screenshots res)))))) ->
    exists p, In p (screenshots res) /\ fileExists env p = true
              /\ uploadSucceeds env p = true
              /\ s = "runs/" +:+ runId input +:+ "/" +:+ basename p).
  { intros s Hs. apply in_map_iff in Hs as [art [<- Hart']].
    apply filter_In in Hart' as [Hin Hok].
    unfold uploadArtifacts in Hin. apply in_map_iff in Hin as [art0 [Hart0 Hin0]].
    apply in_map_iff in Hin0 as [p [<- Hp]].
    apply filter_In in Hp as [Hp Hex]. simpl in Hart0.
    exists p. rewrite Hex in *. simpl in Hart0.
    destruct (uploadSucceeds env p) eqn:Eu.
    - subst art. repeat split; auto.
    - subst art. simpl in Hok. discriminate. }
  destruct (closeContext env) as [[]|e]; simpl; intros r Hr; try discriminate.
  injection Hr as <-. simpl. exact Hshots.
Qed.

End WithPlatform.

(** A blocked Greenhouse page on the reference platform. *)
Lemma applyJob_blocked_before_adapter_witness :
  existsb isAdapterApply
    (snd (@applyJob simpleUrlApi blockedEnv
            (demoInput "https://boards.greenhouse.io/acme/jobs/1"))) = false.
Proof.
  refine (proj1 (@applyJob_blocked_before_adapter simpleUrlApi blockedEnv
                   (demoInput "https://boards.greenhouse.io/acme/jobs/1")
                   PageChecks.alreadyAppliedCondition _ _)); reflexivity.
Defined.



Lemma applyJob_screenshots_are_storage_paths_witness :
  exists p,
    In p (screenshots (fst (adapterApply GreenhouseAdapter false
                                         (page demoEnv))))
    /\ fileExists demoEnv p = true /\ uploadSucceeds demoEnv p = true
    /\ "runs/run-1/shot-pre-submit.png" = "runs/" +:+ "run-1" +:+ "/" +:+ basename p.
Proof.
  refine (@applyJob_screenshots_are_storage_paths simpleUrlApi demoEnv
            (demoInput "https://boards.greenhouse.io/acme/jobs/1")
            GreenhouseAdapter "/tmp/resume-1/cv.pdf" _ _ _ _ _ _ _ _
            _ _ "runs/run-1/shot-pre-submit.png" _); try reflexivity.
  vm_compute. auto.
Defined.

End OrchestratorCleanup.

(** ** Classification, page checks and waiting *)

Module ErrorHandlerMore.
Import JsString ErrorHandler PageChecks JsStringMore.

Lemma classifyError_ceiling (e : Thrown) :
  retryable (classifyError e) = true -> 1 <= maxRetries (classifyError e) <= 3.
Proof.
  destruct e as [m|m|v]; simpl.
  - intros _. lia.
  - repeat match goal with
           | |- context [if ?b then _ else _] => destruct b; simpl
           end; intros Hr; try discriminate Hr; lia.
  - discriminate.
Qed.

(** X9: Every classification the module produces is consistent: it is
    retryable exactly when it allows at least one retry.  The conditions
    read off a page carry no original error; an HTTP status is retryable
    from 500 on. *)
Theorem classification_consistent :
  (forall e, consistent (classifyError e) = true)
  /\ (forall page c, detectBlockingCondition page = Some c ->
        consistent c = true /\ originalError c = None
        /\ In (code c) ["CAPTCHA_DETECTED"; "RATE_LIMITED"; "ALREADY_APPLIED";
                        "ACCESS_BLOCKED"])
  /\ (forall response page c, safeNavigate response page = Some c ->
        consistent c = true)
  /\ (forall status page c,
        safeNavigate (Returned (Some status)) page = Some c ->
        category c = NETWORK ->
        400 <= status /\ retryable c = (500 <=? status)%nat).
Proof.
  assert (Hc : forall e, consistent (classifyError e) = true).
  { intros [m|m|v]; simpl; try reflexivity.
    repeat match goal with
           | |- context [if ?b then _ else _] => destruct b; simpl
           end; reflexivity. }
  assert (Hd : forall page c, detectBlockingCondition page = Some c ->
             consistent c = true /\ originalError c = None
             /\ In (code c) ["CAPTCHA_DETECTED"; "RATE_LIMITED"; "ALREADY_APPLIED";
                             "ACCESS_BLOCKED"]
             /\ category c <> NETWORK).
  { intros page c. unfold detectBlockingCondition.
    destruct (textContentBody page) as [body|]; [|discriminate].
    destruct (captchaChallenge page) as [h1|]; [|discriminate].
    destruct (visibleRecaptcha page) as [h2|]; [|discriminate].
    destruct (captchaOverlay page) as [h3|]; [|discriminate].
    repeat match goal with
           | |- context [if ?b then _ else _] => destruct b
           end; intros [= <-]; simpl; repeat split; auto; discriminate. }
  repeat apply conj.
  - exact Hc.
  - intros page c Hp. destruct (Hd page c Hp) as (? & ? & ? & _). auto.
  - intros response page c. unfold safeNavigate.
    destruct response as [[status|]|e].
    + destruct (400 <=? status)%nat eqn:E4.
      * intros [= <-]. unfold consistent, httpError. cbn [retryable maxRetries].
        destruct (500 <=? status)%nat; reflexivity.
      * intros Hp. now destruct (Hd page c Hp).
    + intros [= <-]. reflexivity.
    + intros [= <-]. apply Hc.
  - intros status page c. unfold safeNavigate.
    destruct (400 <=? status)%nat eqn:E4.
    + intros [= <-] _. apply Nat.leb_le in E4. split; [exact E4 | reflexivity].
    + intros Hp Hn. destruct (Hd page c Hp) as (_ & _ & _ & Hne). contradiction.
Qed.

Lemma includesAny_app (t a b : string) (phrases : list string) :
  includesAny (toLowerCase t) phrases = true ->
  includesAny (toLowerCase (a +:+ t +:+ b)) phrases = true.
Proof.
  unfold includesAny. rewrite !existsb_exists. intros [p [Hp Hin]].
  exists p. split; [exact Hp|].
  apply includes_iff in Hin as [x [y Hxy]]. apply includes_iff.
  rewrite !toLowerCase_app, Hxy.
  exists (toLowerCase a +:+ x), (y +:+ toLowerCase b).
  now rewrite !append_assoc.
Qed.

Lemma toLowerCase_orStr (s : string) :
  toLowerCase (orStr (Some s) "") = toLowerCase s.
Proof. destruct s; reflexivity. Qed.

(** X10: [detectBlockingCondition] reads the body text without regard to case,
    takes a missing body for an empty one, answers [null] as soon as one
    of its page queries rejects, whatever the text says, and is monotone
    in the text: a page that is blocked stays blocked when text is added
    around its body. *)
Theorem detectBlockingCondition_text (page : Probe) (t : string) :
  detectBlockingCondition (withBody (Some (toLowerCase t)) page)
  = detectBlockingCondition (withBody (Some t) page)
  /\ detectBlockingCondition (withBody None page)
     = detectBlockingCondition (withBody (Some "") page)
  /\ (forall e, captchaOverlay page = Threw e ->
        detectBlockingCondition (withBody (Some t) page) = None)
  /\ (forall a b c,
        detectBlockingCondition (withBody (Some t) page) = Some c ->
        exists c', detectBlockingCondition (withBody (Some (a +:+ t +:+ b)) page)
                   = Some c').
Proof.
  repeat apply conj.
  - unfold detectBlockingCondition, withBody. cbn [textContentBody].
    now rewrite !toLowerCase_orStr, JsStringFacts.toLowerCase_idem.
  - reflexivity.
  - intros e He. unfold detectBlockingCondition, withBody. simpl. rewrite He.
    destruct (captchaChallenge page); [destruct (visibleRecaptcha page)|]; reflexivity.
  - intros a b c. unfold detectBlockingCondition, withBody.
    cbn [textContentBody pageUrl captchaChallenge visibleRecaptcha captchaOverlay].
    destruct (captchaChallenge page) as [h1|]; [|discriminate].
    destruct (visibleRecaptcha page) as [h2|]; [|discriminate].
    destruct (captchaOverlay page) as [h3|]; [|discriminate].
    rewrite !toLowerCase_orStr.
    pose proof (includesAny_app t a b challengePhrases) as M1.
    pose proof (includesAny_app t a b rateLimitPhrases) as M2.
    pose proof (includesAny_app t a b alreadyAppliedPhrases) as M3.
    pose proof (includesAny_app t a b accessDeniedPhrases) as M4.
    destruct (includesAny (toLowerCase (a +:+ t +:+ b)) challengePhrases);
      [rewrite !orb_true_r; eauto|].
    destruct (includesAny (toLowerCase (a +:+ t +:+ b)) rateLimitPhrases);
      [destruct (h1 || h2 || h3 || false); eauto|].
    destruct (includesAny (toLowerCase (a +:+ t +:+ b)) alreadyAppliedPhrases);
      [destruct (h1 || h2 || h3 || false); eauto|].
    destruct (includesAny (toLowerCase (a +:+ t +:+ b)) accessDeniedPhrases);
      [destruct (h1 || h2 || h3 || false); simpl; eauto|].
    destruct (includesAny (toLowerCase t) challengePhrases);
      [specialize (M1 eq_refl); discriminate|].
    destruct (includesAny (toLowerCase t) rateLimitPhrases);
      [specialize (M2 eq_refl); discriminate|].
    destruct (includesAny (toLowerCase t) alreadyAppliedPhrases);
      [specialize (M3 eq_refl); discriminate|].
    destruct (includesAny (toLowerCase t) accessDeniedPhrases);
      [specialize (M4 eq_refl); discriminate|].
    destruct (h1 || h2 || h3 || false); simpl; eauto.
Qed.

Section WithRetry.
Context {W T : Type}.
Variable operation : W -> Outcome T * W.

Lemma retryLoop_ceiling (cfg : RetryConfig) (remaining attempt : nat)
      (lastError : option Thrown) (w : W) (slept : list Z) (calls : nat) :
  invocations (retryLoop operation cfg remaining attempt lastError w slept calls)
  <= calls + Nat.max 1 (5 - attempt)
  /\ exists k,
       sleeps (retryLoop operation cfg remaining attempt lastError w slept calls)
       = slept ++ map (backoffDelay cfg) (seq attempt k)
       /\ k <= 4 - attempt.
Proof.
  revert attempt lastError w slept calls.
  induction remaining as [|n IH]; intros attempt lastError w slept calls; simpl.
  - split; [lia|]. exists 0. simpl. rewrite app_nil_r. split; [reflexivity | lia].
  - destruct (operation w) as [[v|e] w']; simpl.
    + split; [lia|]. exists 0. simpl. rewrite app_nil_r. split; [reflexivity | lia].
    + pose proof (classifyError_ceiling e) as Hceil.
      destruct (retryable (classifyError e)); simpl.
      2:{ split; [lia|]. exists 0. simpl. rewrite app_nil_r.
          split; [reflexivity | lia]. }
      specialize (Hceil eq_refl).
      destruct (maxRetries (classifyError e) <? attempt)%nat eqn:El; simpl.
      { split; [lia|]. exists 0. simpl. rewrite app_nil_r.
        split; [reflexivity | lia]. }
      apply Nat.ltb_ge in El.
      destruct (IH (S attempt) (Some (toError e)) w'
                   (slept ++ [backoffDelay cfg attempt]) (S calls))
        as [Hi [k [Hs Hk]]].
      split; [lia|]. exists (S k). rewrite Hs. simpl.
      rewrite <- app_assoc. simpl. split; [reflexivity | lia].
Qed.

Lemma totalSleep_bound (cfg : RetryConfig) (attempts : list nat) :
  (totalSleep (map (backoffDelay cfg) attempts)
   <= Z.of_nat (length attempts) * Z.max 0 (maxDelayMs cfg))%Z.
Proof.
  induction attempts as [|a l IH]; [simpl; lia|].
  cbn [map totalSleep fold_right length]. fold (totalSleep (map (backoffDelay cfg) l)).
  unfold backoffDelay at 1. lia.
Qed.

(** X11: Whatever [maxAttempts] says, [withRetry] calls the operation at most
    four times and sleeps at most three times, since no classification
    allows more than three retries; the time it sleeps in total is at most
    three times [maxDelayMs]. *)
Theorem withRetry_at_most_four_calls (config : PartialRetryConfig) (w : W) :
  invocations (withRetry operation config w) <= 4
  /\ length (sleeps (withRetry operation config w)) <= 3
  /\ (totalSleep (sleeps (withRetry operation config w))
      <= 3 * Z.max 0 (maxDelayMs (mergeConfig config)))%Z.
Proof.
  unfold withRetry.
  destruct (retryLoop_ceiling (mergeConfig config) (maxAttempts (mergeConfig config))
              1 None w [] 0) as [Hi [k [Hs Hk]]].
  repeat apply conj.
  - lia.
  - rewrite Hs, app_nil_l, length_map, length_seq. lia.
  - rewrite Hs, app_nil_l.
    pose proof (totalSleep_bound (mergeConfig config) (seq 1 k)) as Hb.
    rewrite length_seq in Hb. nia.
Qed.

(** X12: When the attempts run out on a retryable error, [withRetry] still
    sleeps the backoff delay before it throws: with [maxAttempts = 1] a
    retryable failure costs one call, one sleep, and is re-thrown. *)
Theorem withRetry_sleeps_before_giving_up
        (config : PartialRetryConfig) (w w' : W) (e : Thrown)
  (Hone : maxAttempts (mergeConfig config) = 1)
  (Hop : operation w = (Threw e, w'))
  (Hretry : retryable (classifyError e) = true) :
  withRetry operation config w
  = mkRun (Threw (toError e)) w' [backoffDelay (mergeConfig config) 1] 1.
Proof.
  unfold withRetry. rewrite Hone. simpl. rewrite Hop, Hretry. simpl.
  destruct (classifyError_ceiling e Hretry) as [Hlo _].
  assert (El : (maxRetries (classifyError e) <? 1)%nat = false)
    by (apply Nat.ltb_ge; lia).
  rewrite El. reflexivity.
Qed.

End WithRetry.

Lemma withRetry_sleeps_before_giving_up_witness :
  withRetry scripted (mkPartial (Some 1) None None None)
            [Threw (TimeoutError "navigation timed out") : Outcome nat]
  = mkRun (Threw (TimeoutError "navigation timed out")) [] [1000%Z] 1.
Proof.
  exact (withRetry_sleeps_before_giving_up scripted
           (mkPartial (Some 1) None None None)
           [Threw (TimeoutError "navigation timed out")] []
           (TimeoutError "navigation timed out") eq_refl eq_refl eq_refl).
Defined.

(** *** [waitForElementWithRetry] *)

Lemma sleptMs_app (a b : list WaitEvent) : sleptMs (a ++ b) = (sleptMs a + sleptMs b)%Z.
Proof.
  induction a as [|x a IH]; [reflexivity|].
  simpl. destruct x; rewrite IH; lia.
Qed.

Lemma waitLoop_spec (found : nat -> bool) (scroll : nat -> Outcome unit)
      (retries : Z) (remaining attempt : nat) (trace : list WaitEvent) :
  Z.of_nat (attempt + remaining) = (retries + 1)%Z ->
  exists new,
    snd (waitLoop found scroll retries remaining attempt trace) = trace ++ new
    /\ length (List.filter isWait new) <= remaining
    /\ length (List.filter isSleep new) <= remaining - 1
    /\ sleptMs new = (500 * Z.of_nat (length (List.filter isSleep new)))%Z
    /\ match fst (waitLoop found scroll retries remaining attempt trace) with
       | Returned true =>
           exists k, attempt <= k < attempt + remaining /\ found k = true
                     /\ (forall j, attempt <= j < k -> found j = false)
                     /\ length (List.filter isSleep new) = k - attempt
       | Returned false =>
           (forall j, attempt <= j < attempt + remaining -> found j = false)
           /\ length (List.filter isSleep new) = remaining - 1
       | Threw e =>
           exists k, attempt <= k /\ (Z.of_nat k < retries)%Z
                     /\ scroll k = Threw e /\ found k = false
       end.
Proof.
  revert attempt trace.
  induction remaining as [|n IH]; intros attempt trace Hr.
  - exists []. simpl. rewrite app_nil_r.
    split; [reflexivity|]. split; [lia|]. split; [lia|]. split; [lia|].
    split; [|lia]. intros j Hj. lia.
  - cbn [waitLoop]. destruct (found attempt) eqn:Ef.
    + exists [WaitForSelector attempt].
      split; [reflexivity|].
      simpl. split; [lia|]. split; [lia|]. split; [lia|].
      exists attempt. split; [lia|]. split; [exact Ef|]. split; [|lia].
      intros j Hj. lia.
    + destruct (Z.of_nat attempt <? retries)%Z eqn:El.
      * apply Z.ltb_lt in El.
        destruct (scroll attempt) as [u|e] eqn:Es.
        -- assert (Hpre : Z.of_nat (S attempt + n) = (retries + 1)%Z) by lia.
           destruct (IH (S attempt)
                        ((trace ++ [WaitForSelector attempt])
                           ++ [ScrollBy attempt; Sleep 500]) Hpre)
             as (new & Hs & Hw & Hsl & Hms & Hres).
           exists ([WaitForSelector attempt; ScrollBy attempt; Sleep 500] ++ new).
           split; [rewrite Hs, <- !app_assoc; reflexivity|].
           cbn [app List.filter isWait isSleep length sleptMs fold_right].
           fold (sleptMs new).
           assert (Hn : 1 <= n) by lia.
           split; [lia|]. split; [lia|]. split; [lia|].
           destruct (fst (waitLoop found scroll retries n (S attempt)
                            ((trace ++ [WaitForSelector attempt])
                               ++ [ScrollBy attempt; Sleep 500]))) as [[|]|e].
           ++ destruct Hres as (k & Hk & Hfk & Hbefore & Hlen).
              exists k. split; [lia|]. split; [exact Hfk|]. split; [|lia].
              intros j Hj. destruct (Nat.eq_dec j attempt) as [->|]; [exact Ef|].
              apply Hbefore. lia.
           ++ destruct Hres as (Hall & Hlen). split; [|lia].
              intros j Hj. destruct (Nat.eq_dec j attempt) as [->|]; [exact Ef|].
              apply Hall. lia.
           ++ destruct Hres as (k & Hk & Hlt & Hsk & Hfk). exists k.
              split; [lia|]. split; [exact Hlt|]. split; assumption.
        -- exists [WaitForSelector attempt; ScrollBy attempt].
           split; [rewrite <- app_assoc; reflexivity|].
           simpl. split; [lia|]. split; [lia|]. split; [lia|].
           exists attempt. split; [lia|]. split; [exact El|]. split; assumption.
      * apply Z.ltb_ge in El.
        assert (Hn : n = 0) by lia. subst n.
        exists [WaitForSelector attempt].
        split; [reflexivity|].
        simpl. split; [lia|]. split; [lia|]. split; [lia|]. split; [|lia].
        intros j Hj. assert (j = attempt) by lia. subst j. exact Ef.
Qed.

(** X13: [waitForElementWithRetry] waits for the selector at most
    [retries + 1] times and sleeps 500 ms after each failed wait but the
    last; it answers [true] at the first attempt [k] that finds the
    element, after [k] sleeps, and [false] when none of the attempts
    [0..retries] does, after [retries] sleeps; it throws only what the
    scroll in its [catch] block throws.  With negative [retries] it does
    nothing and answers [false]. *)
Theorem waitForElementWithRetry_bounds
        (found : nat -> bool) (scroll : nat -> Outcome unit) (retries : option Z) :
  let r := default 2%Z retries in
  let run := waitForElementWithRetry found scroll retries in
  length (List.filter isWait (snd run)) <= Z.to_nat (r + 1)
  /\ length (List.filter isSleep (snd run)) <= Z.to_nat r
  /\ sleptMs (snd run) = (500 * Z.of_nat (length (List.filter isSleep (snd run))))%Z
  /\ (fst run = Returned true ->
        exists k, (Z.of_nat k <= r)%Z /\ found k = true
                  /\ (forall j, j < k -> found j = false)
                  /\ length (List.filter isSleep (snd run)) = k)
  /\ (fst run = Returned false ->
        (forall j, (Z.of_nat j <= r)%Z -> found j = false)
        /\ length (List.filter isSleep (snd run)) = Z.to_nat r)
  /\ (forall e, fst run = Threw e ->
        exists k, (Z.of_nat k < r)%Z /\ scroll k = Threw e /\ found k = false)
  /\ ((r < 0)%Z -> run = (Returned false, [])).
Proof.
  intros r run. subst run. unfold waitForElementWithRetry. fold r.
  destruct (Z_lt_le_dec r 0) as [Hneg|Hpos].
  - assert (E : Z.to_nat (r + 1) = 0) by lia. rewrite E. simpl.
    split; [lia|]. split; [lia|]. split; [reflexivity|].
    split; [discriminate|]. split; [|split; [discriminate | reflexivity]].
    intros _. split; [intros j Hj; lia | lia].
  - assert (Hpre : Z.of_nat (0 + Z.to_nat (r + 1)) = (r + 1)%Z) by lia.
    destruct (waitLoop_spec found scroll r (Z.to_nat (r + 1)) 0 [] Hpre)
      as (new & Hs & Hw & Hsl & Hms & Hres).
    simpl in Hs. rewrite Hs.
    split; [exact Hw|]. split; [lia|]. split; [exact Hms|].
    split; [|split; [|split]].
    + intros Ht. rewrite Ht in Hres. destruct Hres as (k & Hk & Hfk & Hb & Hlen).
      exists k. split; [lia|]. split; [exact Hfk|]. split; [|lia].
      intros j Hj. apply Hb. lia.
    + intros Hf. rewrite Hf in Hres. destruct Hres as [Hall Hlen].
      split; [|lia]. intros j Hj. apply Hall. lia.
    + intros e He. rewrite He in Hres.
      destruct Hres as (k & Hk & Hlt & Hsk & Hfk). exists k.
      split; [exact Hlt|]. split; assumption.
    + intros Hneg. lia.
Qed.

End ErrorHandlerMore.

(** ** More on the rate limiter *)

Module RateLimiterMore.
Import JsString Url RateLimiter RateLimiterStats.

Lemma splitChar_nonempty (c : ascii) (s : string) : splitChar c s <> [].
Proof.
  induction s as [|a s IH]; simpl; [discriminate|].
  destruct (Ascii.eqb a c); [discriminate|].
  destruct (splitChar c s); discriminate.
Qed.

(** Splitting distributes over a separator. *)
Lemma splitChar_app (c : ascii) (a b : string) :
  splitChar c (a +:+ String c b) = splitChar c a ++ splitChar c b.
Proof.
  induction a as [|x a IH].
  - rewrite (JsStringMore.append_nil_l (String c b)). simpl.
    now rewrite Ascii.eqb_refl.
  - rewrite JsStringMore.append_cons. simpl.
    destruct (Ascii.eqb x c); [now rewrite IH|].
    rewrite IH.
    pose proof (splitChar_nonempty c a) as Hne.
    destruct (splitChar c a) as [|p ps]; [contradiction|]. reflexivity.
Qed.

Lemma lastTwo_app {A} (xs ys : list A) :
  2 <= length ys -> lastTwo (xs ++ ys) = lastTwo ys.
Proof.
  intros Hy. induction xs as [|x xs IH]; [reflexivity|].
  simpl. destruct (xs ++ ys) as [|a [|b l]] eqn:E.
  - apply (f_equal (@length A)) in E. rewrite length_app in E. simpl in E. lia.
  - apply (f_equal (@length A)) in E. rewrite length_app in E. simpl in E. lia.
  - exact IH.
Qed.

Section WithPlatform.
Context `{UrlApi}.

(** X14: The limiter works per registrable domain, not per host: a host and
    any of its subdomains share one entry, as soon as the host has two
    labels. *)
Theorem getDomain_ignores_subdomain (url1 url2 : string) (p1 p2 : URL) (sub : string)
  (Hp1 : parseURL url1 = Some p1)
  (Hp2 : parseURL url2 = Some p2)
  (Hsub : hostname p1 = sub +:+ "." +:+ hostname p2)
  (Hlabels : 2 <= length (splitChar "." (hostname p2))) :
  getDomain url1 = getDomain url2
  /\ getDomain url2 = join "." (lastTwo (splitChar "." (hostname p2))).
Proof.
  unfold getDomain. rewrite Hp1, Hp2, Hsub.
  change (sub +:+ "." +:+ hostname p2) with (sub +:+ String "." (hostname p2)).
  rewrite splitChar_app, length_app, lastTwo_app by exact Hlabels.
  assert (E2 : (2 <=? length (splitChar "." (hostname p2)))%nat = true)
    by (apply Nat.leb_le; exact Hlabels).
  assert (E1 : (2 <=? length (splitChar "." sub) + length (splitChar "." (hostname p2)))%nat
               = true) by (apply Nat.leb_le; lia).
  rewrite E1, E2. split; reflexivity.
Qed.


(** [setDomainLimit] with a delay of 0 does not lift the limit: the
    domain falls back to the default delay.  Any other delay is the
    domain's new limit, the other domains keep theirs, and [clear] forgets
    the recorded requests but keeps the limits. *)
Theorem setDomainLimit_zero_falls_back (rl : t) (d : string) (delayMs : Z) :
  getLimitForDomain (setDomainLimit d 0 rl) d = defaultDelayMs rl
  /\ (delayMs <> 0%Z -> getLimitForDomain (setDomainLimit d delayMs rl) d = delayMs)
  /\ (forall d', d' <> d ->
        getLimitForDomain (setDomainLimit d delayMs rl) d' = getLimitForDomain rl d')
  /\ (forall d', getLimitForDomain (clear rl) d' = getLimitForDomain rl d')
  /\ (forall url clock, getStatus url (clear rl) clock = (true, 0%Z)).
Proof.
  unfold getLimitForDomain, setDomainLimit, clear, getStatus. cbn [domainLimits defaultDelayMs entries].
  repeat apply conj.
  - now rewrite lookup_insert_eq.
  - intros Hnz. rewrite lookup_insert_eq. simpl.
    destruct (delayMs =? 0)%Z eqn:E; [apply Z.eqb_eq in E; contradiction | reflexivity].
  - intros d' Hd. now rewrite lookup_insert_ne.
  - reflexivity.
  - intros url clock. now rewrite lookup_empty.
Qed.

Lemma totalRequests_insert_new (rl : t) (d : string) (e : RateLimitEntry) :
  entries rl !! d = None ->
  totalRequests (mkLimiter (<[d := e]> (entries rl)) (defaultDelayMs rl) (domainLimits rl))
  = (totalRequests rl + requestCount e)%Z.
Proof.
  intros Hn. unfold totalRequests. cbn [entries].
  rewrite (map_fold_insert_L _ _ d e (entries rl)); [reflexivity | intros; lia | exact Hn].
Qed.

Lemma totalRequests_insert_old (rl : t) (d : string) (e0 e : RateLimitEntry) :
  entries rl !! d = Some e0 ->
  totalRequests (mkLimiter (<[d := e]> (entries rl)) (defaultDelayMs rl) (domainLimits rl))
  = (totalRequests rl - requestCount e0 + requestCount e)%Z.
Proof.
  intros Hs. unfold totalRequests. cbn [entries].
  rewrite <- (insert_delete_eq (entries rl) d e).
  rewrite (map_fold_insert_L _ _ d e (delete d (entries rl)));
    [| intros; lia | apply lookup_delete_eq].
  rewrite (map_fold_delete_L _ _ d e0 (entries rl)); [lia | intros; lia | exact Hs].
Qed.

Lemma waitForSlot_counts (lag : N) (url : string) (rl : t) (clock : Z) :
  totalRequests (fst (waitForSlot lag url rl clock)) = (totalRequests rl + 1)%Z
  /\ domains (fst (waitForSlot lag url rl clock)) = {[ getDomain url ]} ∪ domains rl.
Proof.
  split.
  - unfold waitForSlot. cbn [fst].
    destruct (entries rl !! getDomain url) as [e0|] eqn:E.
    + rewrite (totalRequests_insert_old rl _ e0) by exact E.
      cbn [requestCount fmap option_fmap option_map orNum].
      destruct (requestCount e0 =? 0)%Z eqn:E0; [apply Z.eqb_eq in E0|]; lia.
    + rewrite totalRequests_insert_new by exact E. simpl. lia.
  - unfold domains, waitForSlot. cbn [fst entries]. now rewrite dom_insert_L.
Qed.

(** X16: [getStats] counts the calls: every [waitForSlot] adds exactly one to
    [totalRequests], so after any sequence of calls on a fresh limiter
    [totalRequests] is their number, the domains listed are the domains
    of the URLs requested, and the clock has not gone back. *)
Theorem getStats_counts_calls (calls : list (N * string)) (delay clock : Z) :
  totalRequests (fst (waitForSlots calls (create delay) clock))
  = Z.of_nat (length calls)
  /\ domains (fst (waitForSlots calls (create delay) clock))
     = list_to_set (map (fun c => getDomain (snd c)) calls)
  /\ (clock <= snd (waitForSlots calls (create delay) clock))%Z
  /\ totalRequests (clear (fst (waitForSlots calls (create delay) clock))) = 0%Z.
Proof.
  assert (G : forall calls rl clock,
    totalRequests (fst (waitForSlots calls rl clock))
    = (totalRequests rl + Z.of_nat (length calls))%Z
    /\ domains (fst (waitForSlots calls rl clock))
       = list_to_set (map (fun c => getDomain (snd c)) calls) ∪ domains rl
    /\ (clock <= snd (waitForSlots calls rl clock))%Z).
  { clear. induction calls as [|[lag url] rest IH]; intros rl clock.
    - simpl. repeat split; [lia | now rewrite (left_id_L ∅ (∪)) | lia].
    - cbn [waitForSlots].
      pose proof (waitForSlot_counts lag url rl clock) as [Hc Hd].
      pose proof (RateLimiterFacts.waitForSlot_monotone lag url rl clock) as Hm.
      destruct (waitForSlot lag url rl clock) as [rl' clock'].
      cbn [fst snd] in *.
      destruct (IH rl' clock') as (IH1 & IH2 & IH3).
      rewrite IH1, IH2, Hc, Hd. cbn [length map list_to_set snd].
      repeat split; [lia | | lia].
      rewrite (assoc_L (∪)). f_equal. apply (comm_L (∪)). }
  destruct (G calls (create delay) clock) as (G1 & G2 & G3).
  repeat apply conj.
  - rewrite G1. unfold totalRequests, create. cbn [entries].
    rewrite map_fold_empty. lia.
  - rewrite G2. unfold domains, create. cbn [entries].
    now rewrite dom_empty_L, (right_id_L ∅ (∪)).
  - exact G3.
  - unfold totalRequests, clear. cbn [entries]. apply map_fold_empty.
Qed.

End WithPlatform.

Lemma getDomain_ignores_subdomain_witness :
  @getDomain simpleUrlApi "https://eu.boards.greenhouse.io/acme/jobs/1"
  = @getDomain simpleUrlApi "https://boards.greenhouse.io/acme/jobs/2"
  /\ @getDomain simpleUrlApi "https://boards.greenhouse.io/acme/jobs/2"
     = "greenhouse.io".
Proof.
  refine (@getDomain_ignores_subdomain simpleUrlApi
            "https://eu.boards.greenhouse.io/acme/jobs/1"
            "https://boards.greenhouse.io/acme/jobs/2"
            _ _ "eu" eq_refl eq_refl _ _);
    [reflexivity | vm_compute; lia].
Defined.

End RateLimiterMore.

(** ** More on the task runner *)

Module RunnerMore.
Import JsString Url ErrorHandler Runner WorkerLoop.

(** *** The tables after each primitive *)

Lemma runs_logEvent k l m d db :
  application_runs (logEvent k l m d db) = application_runs db.
Proof. reflexivity. Qed.
Lemma jobs_logEvent k l m d db : job_targets (logEvent k l m d db) = job_targets db.
Proof. reflexivity. Qed.
Lemma resumes_logEvent k l m d db : resumes (logEvent k l m d db) = resumes db.
Proof. reflexivity. Qed.
Lemma profiles_logEvent k l m d db : profiles (logEvent k l m d db) = profiles db.
Proof. reflexivity. Qed.
Lemma now_logEvent k l m d db : now (logEvent k l m d db) = now db.
Proof. reflexivity. Qed.
Lemma events_logEvent k l m d db :
  run_events (logEvent k l m d db) = run_events db ++ [mkEvent k l m d].
Proof. reflexivity. Qed.

Lemma runs_updateRun k p db :
  application_runs (updateRun k p db) = alter p k (application_runs db).
Proof. reflexivity. Qed.
Lemma jobs_updateRun k p db : job_targets (updateRun k p db) = job_targets db.
Proof. reflexivity. Qed.
Lemma resumes_updateRun k p db : resumes (updateRun k p db) = resumes db.
Proof. reflexivity. Qed.
Lemma profiles_updateRun k p db : profiles (updateRun k p db) = profiles db.
Proof. reflexivity. Qed.
Lemma now_updateRun k p db : now (updateRun k p db) = now db.
Proof. reflexivity. Qed.
Lemma events_updateRun k p db : run_events (updateRun k p db) = run_events db.
Proof. reflexivity. Qed.

Lemma runs_failRun k c m db :
  application_runs (failRun k c m db)
  = alter (patchFailed (now db) c m) k (application_runs db).
Proof. reflexivity. Qed.
Lemma jobs_failRun k c m db : job_targets (failRun k c m db) = job_targets db.
Proof. reflexivity. Qed.
Lemma resumes_failRun k c m db : resumes (failRun k c m db) = resumes db.
Proof. reflexivity. Qed.
Lemma profiles_failRun k c m db : profiles (failRun k c m db) = profiles db.
Proof. reflexivity. Qed.
Lemma now_failRun k c m db : now (failRun k c m db) = now db.
Proof. reflexivity. Qed.
Lemma events_failRun k c m db :
  run_events (failRun k c m db) = run_events db ++ [mkEvent k error m None].
Proof. reflexivity. Qed.

Lemma runs_updateJobStatus k st db :
  application_runs (updateJobStatus k st db) = application_runs db.
Proof. reflexivity. Qed.
Lemma jobs_updateJobStatus k st db :
  job_targets (updateJobStatus k st db)
  = alter (fun j => mkJob (url j) (ats_type j) st (now db)) k (job_targets db).
Proof. reflexivity. Qed.
Lemma resumes_updateJobStatus k st db : resumes (updateJobStatus k st db) = resumes db.
Proof. reflexivity. Qed.
Lemma profiles_updateJobStatus k st db : profiles (updateJobStatus k st db) = profiles db.
Proof. reflexivity. Qed.
Lemma now_updateJobStatus k st db : now (updateJobStatus k st db) = now db.
Proof. reflexivity. Qed.
Lemma events_updateJobStatus k st db :
  run_events (updateJobStatus k st db) = run_events db.
Proof. reflexivity. Qed.

Create HintDb settled discriminated.
Create Rewrite HintDb tables.
#[local] Hint Rewrite
  runs_logEvent jobs_logEvent resumes_logEvent profiles_logEvent now_logEvent
  events_logEvent
  runs_updateRun jobs_updateRun resumes_updateRun profiles_updateRun now_updateRun
  events_updateRun
  runs_failRun jobs_failRun resumes_failRun profiles_failRun now_failRun
  events_failRun
  runs_updateJobStatus jobs_updateJobStatus resumes_updateJobStatus
  profiles_updateJobStatus now_updateJobStatus events_updateJobStatus : tables.

Lemma settles_patchFailed now c m : settles now (patchFailed now c m).
Proof. intros r. repeat split. Qed.
Lemma settles_patchSucceeded now rj : settles now (patchSucceeded now rj).
Proof. intros r. repeat split. Qed.
Lemma settles_patchNeedsInput now m i rj : settles now (patchNeedsInput m i rj).
Proof. intros r. repeat split. Qed.
Lemma settles_patchBlocked now c m rj : settles now (patchBlocked now c m rj).
Proof. intros r. repeat split. Qed.

#[local] Hint Resolve settles_patchFailed settles_patchSucceeded
  settles_patchNeedsInput settles_patchBlocked : settled.

Section WithPlatform.
Context `{UrlApi}.

(** What a call of [processRun] writes. *)
Lemma processRun_shape (env : Orchestrator.Env) (run : Run) (db : Db) :
  exists patch new,
    application_runs (processRun env run db)
    = alter patch (id run) (application_runs db)
    /\ settles (now db) patch
    /\ (job_targets (processRun env run db) = job_targets db
        \/ exists st,
             job_targets (processRun env run db)
             = alter (fun j => mkJob (url j) (ats_type j) st (now db))
                     (job_target_id run) (job_targets db))
    /\ resumes (processRun env run db) = resumes db
    /\ profiles (processRun env run db) = profiles db
    /\ now (processRun env run db) = now db
    /\ run_events (processRun env run db) = run_events db ++ new
    /\ Forall (fun e => run_id e = id run) new
    /\ 1 <= length new.
Proof.
  unfold processRun, tryBlock, catchBlock, persistResult.
  repeat match goal with
         | |- context [match ?x with _ => _ end] =>
             lazymatch x with
             | context [match _ with _ => _ end] => fail
             | _ => destruct x eqn:?
             end
         end;
    autorewrite with tables;
    do 2 eexists;
    (split; [reflexivity|]);
    (split; [auto with settled|]);
    (split; [first [left; reflexivity | right; eexists; reflexivity]|]);
    (split; [reflexivity|]); (split; [reflexivity|]); (split; [reflexivity|]);
    (split; [rewrite <- ?app_assoc; reflexivity|]);
    (split; [repeat constructor | simpl; lia]).
Qed.

(** X17: Whatever the browser and the storage do, [processRun] leaves the run
    it was given settled: [succeeded], [failed] or [needs_input], never
    [running] or [queued]; [finished_at] is stamped except for
    [needs_input]; the columns that identify the run and [started_at] are
    kept. *)
Theorem processRun_settles_the_run (env : Orchestrator.Env) (run : Run) (db : Db)
        (r0 : Run)
  (Hrow : application_runs db !! id run = Some r0) :
  exists r,
    application_runs (processRun env run db) !! id run = Some r
    /\ isSettled (status r) = true
    /\ id r = id r0 /\ user_id r = user_id r0
    /\ job_target_id r = job_target_id r0 /\ resume_id r = resume_id r0
    /\ attempt r = attempt r0 /\ dry_run r = dry_run r0
    /\ started_at r = started_at r0
    /\ finished_at r
       = (if match status r with run_needs_input => true | _ => false end
          then None else Some (now db)).
Proof.
  destruct (processRun_shape env run db) as (patch & new & Hruns & Hset & _).
  exists (patch r0). rewrite Hruns, lookup_alter_eq, Hrow.
  split; [reflexivity|]. apply Hset.
Qed.

(** X18: [processRun] writes to one run and at most one job target: every
    other row of both tables is as before, no row is created or deleted,
    a job target keeps its URL and ATS type, resumes and profiles are not
    written, and the events are only appended to, all of them for this
    run. *)
Theorem processRun_frame (env : Orchestrator.Env) (run : Run) (db : Db) :
  (forall k, k <> id run ->
     application_runs (processRun env run db) !! k = application_runs db !! k)
  /\ dom (application_runs (processRun env run db)) = dom (application_runs db)
  /\ (forall k, k <> job_target_id run ->
        job_targets (processRun env run db) !! k = job_targets db !! k)
  /\ (forall k j', job_targets (processRun env run db) !! k = Some j' ->
        exists j, job_targets db !! k = Some j
                  /\ url j' = url j /\ ats_type j' = ats_type j)
  /\ resumes (processRun env run db) = resumes db
  /\ profiles (processRun env run db) = profiles db
  /\ exists new,
       run_events (processRun env run db) = run_events db ++ new
       /\ Forall (fun e => run_id e = id run) new.
Proof.
  destruct (processRun_shape env run db)
    as (patch & new & Hruns & _ & Hjobs & Hres & Hprof & _ & Hev & Hall & _).
  repeat apply conj.
  - intros k Hk. rewrite Hruns. now apply lookup_alter_ne.
  - rewrite Hruns. apply dom_alter_L.
  - intros k Hk. destruct Hjobs as [-> | [st ->]]; [reflexivity|].
    now apply lookup_alter_ne.
  - intros k j' Hk. destruct Hjobs as [Hj | [st Hj]]; rewrite Hj in Hk.
    + exists j'. auto.
    + destruct (decide (k = job_target_id run)) as [->|Hne].
      * rewrite lookup_alter_eq in Hk.
        destruct (job_targets db !! job_target_id run) as [j|]; [|discriminate].
        injection Hk as <-. exists j. auto.
      * rewrite lookup_alter_ne in Hk by congruence. exists j'. auto.
  - exact Hres.
  - exact Hprof.
  - exists new. auto.
Qed.

(** X19: When the job target, the resume or the profile of the run is missing,
    no application is attempted (the outcome does not depend on the
    browser): the run is failed with the matching code, one error event is
    logged, and the job target is not written, so it keeps the status it
    had. *)
Theorem processRun_missing_record (env : Orchestrator.Env) (run : Run) (db : Db)
  (Hmiss : job_targets db !! job_target_id run = None
           \/ resumes db !! resume_id run = None
           \/ profiles db !! user_id run = None) :
  (forall env', processRun env' run db = processRun env run db)
  /\ job_targets (processRun env run db) = job_targets db
  /\ length (run_events (processRun env run db)) = S (length (run_events db))
  /\ (forall r0, application_runs db !! id run = Some r0 ->
        exists r, application_runs (processRun env run db) !! id run = Some r
                  /\ status r = run_failed
                  /\ In (error_code r)
                        [Some "JOB_NOT_FOUND"; Some "RESUME_NOT_FOUND";
                         Some "PROFILE_NOT_FOUND"]).
Proof.
  unfold processRun, tryBlock.
  destruct (job_targets db !! job_target_id run) as [job|] eqn:Ej;
    [destruct (resumes db !! resume_id run) as [resume|] eqn:Er;
     [destruct (profiles db !! user_id run) as [profile|] eqn:Ep|]|].
  - destruct Hmiss as [Hm | [Hm | Hm]]; discriminate Hm.
  - repeat apply conj; autorewrite with tables; try reflexivity.
    + rewrite length_app. simpl. lia.
    + intros r0 Hr0. rewrite lookup_alter_eq, Hr0. eexists. split; [reflexivity|].
      simpl. auto.
  - repeat apply conj; autorewrite with tables; try reflexivity.
    + rewrite length_app. simpl. lia.
    + intros r0 Hr0. rewrite lookup_alter_eq, Hr0. eexists. split; [reflexivity|].
      simpl. auto.
  - repeat apply conj; autorewrite with tables; try reflexivity.
    + rewrite length_app. simpl. lia.
    + intros r0 Hr0. rewrite lookup_alter_eq, Hr0. eexists. split; [reflexivity|].
      simpl. auto.
Qed.

End WithPlatform.

(** *** Claiming, one worker *)

Lemma selectQueued_Some (db : Db) (r : Run) :
  selectQueued db = Some r ->
  isQueued r = true /\ exists k, application_runs db !! k = Some r.
Proof.
  unfold selectQueued. intros Hf. apply find_some in Hf as [Hin Hq].
  split; [exact Hq|].
  apply in_map_iff in Hin as [[k r'] [Hr Hin]]. simpl in Hr. subst r'.
  exists k. apply elem_of_map_to_list. now apply list_elem_of_In.
Qed.

Lemma selectQueued_None (db : Db) :
  selectQueued db = None ->
  forall k r, application_runs db !! k = Some r -> isQueued r = false.
Proof.
  unfold selectQueued. intros Hf k r Hk.
  apply (find_none _ _ Hf r).
  apply in_map_iff. exists (k, r). split; [reflexivity|].
  apply list_elem_of_In. now apply elem_of_map_to_list.
Qed.

Lemma claimRun_cases (db : Db) :
  keyedById db ->
  (exists q, application_runs db !! id q = Some q /\ isQueued q = true
             /\ claimRun db
                = (logEvent (id q) info "Run claimed by worker" None
                            (setRuns (<[id q := patchClaimed (now db) q]>
                                        (application_runs db)) db),
                   Some (patchClaimed (now db) q)))
  \/ ((forall k r, application_runs db !! k = Some r -> isQueued r = false)
      /\ claimRun db = (db, None)).
Proof.
  intros Hkey. unfold claimRun.
  destruct (selectQueued db) as [q|] eqn:Es.
  - left. apply selectQueued_Some in Es as [Hq [k Hk]].
    pose proof (Hkey k q Hk) as Hid. subst k.
    exists q. split; [exact Hk|]. split; [exact Hq|].
    unfold claimUpdate. rewrite Hk, Hq. reflexivity.
  - right. split; [|reflexivity]. now apply selectQueued_None.
Qed.

Lemma keyedById_claimed (db : Db) (q : Run) :
  keyedById db ->
  keyedById (logEvent (id q) info "Run claimed by worker" None
               (setRuns (<[id q := patchClaimed (now db) q]> (application_runs db)) db)).
Proof.
  intros Hkey k r. cbn [logEvent application_runs setRuns].
  intros Hk. apply lookup_insert_Some in Hk as [[<- <-] | [_ Hk]];
    [reflexivity | now apply Hkey].
Qed.

(** X20: [claimRun] with no other worker around: it answers a run exactly when
    one is queued; that run was queued, is now [running] with [started_at]
    set, and is the only row changed; with nothing queued the database is
    left as it was; and a second call claims another run. *)
Theorem claimRun_sequential (db : Db) (Hkey : keyedById db) :
  (forall db', claimRun db = (db', None) ->
     db' = db /\ forall k r, application_runs db !! k = Some r -> isQueued r = false)
  /\ (forall k q, application_runs db !! k = Some q -> isQueued q = true ->
        exists c, snd (claimRun db) = Some c)
  /\ (forall db' c, claimRun db = (db', Some c) ->
        status c = run_running /\ started_at c = Some (now db)
        /\ application_runs db' !! id c = Some c
        /\ (exists q, application_runs db !! id c = Some q /\ isQueued q = true
                      /\ c = patchClaimed (now db) q)
        /\ (forall k, k <> id c ->
              application_runs db' !! k = application_runs db !! k)
        /\ job_targets db' = job_targets db
        /\ (forall db'' c2, claimRun db' = (db'', Some c2) -> id c2 <> id c)).
Proof.
  destruct (claimRun_cases db Hkey) as [(q & Hq & Hqq & Hc) | [Hnone Hc]].
  - repeat apply conj.
    + intros db' Hn. rewrite Hc in Hn. discriminate.
    + intros k q' _ _. rewrite Hc. eauto.
    + intros db' c Hs. rewrite Hc in Hs. injection Hs as <- <-.
      cbn [logEvent application_runs job_targets setRuns].
      change (id (patchClaimed (now db) q)) with (id q).
      repeat apply conj; try reflexivity.
      * apply lookup_insert_eq.
      * exists q. auto.
      * intros k Hk. apply lookup_insert_ne. congruence.
      * intros db'' c2 Hc2.
        pose proof (keyedById_claimed db q Hkey) as Hkey'.
        destruct (claimRun_cases _ Hkey') as [(q2 & Hq2 & Hqq2 & Hc2') | [_ Hc2']];
          rewrite Hc2' in Hc2; [|discriminate].
        injection Hc2 as _ <-.
        change (id (patchClaimed _ q2)) with (id q2).
        intros Heq. cbn [logEvent application_runs setRuns] in Hq2.
        rewrite Heq, lookup_insert_eq in Hq2. injection Hq2 as <-.
        discriminate Hqq2.
  - repeat apply conj.
    + intros db' Hn. rewrite Hc in Hn. injection Hn as <-. auto.
    + intros k q Hk Hq. rewrite (Hnone k q Hk) in Hq. discriminate.
    + intros db' c Hs. rewrite Hc in Hs. discriminate.
Qed.

(** *** The polling loop *)

Lemma queuedCount_none (db : Db) :
  (forall k r, application_runs db !! k = Some r -> isQueued r = false) ->
  queuedCount db = 0.
Proof.
  intros Hnone. unfold queuedCount, queuedRuns.
  apply map_size_empty_iff, map_empty. intros k.
  apply map_lookup_filter_None.
  destruct (application_runs db !! k) as [r|] eqn:E; [right | now left].
  intros x [= <-]. simpl. rewrite (Hnone k r E). discriminate.
Qed.

(** Replacing a queued row by one that is not queued takes one off the
    count. *)
Lemma queuedCount_settle (runs : gmap string Run) (k : string) (q r : Run) :
  runs !! k = Some q -> isQueued q = true -> isQueued r = false ->
  size (filter (fun kr : string * Run => isQueued kr.2 = true) runs)
  = S (size (filter (fun kr : string * Run => isQueued kr.2 = true) (<[k := r]> runs))).
Proof.
  intros Hk Hq Hr.
  rewrite (map_filter_insert_False _ runs k r) by (simpl; rewrite Hr; discriminate).
  rewrite <- (insert_delete_id runs k q Hk) at 1.
  rewrite (map_filter_insert_True _ _ k q) by exact Hq.
  apply map_size_insert_None, map_lookup_filter_None.
  left. apply lookup_delete_eq.
Qed.

Lemma isSettled_not_queued (r : Run) :
  isSettled (status r) = true -> isQueued r = false /\ isRunning r = false.
Proof. unfold isQueued, isRunning. destruct (status r); simpl; auto; discriminate. Qed.

Section Polling.
Context `{UrlApi}.

Lemma pollOnce_step (env : Orchestrator.Env) (db : Db) :
  keyedById db -> noneRunning db ->
  keyedById (pollOnce env db) /\ noneRunning (pollOnce env db)
  /\ queuedCount (pollOnce env db) = queuedCount db - 1
  /\ dom (application_runs (pollOnce env db)) = dom (application_runs db).
Proof.
  intros Hkey Hnr. unfold pollOnce.
  destruct (claimRun_cases db Hkey) as [(q & Hq & Hqq & Hc) | [Hnone Hc]];
    rewrite Hc.
  2:{ rewrite (queuedCount_none db Hnone). auto. }
  set (c := patchClaimed (now db) q).
  set (db1 := logEvent (id q) info "Run claimed by worker" None
                (setRuns (<[id q := c]> (application_runs db)) db)).
  destruct (processRun_shape env c db1) as (patch & new & Hruns & Hset & _).
  assert (Hfinal : application_runs (processRun env c db1)
                   = <[id q := patch c]> (application_runs db)).
  { rewrite Hruns. change (id c) with (id q).
    change (application_runs db1) with (<[id q := c]> (application_runs db)).
    apply alter_insert_eq. }
  destruct (Hset c) as (Hst & Hid & _).
  destruct (isSettled_not_queued _ Hst) as [Hnq Hnrun].
  change (id c) with (id q) in Hid.
  repeat apply conj.
  - intros k r. rewrite Hfinal. intros Hk.
    apply lookup_insert_Some in Hk as [[<- <-] | [_ Hk]]; [exact Hid | now apply Hkey].
  - intros k r. rewrite Hfinal. intros Hk.
    apply lookup_insert_Some in Hk as [[<- <-] | [_ Hk]]; [exact Hnrun | eapply Hnr; eauto].
  - unfold queuedCount, queuedRuns. rewrite Hfinal.
    rewrite (queuedCount_settle (application_runs db) (id q) q (patch c) Hq Hqq Hnq).
    lia.
  - rewrite Hfinal. apply dom_insert_lookup_L. eauto.
Qed.

(** X21: The polling loop, one worker: every iteration takes one run off the
    queue and leaves it settled, so that after [n] iterations
    [max(0, queued - n)] runs are queued and none is [running]; the queue
    is empty after as many iterations as runs were queued; no run is
    created or deleted. *)
Theorem workerLoop_drains_queue (envs : list Orchestrator.Env) (db : Db)
  (Hkey : keyedById db) (Hnr : noneRunning db) :
  queuedCount (workerLoop envs db) = queuedCount db - length envs
  /\ noneRunning (workerLoop envs db)
  /\ keyedById (workerLoop envs db)
  /\ dom (application_runs (workerLoop envs db)) = dom (application_runs db)
  /\ (queuedCount db <= length envs ->
        forall k r, application_runs (workerLoop envs db) !! k = Some r ->
                    isQueued r = false).
Proof.
  assert (G : queuedCount (workerLoop envs db) = queuedCount db - length envs
              /\ noneRunning (workerLoop envs db)
              /\ keyedById (workerLoop envs db)
              /\ dom (application_runs (workerLoop envs db))
                 = dom (application_runs db)).
  { revert db Hkey Hnr. induction envs as [|env rest IH]; intros db Hkey Hnr.
    - simpl. repeat split; auto. lia.
    - cbn [workerLoop length].
      destruct (pollOnce_step env db Hkey Hnr) as (Hk1 & Hn1 & Hc1 & Hd1).
      destruct (IH _ Hk1 Hn1) as (Hc & Hn & Hk & Hd).
      repeat split; auto; [lia | congruence]. }
  destruct G as (Hc & Hn & Hk & Hd).
  repeat apply conj; auto.
  intros Hle k r Hkr.
  destruct (isQueued r) eqn:Eq; [|reflexivity]. exfalso.
  assert (Hz : queuedCount (workerLoop envs db) = 0) by lia.
  unfold queuedCount in Hz. apply map_size_empty_iff in Hz.
  assert (Hin : queuedRuns (workerLoop envs db) !! k = Some r)
    by (apply map_lookup_filter_Some; split; [exact Hkr | exact Eq]).
  rewrite Hz, lookup_empty in Hin. discriminate.
Qed.

End Polling.

(** *** On the example databases *)

Lemma threeRuns_keyed : keyedById threeRuns.
Proof.
  intros k r Hk. unfold threeRuns in Hk. cbn [application_runs] in Hk.
  repeat (apply lookup_insert_Some in Hk as [[<- <-] | [_ Hk]]; [reflexivity|]).
  rewrite lookup_empty in Hk. discriminate.
Qed.

Lemma threeRuns_noneRunning : noneRunning threeRuns.
Proof.
  intros k r Hk. unfold threeRuns in Hk. cbn [application_runs] in Hk.
  repeat (apply lookup_insert_Some in Hk as [[<- <-] | [_ Hk]]; [reflexivity|]).
  rewrite lookup_empty in Hk. discriminate.
Qed.

Lemma processRun_settles_the_run_witness :
  exists r,
    application_runs
      (@processRun simpleUrlApi Orchestrator.demoEnv
         (demoRun "run-1" "job-1" run_running)
         (demoDb "https://boards.greenhouse.io/acme/jobs/1")) !! "run-1" = Some r
    /\ isSettled (status r) = true.
Proof.
  destruct (@processRun_settles_the_run simpleUrlApi Orchestrator.demoEnv
              (demoRun "run-1" "job-1" run_running)
              (demoDb "https://boards.greenhouse.io/acme/jobs/1")
              (demoRun "run-1" "job-1" run_running) eq_refl)
    as (r & Hr & Hs & _).
  exists r. split; [exact Hr | exact Hs].
Defined.

Lemma processRun_missing_record_witness :
  job_targets
    (@processRun simpleUrlApi Orchestrator.demoEnv
       (demoRun "run-1" "job-404" run_running)
       (demoDb "https://boards.greenhouse.io/acme/jobs/1"))
  = job_targets (demoDb "https://boards.greenhouse.io/acme/jobs/1").
Proof.
  refine (proj1 (proj2 (@processRun_missing_record simpleUrlApi Orchestrator.demoEnv
                          (demoRun "run-1" "job-404" run_running)
                          (demoDb "https://boards.greenhouse.io/acme/jobs/1") _))).
  left. reflexivity.
Defined.

Lemma claimRun_sequential_witness :
  exists c, snd (claimRun demoQueue) = Some c.
Proof.
  refine (proj1 (proj2 (claimRun_sequential demoQueue RunnerFacts.demoQueue_keyed))
                "run-1" (demoRun "run-1" "job-1" run_queued) _ _); reflexivity.
Defined.

Lemma workerLoop_drains_queue_witness :
  queuedCount (@workerLoop simpleUrlApi
                 [Orchestrator.demoEnv; Orchestrator.demoEnv] threeRuns)
  = queuedCount threeRuns - 2.
Proof.
  exact (proj1 (@workerLoop_drains_queue simpleUrlApi
                  [Orchestrator.demoEnv; Orchestrator.demoEnv] threeRuns
                  threeRuns_keyed threeRuns_noneRunning)).
Defined.

End RunnerMore.

(** ** Matching labels and options *)

Module FieldMatchingFacts.
Import JsString ErrorHandler Adapters FieldMatching JsStringMore.

Lemma firstSelectable_Some (test : OptionEl -> bool) (options : list OptionEl)
      (v : string) :
  firstSelectable test options = Some v ->
  truthy v = true
  /\ exists o, In o options /\ optionValue o = Some v /\ test o = true.
Proof.
  induction options as [|o rest IH]; simpl; [discriminate|].
  destruct (test o) eqn:Et.
  - destruct (optionValue o) as [value|] eqn:Ev.
    + destruct (truthy value) eqn:Etr.
      * intros [= <-]. split; [exact Etr|]. exists o. auto.
      * intros Hs. destruct (IH Hs) as [Ht [o' (Hin & Hv & Hte)]].
        split; [exact Ht|]. exists o'. auto.
    + intros Hs. destruct (IH Hs) as [Ht [o' (Hin & Hv & Hte)]].
      split; [exact Ht|]. exists o'. auto.
  - intros Hs. destruct (IH Hs) as [Ht [o' (Hin & Hv & Hte)]].
    split; [exact Ht|]. exists o'. auto.
Qed.

Lemma firstSelectable_None (test : OptionEl -> bool) (options : list OptionEl) :
  firstSelectable test options = None <->
  forall o v, In o options -> test o = true -> optionValue o = Some v ->
              truthy v = false.
Proof.
  induction options as [|o rest IH]; simpl.
  - split; [intros _ o v [] | reflexivity].
  - destruct (test o) eqn:Et.
    + destruct (optionValue o) as [value|] eqn:Ev.
      * destruct (truthy value) eqn:Etr.
        -- split; [discriminate|]. intros Hall.
           rewrite (Hall o value (or_introl eq_refl) Et Ev) in Etr. discriminate.
        -- rewrite IH. split.
           ++ intros Hall o' v [<- | Hin] Ht Hv; [congruence | eauto].
           ++ intros Hall o' v Hin. apply Hall. now right.
      * rewrite IH. split.
        -- intros Hall o' v [<- | Hin] Ht Hv; [congruence | eauto].
        -- intros Hall o' v Hin. apply Hall. now right.
    + rewrite IH. split.
      * intros Hall o' v [<- | Hin] Ht Hv; [congruence | eauto].
      * intros Hall o' v Hin. apply Hall. now right.
Qed.

Lemma firstSelectable_ext (test test' : OptionEl -> bool) (options : list OptionEl) :
  (forall o, test o = test' o) ->
  firstSelectable test options = firstSelectable test' options.
Proof.
  intros He. induction options as [|o rest IH]; simpl; [reflexivity|].
  now rewrite He, IH.
Qed.

Lemma firstByKeyword_Some (keywords : list string) (options : list OptionEl)
      (v : string) :
  firstByKeyword keywords options = Some v ->
  exists k, In k keywords
            /\ firstSelectable (fun o => includes (textLower o) k) options = Some v.
Proof.
  induction keywords as [|k rest IH]; simpl; [discriminate|].
  destruct (firstSelectable (fun o => includes (textLower o) k) options) as [v0|] eqn:E.
  - intros [= <-]. exists k. auto.
  - intros Hs. destruct (IH Hs) as [k' [Hin Hk']]. exists k'. auto.
Qed.

Lemma firstByKeyword_None (keywords : list string) (options : list OptionEl) :
  firstByKeyword keywords options = None <->
  forall k, In k keywords ->
            firstSelectable (fun o => includes (textLower o) k) options = None.
Proof.
  induction keywords as [|k rest IH]; simpl.
  - split; [intros _ k [] | reflexivity].
  - destruct (firstSelectable (fun o => includes (textLower o) k) options) as [v0|] eqn:E.
    + split; [discriminate|]. intros Hall.
      rewrite (Hall k (or_introl eq_refl)) in E. discriminate.
    + rewrite IH. split.
      * intros Hall k' [<- | Hin]; [exact E | auto].
      * intros Hall k' Hin. apply Hall. now right.
Qed.

(** X22: The three select helpers only ever select the [value] attribute of a
    listed option, and never an empty one; [selectCountryOption] gives the
    same answer for every way of writing the United States. *)
Theorem select_helpers_pick_listed_values (options : list OptionEl) :
  (forall country v, selectCountryOption options country = Some v ->
     truthy v = true /\ exists o, In o options /\ optionValue o = Some v)
  /\ (forall workAuth v, selectWorkAuthOption options workAuth = Some v ->
        truthy v = true /\ exists o, In o options /\ optionValue o = Some v)
  /\ (forall value v, selectMatchingOption options value = Some v ->
        truthy v = true /\ exists o, In o options /\ optionValue o = Some v)
  /\ (forall country, In (toLowerCase country) usNames ->
        selectCountryOption options country
        = selectCountryOption options "United States").
Proof.
  assert (G : forall test v, firstSelectable test options = Some v ->
                truthy v = true /\ exists o, In o options /\ optionValue o = Some v).
  { intros test v Hs. destruct (firstSelectable_Some _ _ _ Hs) as [Ht [o (Hi & Hv & _)]].
    split; [exact Ht|]. exists o. auto. }
  repeat apply conj.
  - intros country v. unfold selectCountryOption.
    destruct (firstSelectable _ options) as [v0|] eqn:E.
    + intros [= <-]. eapply G. exact E.
    + apply G.
  - intros workAuth v Hs. unfold selectWorkAuthOption in Hs.
    apply firstByKeyword_Some in Hs as [k [_ Hk]]. eapply G. exact Hk.
  - intros value v. unfold selectMatchingOption.
    destruct (firstSelectable _ options) as [v0|] eqn:E.
    + intros [= <-]. eapply G. exact E.
    + destruct (_ || _); [apply G | discriminate].
  - intros country Hus. unfold selectCountryOption.
    rewrite (firstSelectable_ext
               (fun o => String.eqb (trim (textLower o)) (toLowerCase country)
                         || existsb (String.eqb (trim (textLower o))) usNames)
               (fun o => String.eqb (trim (textLower o)) (toLowerCase "United States")
                         || existsb (String.eqb (trim (textLower o))) usNames));
      [reflexivity|].
    intros o.
    destruct (existsb (String.eqb (trim (textLower o))) usNames) eqn:Ee;
      [now rewrite !orb_true_r|].
    rewrite !orb_false_r.
    assert (Hno : forall a, In a usNames -> String.eqb (trim (textLower o)) a = false).
    { intros a Ha. destruct (String.eqb (trim (textLower o)) a) eqn:Eq; [|reflexivity].
      assert (existsb (String.eqb (trim (textLower o))) usNames = true)
        by (apply existsb_exists; eauto).
      congruence. }
    rewrite (Hno _ Hus). symmetry. apply Hno. simpl. auto.
Qed.

(** X23: [selectWorkAuthOption] tries its keywords in order, the applicant's
    own status first: it fails exactly when no option with a value
    mentions any keyword; an option mentioning the applicant's status wins
    over the generic keywords; and when no option mentions that status the
    answer no longer depends on it, down to the last keyword, [yes]. *)
Theorem selectWorkAuthOption_keyword_order (options : list OptionEl) (workAuth : string) :
  (selectWorkAuthOption options workAuth = None <->
     forall k o v, In k (workAuthKeywords workAuth) -> In o options ->
                   includes (textLower o) k = true -> optionValue o = Some v ->
                   truthy v = false)
  /\ (forall v,
        firstSelectable
          (fun o => includes (textLower o) (underscoresToSpaces (toLowerCase workAuth)))
          options = Some v ->
        selectWorkAuthOption options workAuth = Some v)
  /\ (firstSelectable
        (fun o => includes (textLower o) (underscoresToSpaces (toLowerCase workAuth)))
        options = None ->
      selectWorkAuthOption options workAuth = firstByKeyword genericKeywords options)
  /\ ((forall k, In k (workAuthKeywords workAuth) -> k <> "yes" ->
         firstSelectable (fun o => includes (textLower o) k) options = None) ->
      selectWorkAuthOption options workAuth
      = firstSelectable (fun o => includes (textLower o) "yes") options).
Proof.
  split; [|split; [|split]].
  - unfold selectWorkAuthOption. rewrite firstByKeyword_None. split.
    + intros Hall k o v Hk Ho Hinc Hv.
      specialize (Hall k Hk). rewrite firstSelectable_None in Hall. eauto.
    + intros Hall k Hk. apply firstSelectable_None. intros o v Ho Hinc Hv. eauto.
  - intros v Hs. unfold selectWorkAuthOption, workAuthKeywords. simpl. now rewrite Hs.
  - intros Hn. unfold selectWorkAuthOption, workAuthKeywords.
    cbn [firstByKeyword]. now rewrite Hn.
  - intros Hall. unfold selectWorkAuthOption.
    assert (G : forall ks, (forall k, In k ks -> k <> "yes" ->
                  firstSelectable (fun o => includes (textLower o) k) options = None) ->
                firstByKeyword (ks ++ ["yes"]) options
                = firstSelectable (fun o => includes (textLower o) "yes") options).
    { induction ks as [|k ks IH]; intros Hks.
      - simpl. destruct (firstSelectable _ options); reflexivity.
      - cbn [app firstByKeyword].
        destruct (String.eqb_spec k "yes") as [->|Hne].
        + destruct (firstSelectable (fun o => includes (textLower o) "yes") options)
            eqn:E; [reflexivity|].
          apply IH. intros k' Hk'. apply Hks. now right.
        + rewrite (Hks k (or_introl eq_refl) Hne).
          apply IH. intros k' Hk'. apply Hks. now right. }
    change (workAuthKeywords workAuth)
      with ([underscoresToSpaces (toLowerCase workAuth); "authorized"; "citizen";
             "permanent resident"; "green card"] ++ ["yes"]).
    apply G. intros k Hk. apply Hall.
    unfold workAuthKeywords, genericKeywords. simpl in *. tauto.
Qed.

(** *** Names *)

Lemma splitChar_join (c : ascii) (s : string) :
  join (String c "") (splitChar c s) = s.
Proof.
  induction s as [|a s IH]; [reflexivity|].
  cbn [splitChar]. destruct (Ascii.eqb a c) eqn:E.
  - apply Ascii.eqb_eq in E. subst a.
    pose proof (RateLimiterMore.splitChar_nonempty c s) as Hne.
    destruct (splitChar c s) as [|p ps] eqn:Es; [contradiction|].
    change (join (String c "") ("" :: p :: ps))
      with ("" +:+ String c "" +:+ join (String c "") (p :: ps)).
    now rewrite IH.
  - pose proof (RateLimiterMore.splitChar_nonempty c s) as Hne.
    destruct (splitChar c s) as [|p [|q ps]] eqn:Es; [contradiction| |].
    + simpl in IH. simpl. now rewrite IH.
    + change (join (String c "") (String a p :: q :: ps))
        with (String a p +:+ String c "" +:+ join (String c "") (q :: ps)).
      change (join (String c "") (p :: q :: ps))
        with (p +:+ String c "" +:+ join (String c "") (q :: ps)) in IH.
      now rewrite append_cons, IH.
Qed.

Lemma splitChar_head_clean (c : ascii) (s : string) :
  includes (hd "" (splitChar c s)) (String c "") = false.
Proof.
  induction s as [|a s IH]; [reflexivity|].
  cbn [splitChar]. destruct (Ascii.eqb a c) eqn:E; [reflexivity|].
  pose proof (RateLimiterMore.splitChar_nonempty c s) as Hne.
  destruct (splitChar c s) as [|p ps]; [contradiction|].
  cbn [hd] in *.
  change (includes (String a p) (String c ""))
    with (startsWith (String a p) (String c "") || includes p (String c "")).
  rewrite IH, orb_false_r. cbn [startsWith].
  rewrite Ascii.eqb_sym, E. reflexivity.
Qed.

Lemma splitChar_single (c : ascii) (s : string) :
  includes s (String c "") = false -> splitChar c s = [s].
Proof.
  induction s as [|a s IH]; [reflexivity|].
  change (includes (String a s) (String c ""))
    with (startsWith (String a s) (String c "") || includes s (String c "")).
  intros Hi. apply orb_false_iff in Hi as [Hs Hi].
  cbn [startsWith] in Hs.
  assert (E : Ascii.eqb a c = false).
  { rewrite Ascii.eqb_sym. destruct (Ascii.eqb c a); [|reflexivity].
    simpl in Hs. destruct s; discriminate. }
  cbn [splitChar]. rewrite E, (IH Hi). reflexivity.
Qed.

(** X24: Names in [matchLabelToProfileValue]: a "first name" label gets the
    part of [full_name] before its first space and a "last name" label
    the rest; when both are there they spell the full name again, and the
    first name holds no space; a name without a space gives no last name
    at all. *)
Theorem matchLabel_names_recombine (profile : ProfileData) (n : string)
  (Hname : full_name profile = Some n) :
  (forall label, includes (toLowerCase label) "first name" = true ->
     matchLabelToProfileValue label profile = firstNameOf profile)
  /\ (forall label, includes (toLowerCase label) "first name" = false ->
        includes (toLowerCase label) "last name" = true ->
        matchLabelToProfileValue label profile = lastNameOf profile)
  /\ (forall f l, firstNameOf profile = Some f -> lastNameOf profile = Some l ->
        n = f +:+ " " +:+ l /\ includes f " " = false)
  /\ (includes n " " = false ->
        lastNameOf profile = None /\ firstNameOf profile = nullIfEmpty n).
Proof.
  repeat apply conj.
  - intros label Hl. unfold matchLabelToProfileValue. now rewrite Hl.
  - intros label Hf Hl. unfold matchLabelToProfileValue. now rewrite Hf, Hl.
  - intros f l. unfold firstNameOf, lastNameOf, nullIfEmpty. rewrite Hname.
    pose proof (splitChar_join " " n) as Hj.
    pose proof (splitChar_head_clean " " n) as Hc.
    pose proof (RateLimiterMore.splitChar_nonempty " " n) as Hne.
    destruct (splitChar " " n) as [|p ps]; [contradiction|]. cbn [hd tl] in *.
    destruct (truthy p); [|discriminate]. intros [= <-].
    destruct (truthy (join " " ps)) eqn:Et; [|discriminate]. intros [= <-].
    split; [|exact Hc].
    destruct ps as [|q ps]; [discriminate Et|].
    symmetry. exact Hj.
  - intros Hno. unfold firstNameOf, lastNameOf. rewrite Hname.
    rewrite (splitChar_single " " n Hno). split; reflexivity.
Qed.

(** *** The field loop *)

Lemma fillFields_accounting (fields : list FieldAttempt) (filled : nat)
      (fieldsFailed : list string) :
  exists newFailed,
    snd (fillFields fields filled fieldsFailed) = fieldsFailed ++ newFailed
    /\ fst (fillFields fields filled fieldsFailed) + length newFailed
       <= filled + length (withValue fields)
    /\ filled <= fst (fillFields fields filled fieldsFailed)
    /\ (forall label, In label newFailed ->
          exists f e, In f (withValue fields) /\ fieldLabel f = label
                      /\ found f = Some (Threw e)).
Proof.
  revert filled fieldsFailed.
  induction fields as [|f rest IH]; intros filled fieldsFailed.
  - exists []. simpl. rewrite app_nil_r.
    split; [reflexivity|]. split; [lia|]. split; [lia|]. intros label [].
  - cbn [fillFields withValue List.filter].
    destruct (truthy (orStr (fieldValue f) "")) eqn:Et; cbn [negb].
    + fold (withValue rest).
      destruct (found f) as [[u|e]|] eqn:Ef.
      * destruct (IH (S filled) fieldsFailed) as (nf & Hs & Hc & Hm & Hl).
        exists nf. cbn [length]. repeat split; try lia; auto.
        intros label Hin. destruct (Hl label Hin) as (f' & e & Hf' & Hlab & Hfo).
        exists f', e. repeat split; auto. now right.
      * destruct (IH filled (fieldsFailed ++ [fieldLabel f])) as (nf & Hs & Hc & Hm & Hl).
        exists (fieldLabel f :: nf). rewrite Hs, <- app_assoc.
        cbn [length app]. repeat split; try lia; auto.
        intros label [<- | Hin].
        -- exists f, e. repeat split; auto. now left.
        -- destruct (Hl label Hin) as (f' & e' & Hf' & Hlab & Hfo).
           exists f', e'. repeat split; auto. now right.
      * destruct (IH filled fieldsFailed) as (nf & Hs & Hc & Hm & Hl).
        exists nf. cbn [length]. repeat split; try lia; auto.
        intros label Hin. destruct (Hl label Hin) as (f' & e & Hf' & Hlab & Hfo).
        exists f', e. repeat split; auto. now right.
    + fold (withValue rest). apply IH.
Qed.

(** X25: The field loop of [fillFormFields]: a field without a value is
    neither filled nor reported; every field with a value is counted as
    filled, reported as failed, or silently skipped (no element found),
    so that filled and failed together never exceed the fields with a
    value; a label is reported only when [fill] threw on its element. *)
Theorem fillFields_counts (fields : list FieldAttempt) :
  fst (fillFields fields 0 []) + length (snd (fillFields fields 0 []))
  <= length (withValue fields)
  /\ (forall label, In label (snd (fillFields fields 0 [])) ->
        exists f e, In f fields /\ fieldLabel f = label
                    /\ truthy (orStr (fieldValue f) "") = true
                    /\ found f = Some (Threw e))
  /\ ((forall f, In f fields -> found f = None
                 \/ truthy (orStr (fieldValue f) "") = false) ->
      fillFields fields 0 [] = (0, [])).
Proof.
  destruct (fillFields_accounting fields 0 []) as (nf & Hs & Hc & _ & Hl).
  simpl in Hs. rewrite Hs. repeat apply conj.
  - lia.
  - intros label Hin. destruct (Hl label Hin) as (f & e & Hf & Hlab & Hfo).
    apply filter_In in Hf as [Hf Ht]. exists f, e. auto.
  - intros Hnone.
    assert (G : forall fs n failed,
               (forall f, In f fs -> found f = None
                                     \/ truthy (orStr (fieldValue f) "") = false) ->
               fillFields fs n failed = (n, failed)).
    { induction fs as [|f fs IH]; intros n failed Hfs; [reflexivity|].
      cbn [fillFields].
      destruct (Hfs f (or_introl eq_refl)) as [Hf | Hf]; rewrite Hf.
      - destruct (negb _); apply IH; intros f' Hin; apply Hfs; now right.
      - cbn [negb]. apply IH; intros f' Hin; apply Hfs; now right. }
    exact (G fields 0 [] Hnone).
Qed.

Lemma matchLabel_names_recombine_witness :
  firstNameOf Orchestrator.demoProfile = Some "Ada"
  /\ lastNameOf Orchestrator.demoProfile = Some "Lovelace"
  /\ "Ada Lovelace" = "Ada" +:+ " " +:+ "Lovelace" /\ includes "Ada" " " = false.
Proof.
  split; [reflexivity|]. split; [reflexivity|].
  exact (proj1 (proj2 (proj2 (matchLabel_names_recombine Orchestrator.demoProfile
                                "Ada Lovelace" eq_refl)))
               "Ada" "Lovelace" eq_refl eq_refl).
Defined.

(** A citizen on a sponsorship question: no option mentions the status or
    the first four generic keywords, so the helper selects "Yes". *)
Example selectWorkAuthOption_sponsorship :
  selectWorkAuthOption sponsorshipOptions "us_citizen" = Some "1".
Proof. reflexivity. Qed.

End FieldMatchingFacts.

(** ** The metrics around [applyJob] *)

Module HealthFacts.
Import JsString Url ErrorHandler Adapters Orchestrator Health OrchestratorMore.

Section WithPlatform.
Context `{UrlApi}.



End WithPlatform.


End HealthFacts.

(** ** Browser contexts *)

Module PlaywrightFacts.
Import JsString ErrorHandler Playwright.

Lemma launchBrowser_count (a : Attempt) (clock : Z) (s : BrowserState) :
  contextCount (snd (fst (launchBrowser a clock s))) = contextCount s
  /\ (launches s <= launches (snd (fst (launchBrowser a clock s))) <= launches s + 1)%Z
  /\ (clock <= snd (launchBrowser a clock s))%Z.
Proof.
  unfold launchBrowser, waitForBrowserbaseRateLimit, BROWSERBASE_MIN_INTERVAL_MS.
  destruct (useBrowserbase a).
  - destruct (clock - lastBrowserbaseSessionTime s <? 15000)%Z eqn:E;
      destruct (sessionCreate a); try destruct (connect a); simpl; repeat split; lia.
  - destruct (localBrowser s); [simpl; lia|].
    destruct (launch a); simpl; lia.
Qed.

Lemma createContext_count (maxc : Z) (a : Attempt) (clock : Z) (s : BrowserState) :
  (contextCount (snd (fst (createContext maxc a clock s))) = contextCount s
   \/ (contextCount (snd (fst (createContext maxc a clock s))) = contextCount s + 1
       /\ contextCount s < maxc))%Z
  /\ (launches s <= launches (snd (fst (createContext maxc a clock s)))
      <= launches s + 1)%Z.
Proof.
  unfold createContext, canCreateContext.
  destruct (contextCount s <? maxc)%Z eqn:Ec; cbn [negb]; [|simpl; lia].
  apply Z.ltb_lt in Ec.
  pose proof (launchBrowser_count a clock s) as (Hc & Hl & _).
  destruct (launchBrowser a clock s) as [[[u|e] s1] clock1]; cbn [fst snd] in *;
    [|lia].
  destruct (useBrowserbase a && (0 <? existingContexts a)%nat); [simpl; lia|].
  destruct (newContext a); [|simpl; lia].
  destruct (negb (useBrowserbase a)); [destruct (addInitScript a)|]; simpl; lia.
Qed.

(** X27: Whatever is created and closed, in whatever order and with whatever
    failures, [contextCount] stays between 0 and the configured maximum,
    and the browser launches counted never exceed the calls of
    [createContext]. *)
Theorem contextCount_bounded (maxc : Z) (ops : list Op) (clock : Z) :
  (0 <= contextCount (fst (runOps maxc ops (initialBrowser, clock)))
   <= Z.max 0 maxc)%Z
  /\ (0 <= launches (fst (runOps maxc ops (initialBrowser, clock)))
      <= Z.of_nat (length (List.filter isCreate ops)))%Z.
Proof.
  assert (G : forall ops st,
    (0 <= contextCount (fst st) <= Z.max 0 maxc)%Z ->
    (0 <= contextCount (fst (runOps maxc ops st)) <= Z.max 0 maxc)%Z
    /\ (launches (fst st) <= launches (fst (runOps maxc ops st))
        <= launches (fst st) + Z.of_nat (length (List.filter isCreate ops)))%Z).
  { clear. induction ops as [|op rest IH]; intros [s clock] Hs.
    - simpl in *. lia.
    - unfold runOps in *. cbn [fold_left].
      assert (Hstep : (0 <= contextCount (fst (runOp maxc op (s, clock)))
                       <= Z.max 0 maxc)%Z
                      /\ (launches s <= launches (fst (runOp maxc op (s, clock)))
                          <= launches s + (if isCreate op then 1 else 0))%Z).
      { destruct op as [a| |closes]; cbn [runOp fst snd isCreate] in *.
        - pose proof (createContext_count maxc a clock s) as [Hc Hl].
          destruct (createContext maxc a clock s) as [[o s1] clock1].
          cbn [fst snd] in *. lia.
        - unfold contextClosed. simpl. lia.
        - unfold closeBrowser. destruct (localBrowser s); [destruct closes|];
            simpl; lia. }
      destruct Hstep as [Hc Hl].
      destruct (IH (runOp maxc op (s, clock)) Hc) as [IHc IHl].
      split; [exact IHc|].
      cbn [List.filter fst] in *. destruct (isCreate op); cbn [length] in *; lia. }
  destruct (G ops (initialBrowser, clock)) as [Hc Hl]; [simpl; lia|].
  simpl in Hl. split; [exact Hc | lia].
Qed.

(** X28: How [createContext] fails.  At the maximum it throws without touching
    the browser or the counter.  When it returns, the counter has gone up
    by one.  When it throws, the counter is unchanged, except in one
    case: with a local browser, a failure of [addInitScript] throws after
    the counter was incremented, so the caller has no context to close
    and the count stays up. *)
Theorem createContext_failure_modes (maxc : Z) (a : Attempt) (clock : Z)
        (s : BrowserState) :
  ((maxc <= contextCount s)%Z ->
     exists msg, createContext maxc a clock s = (Threw (Error msg), s, clock))
  /\ (forall u, fst (fst (createContext maxc a clock s)) = Returned u ->
        (contextCount s < maxc)%Z
        /\ contextCount (snd (fst (createContext maxc a clock s)))
           = (contextCount s + 1)%Z)
  /\ (forall e, fst (fst (createContext maxc a clock s)) = Threw e ->
        contextCount (snd (fst (createContext maxc a clock s))) = contextCount s
        \/ (useBrowserbase a = false /\ addInitScript a = Threw e
            /\ contextCount (snd (fst (createContext maxc a clock s)))
               = (contextCount s + 1)%Z))
  /\ (forall e, (contextCount s < maxc)%Z -> useBrowserbase a = false ->
        (localBrowser s = true \/ launch a = Returned tt) ->
        newContext a = Returned tt -> addInitScript a = Threw e ->
        fst (fst (createContext maxc a clock s)) = Threw e
        /\ contextCount (snd (fst (createContext maxc a clock s)))
           = (contextCount s + 1)%Z).
Proof.
  split; [|split; [|split]].
  - intros Hmax. unfold createContext, canCreateContext.
    assert (E : (contextCount s <? maxc)%Z = false) by (apply Z.ltb_ge; lia).
    rewrite E. eexists. reflexivity.
  - intros u. unfold createContext, canCreateContext.
    destruct (contextCount s <? maxc)%Z eqn:Ec; cbn [negb]; [|discriminate].
    apply Z.ltb_lt in Ec.
    pose proof (launchBrowser_count a clock s) as (Hc & _).
    destruct (launchBrowser a clock s) as [[[u1|e] s1] clock1]; cbn [fst snd] in *;
      [|discriminate].
    destruct (useBrowserbase a && (0 <? existingContexts a)%nat); [simpl; lia|].
    destruct (newContext a); [|discriminate].
    destruct (negb (useBrowserbase a)); [destruct (addInitScript a)|];
      simpl; try discriminate; lia.
  - intros e. unfold createContext, canCreateContext.
    destruct (contextCount s <? maxc)%Z eqn:Ec; cbn [negb]; [|simpl; auto].
    pose proof (launchBrowser_count a clock s) as (Hc & _).
    destruct (launchBrowser a clock s) as [[[u1|e1] s1] clock1]; cbn [fst snd] in *;
      [|auto].
    destruct (useBrowserbase a) eqn:Eb; cbn [andb negb].
    + destruct (0 <? existingContexts a)%nat; [discriminate|].
      destruct (newContext a); [discriminate | auto].
    + destruct (newContext a); [|auto].
      destruct (addInitScript a) as [u2|e2]; [discriminate|].
      cbn [fst snd]. intros [= <-]. right. simpl. repeat split. lia.
  - intros e Hc Hb Hl Hn Hi. unfold createContext, canCreateContext, launchBrowser.
    assert (E : (contextCount s <? maxc)%Z = true) by (apply Z.ltb_lt; lia).
    rewrite E, Hb, Hn, Hi. cbn [negb andb].
    destruct (localBrowser s) eqn:El.
    + simpl. auto.
    + destruct Hl as [Hl | Hl]; [discriminate|]. rewrite Hl. simpl. auto.
Qed.

(** With a maximum of 5, five failures of the stealth script in a row use
    the counter up: the next call is refused although no context is
    open. *)
Example createContext_leak_exhausts :
  contextCount (fst (runOps 5 (repeat (Create initScriptFails) 5) (initialBrowser, 0%Z)))
  = 5%Z
  /\ canCreateContext 5 (fst (runOps 5 (repeat (Create initScriptFails) 5)
                                     (initialBrowser, 0%Z))) = false.
Proof. split; reflexivity. Qed.

End PlaywrightFacts.

(** ** Routes of the web application *)

Module WebRoutesFacts.
Import JsString Runner WebRoutes.

Lemma lookup_unsetPrimary (user k : string) (rows : gmap string ResumeRow) :
  unsetPrimary user rows !! k
  = (fun r => if String.eqb (resumeUser r) user
              then mkResumeRow (resumeUser r) false else r) <$> rows !! k.
Proof. unfold unsetPrimary. apply lookup_fmap. Qed.

Lemma unsetPrimary_none (user k : string) (rows : gmap string ResumeRow) (r : ResumeRow) :
  unsetPrimary user rows !! k = Some r -> resumeUser r = user -> is_primary r = false.
Proof.
  rewrite lookup_unsetPrimary. destruct (rows !! k) as [r0|]; [|discriminate].
  simpl. destruct (String.eqb_spec (resumeUser r0) user) as [E|E].
  - intros [= <-] _. reflexivity.
  - intros [= <-] Hu. contradiction.
Qed.

Lemma unsetPrimary_other (user k : string) (rows : gmap string ResumeRow) (r : ResumeRow) :
  rows !! k = Some r -> resumeUser r <> user -> unsetPrimary user rows !! k = Some r.
Proof.
  intros Hk Hu. rewrite lookup_unsetPrimary, Hk. simpl.
  destruct (String.eqb_spec (resumeUser r) user); [contradiction | reflexivity].
Qed.

Lemma unsetPrimary_user (user k : string) (rows : gmap string ResumeRow) (r : ResumeRow) :
  unsetPrimary user rows !! k = Some r ->
  exists r0, rows !! k = Some r0 /\ resumeUser r0 = resumeUser r.
Proof.
  rewrite lookup_unsetPrimary. destruct (rows !! k) as [r0|]; [|discriminate].
  simpl. exists r0. split; [reflexivity|].
  destruct (String.eqb (resumeUser r0) user); injection H as <-; reflexivity.
Qed.

Lemma markPrimary_lookup (user rid k : string) (rows : gmap string ResumeRow)
      (r : ResumeRow) :
  markPrimary user rid rows !! k = Some r ->
  (k = rid /\ resumeUser r = user /\ is_primary r = true
   /\ exists r0, rows !! rid = Some r0 /\ resumeUser r0 = user)
  \/ rows !! k = Some r.
Proof.
  unfold markPrimary. destruct (rows !! rid) as [r0|] eqn:E; [|auto].
  destruct (String.eqb_spec (resumeUser r0) user) as [Eu|Eu]; [|auto].
  intros Hk. apply lookup_insert_Some in Hk as [[<- <-] | [_ Hk]]; [|auto].
  left. simpl. repeat split; auto. exists r0. auto.
Qed.

(** X29: After the route has set a primary resume, the first update
    having been applied, the user has at most one primary resume, the one
    asked for, and exactly that one when it is theirs; nobody else's
    resume is touched and no row is created.  The route answers success
    even for a resume that is not the user's, and then, as when the second
    update fails, the user is left with no primary resume at all. *)
Theorem setPrimary_single_primary (u rid : string) (secondOk : bool) (db : WebDb)
  (Hrid : truthy rid = true) :
  (forall k r, resumeRows (snd (setPrimary (Some u) (Some rid) true secondOk db)) !! k = Some r ->
     resumeUser r = u -> is_primary r = true ->
     k = rid /\ secondOk = true
     /\ exists r0, resumeRows db !! rid = Some r0 /\ resumeUser r0 = u)
  /\ (forall k r, resumeRows db !! k = Some r -> resumeUser r <> u ->
        resumeRows (snd (setPrimary (Some u) (Some rid) true secondOk db)) !! k = Some r)
  /\ dom (resumeRows (snd (setPrimary (Some u) (Some rid) true secondOk db)))
     = dom (resumeRows db)
  /\ (secondOk = true ->
        fst (setPrimary (Some u) (Some rid) true secondOk db) = Success
        /\ forall r0, resumeRows db !! rid = Some r0 -> resumeUser r0 = u ->
             resumeRows (snd (setPrimary (Some u) (Some rid) true secondOk db)) !! rid
             = Some (mkResumeRow u true))
  /\ (secondOk = false ->
        fst (setPrimary (Some u) (Some rid) true secondOk db)
        = Failure 500 "Failed to set primary")
  /\ jobRows (snd (setPrimary (Some u) (Some rid) true secondOk db)) = jobRows db
  /\ runRows (snd (setPrimary (Some u) (Some rid) true secondOk db)) = runRows db.
Proof.
  unfold setPrimary, given. rewrite Hrid.
  destruct secondOk; cbn [fst snd resumeRows jobRows runRows].
  - split; [|split; [|split; [|split; [|split; [|split]]]]];
      try reflexivity; try discriminate.
    + intros k r Hk Hu Hp. apply markPrimary_lookup in Hk
        as [(-> & _ & _ & r0 & Hr0 & Hu0) | Hk].
      * split; [reflexivity|]. split; [reflexivity|].
        apply unsetPrimary_user in Hr0 as (r1 & Hr1 & Hu1).
        exists r1. split; [exact Hr1 | congruence].
      * rewrite (unsetPrimary_none u k _ r Hk Hu) in Hp. discriminate.
    + intros k r Hk Hu. unfold markPrimary.
      pose proof (unsetPrimary_other u k _ r Hk Hu) as Hk'.
      destruct (unsetPrimary u (resumeRows db) !! rid) as [r0|] eqn:E; [|exact Hk'].
      destruct (String.eqb_spec (resumeUser r0) u) as [Eu|Eu]; [|exact Hk'].
      rewrite lookup_insert_ne; [exact Hk'|].
      intros <-. rewrite Hk' in E. injection E as <-. contradiction.
    + unfold markPrimary.
      destruct (unsetPrimary u (resumeRows db) !! rid) as [r0|] eqn:E;
        [|apply dom_fmap_L].
      destruct (String.eqb (resumeUser r0) u); [|apply dom_fmap_L].
      rewrite dom_insert_lookup_L by eauto. apply dom_fmap_L.
    + intros _. split; [reflexivity|]. intros r0 Hr0 Hu.
      unfold markPrimary. rewrite lookup_unsetPrimary, Hr0. simpl.
      rewrite Hu, String.eqb_refl. simpl. rewrite String.eqb_refl.
      apply lookup_insert_eq.
  - split; [|split; [|split; [|split; [|split; [|split]]]]];
      try reflexivity; try discriminate.
    + intros k r Hk Hu Hp.
      rewrite (unsetPrimary_none u k _ r Hk Hu) in Hp. discriminate.
    + intros k r Hk Hu. now apply unsetPrimary_other.
    + apply dom_fmap_L.
Qed.

Lemma primaryResume_single (u rid : string) (db : WebDb) :
  resumeRows db !! rid = Some (mkResumeRow u true) ->
  (forall k r, resumeRows db !! k = Some r -> resumeUser r = u ->
               is_primary r = true -> k = rid) ->
  primaryResume u db = Some rid.
Proof.
  intros Hrid Honly. unfold primaryResume.
  assert (E : filter (fun kr : string * ResumeRow =>
                        resumeUser kr.2 = u /\ is_primary kr.2 = true)
                     (resumeRows db)
              = {[ rid := mkResumeRow u true ]}).
  { apply map_eq. intros k. destruct (decide (k = rid)) as [->|Hne].
    - rewrite lookup_singleton_eq. apply map_lookup_filter_Some. auto.
    - rewrite lookup_singleton_ne by congruence.
      apply map_lookup_filter_None.
      destruct (resumeRows db !! k) as [r|] eqn:Ek; [right | now left].
      intros x [= <-] [Hu Hp]. simpl in *. apply Hne. eauto. }
  rewrite E, map_to_list_singleton. reflexivity.
Qed.

(** After a successful [setPrimary] for a resume of the user, the lookup
    of the primary resume finds it. *)
Lemma setPrimary_single_primary_aux (u rid : string) (db : WebDb) :
  truthy rid = true ->
  forall r0, resumeRows db !! rid = Some r0 -> resumeUser r0 = u ->
  primaryResume u (snd (setPrimary (Some u) (Some rid) true true db)) = Some rid
  /\ jobRows (snd (setPrimary (Some u) (Some rid) true true db)) = jobRows db.
Proof.
  intros Hrid r0 Hr0 Hu0. split.
  - apply primaryResume_single.
    + unfold setPrimary, given. rewrite Hrid. cbn [snd resumeRows].
      unfold markPrimary. rewrite lookup_unsetPrimary, Hr0. simpl.
      rewrite Hu0, String.eqb_refl. simpl. rewrite String.eqb_refl.
      apply lookup_insert_eq.
    + unfold setPrimary, given. rewrite Hrid. cbn [snd resumeRows].
      intros k r Hk Hu Hp.
      apply markPrimary_lookup in Hk as [(-> & _) | Hk]; [reflexivity|].
      rewrite (unsetPrimary_none u k _ r Hk Hu) in Hp. discriminate.
  - unfold setPrimary, given. rewrite Hrid. reflexivity.
Qed.

(** X30: The route that starts a run writes nothing unless it answers with
    the run.  The run it creates is queued, at attempt 1, for a job of the
    signed-in user and with that user's one primary resume, and the job
    is marked queued; the worker's [claimRun] will take a run from a
    table that holds it.  Right after [setPrimary] has succeeded for a
    resume of the user, the run is created with that resume. *)
Theorem startRun_creates_queued_run (u jid : string) (inserted : option string)
        (jobUpdateOk : bool) (clock : Z) (db : WebDb)
  (Hjid : truthy jid = true) :
  (forall status error,
     fst (startRun (Some u) (Some jid) inserted jobUpdateOk clock db) = Failure status error ->
     snd (startRun (Some u) (Some jid) inserted jobUpdateOk clock db) = db)
  /\ (forall run,
        fst (startRun (Some u) (Some jid) inserted jobUpdateOk clock db) = RunCreated run ->
        inserted = Some (id run)
        /\ user_id run = u /\ job_target_id run = jid
        /\ status run = run_queued /\ attempt run = 1%Z
        /\ isQueued run = true
        /\ (exists r, resumeRows db !! resume_id run = Some r
                      /\ resumeUser r = u /\ is_primary r = true)
        /\ (exists j, jobRows db !! jid = Some j /\ jobUser j = u
                      /\ jobRows (snd (startRun (Some u) (Some jid) inserted
                                                jobUpdateOk clock db)) !! jid
                         = Some (if jobUpdateOk then mkJobRow u job_queued clock else j))
        /\ runRows (snd (startRun (Some u) (Some jid) inserted jobUpdateOk clock db))
           = <[id run := run]> (runRows db)
        /\ (forall wdb : Db,
              application_runs wdb
              = runRows (snd (startRun (Some u) (Some jid) inserted jobUpdateOk clock db)) ->
              keyedById wdb ->
              exists c, snd (claimRun wdb) = Some c))
  /\ (forall rid r0 j runId,
        truthy rid = true ->
        resumeRows db !! rid = Some r0 -> resumeUser r0 = u ->
        jobRows db !! jid = Some j -> jobUser j = u ->
        inserted = Some runId ->
        fst (startRun (Some u) (Some jid) inserted jobUpdateOk clock
               (snd (setPrimary (Some u) (Some rid) true true db)))
        = RunCreated (newRun runId u jid rid)).
Proof.
  split; [|split].
  - intros st err. unfold startRun, given. rewrite Hjid.
    destruct (jobRows db !! jid) as [job|]; [|reflexivity].
    destruct (String.eqb (jobUser job) u); [|reflexivity].
    destruct (primaryResume u db); [|reflexivity].
    destruct inserted; [discriminate | reflexivity].
  - intros run. unfold startRun, given. rewrite Hjid.
    destruct (jobRows db !! jid) as [job|] eqn:Ej; [|discriminate].
    destruct (String.eqb_spec (jobUser job) u) as [Eu|Eu]; [|discriminate].
    destruct (primaryResume u db) as [rid|] eqn:Ep; [|discriminate].
    destruct inserted as [runId|]; [|discriminate].
    intros [= <-]. cbn [fst snd id user_id job_target_id status attempt resume_id
                        newRun jobRows runRows].
    repeat apply conj; try reflexivity.
    + unfold primaryResume in Ep.
      destruct (map_to_list _) as [|[k r] [|]] eqn:El; try discriminate.
      injection Ep as ->.
      assert (Hin : (rid, r) ∈ map_to_list
                (filter (fun kr : string * ResumeRow =>
                           resumeUser kr.2 = u /\ is_primary kr.2 = true)
                        (resumeRows db)))
        by (rewrite El; apply list_elem_of_here).
      apply elem_of_map_to_list, map_lookup_filter_Some in Hin as [Hr [Hu Hp]].
      exists r. auto.
    + exists job. split; [reflexivity|]. split; [exact Eu|].
      destruct jobUpdateOk; [rewrite Eu; apply lookup_insert_eq | exact Ej].
    + intros wdb Hruns Hkey.
      destruct (RunnerMore.claimRun_cases wdb Hkey) as [(q & _ & _ & Hc) | [Hnone Hc]];
        rewrite Hc; [eauto|].
      exfalso.
      assert (Hq : application_runs wdb !! runId = Some (newRun runId u jid rid))
        by (rewrite Hruns; apply lookup_insert_eq).
      specialize (Hnone _ _ Hq). discriminate.
  - intros rid r0 j runId Hrid Hr0 Hu0 Hj Hju ->.
    destruct (setPrimary_single_primary_aux u rid db Hrid r0 Hr0 Hu0) as (Hp & Hjobs).
    unfold startRun, given. rewrite Hjid, Hjobs, Hj, Hju, String.eqb_refl, Hp.
    reflexivity.
Qed.

(** The answer of the first update is not looked at: when it fails and
    the second goes through, the route answers success and the user has
    two primary resumes, so that no run can be started. *)
Example setPrimary_first_update_ignored :
  fst (setPrimary (Some "ann") (Some "cv-a2") false true twoUsers) = Success
  /\ primaryResume "ann" (snd (setPrimary (Some "ann") (Some "cv-a2") false true twoUsers))
     = None
  /\ exists status error,
       fst (startRun (Some "ann") (Some "job-a") (Some "run-7") true 0
              (snd (setPrimary (Some "ann") (Some "cv-a2") false true twoUsers)))
       = Failure status error.
Proof.
  split; [reflexivity|]. split; [vm_compute; reflexivity|].
  eexists. eexists. vm_compute. reflexivity.
Qed.

Lemma setPrimary_single_primary_witness :
  fst (setPrimary (Some "ann") (Some "cv-a2") true true twoUsers) = Success
  /\ resumeRows (snd (setPrimary (Some "ann") (Some "cv-a2") true true twoUsers)) !! "cv-a2"
     = Some (mkResumeRow "ann" true).
Proof.
  destruct (proj1 (proj2 (proj2 (proj2
              (setPrimary_single_primary "ann" "cv-a2" true twoUsers eq_refl))))
              eq_refl) as [Hs Hrow].
  split; [exact Hs|]. exact (Hrow (mkResumeRow "ann" false) eq_refl eq_refl).
Defined.

Lemma startRun_creates_queued_run_witness :
  fst (startRun (Some "ann") (Some "job-a") (Some "run-7") true 1700000000000
         (snd (setPrimary (Some "ann") (Some "cv-a2") true true twoUsers)))
  = RunCreated (newRun "run-7" "ann" "job-a" "cv-a2").
Proof.
  exact (proj2 (proj2 (startRun_creates_queued_run "ann" "job-a" (Some "run-7")
                         true 1700000000000 twoUsers eq_refl))
               "cv-a2" (mkResumeRow "ann" false) (mkJobRow "ann" job_new 0) "run-7"
               eq_refl eq_refl eq_refl eq_refl eq_refl eq_refl).
Defined.

End WebRoutesFacts.
